(** * otel-tui HTTP query layer: filter, sort, paginate, topology

    A shallow embedding of [tuiexporter/internal/httpserver/handlers.go]
    and of the filter engine that follows it in the same package.
    Go values are represented as follows.

    - [int], [int32], [int64], [time.Duration]: [Z], with the 64-bit
      wrap-around written as [wrap64] where the source does arithmetic.
    - [string]: Rocq [string] (a byte sequence, as in Go).
    - the case tables of package [unicode]: parameters of the model,
      the class [Unicode]; [strings.ToLower] and [strings.EqualFold]
      consult them on texts that are not ASCII.
    - [time.Time]: [Z], the instant in nanoseconds since the Unix epoch;
      [Before]/[After] are the strict comparisons of instants.
    - slices: [list]; a slice expression that would panic yields [None].
    - [map[string]T]: stdpp [gmap string T]; a [range] over a map yields
      the entries in an order Go leaves unspecified, which is modelled by
      the relation [map_range].
    - [url.Values]: [gmap string (list string)].
    - [pcommon.Value] and [interface{}] (the attribute conversion of
      [models.go]): the inductive types [Value] and [Any]. *)

From Stdlib Require Import ZArith String Ascii.
From stdpp Require Import base list gmap strings sorting.

Local Open Scope Z_scope.

(** ** Machine integers *)

Definition min_int64 : Z := - 2 ^ 63.
Definition max_int64 : Z := 2 ^ 63 - 1.

(** Two's-complement reduction of a mathematical integer to [int64]. *)
Definition wrap64 (z : Z) : Z := (z + 2 ^ 63) mod 2 ^ 64 - 2 ^ 63.

Definition in_int64 (z : Z) : bool := (min_int64 <=? z) && (z <=? max_int64).

(** ** Package [unicode]

    [strings.ToLower] and [strings.EqualFold] handle ASCII text
    themselves and hand every other text to the case tables of package
    [unicode], which are not among the sources.  The two places where
    the tables are consulted are the parameters of the model:
    [Map_unicode_ToLower s] stands for [strings.Map(unicode.ToLower, s)]
    and [EqualFold_hasUnicode s t] for the part of [strings.EqualFold]
    after the label [hasUnicode], run on the rest of the two strings. *)
Class Unicode := {
  Map_unicode_ToLower : string → string;
  EqualFold_hasUnicode : string → string → bool
}.

(** ** Package [strings] and [strconv] *)

Module strings.

(** Every byte is below [utf8.RuneSelf] (0x80). *)
Fixpoint isASCII (s : string) : bool :=
  match s with
  | EmptyString => true
  | String c s' => (N_of_ascii c <? 128)%N && isASCII s'
  end.

(** The ASCII path of [strings.ToLower]: bytes ['A'..'Z'] are mapped
    to ['a'..'z'], every other byte is kept. *)
Definition lower_byte (c : ascii) : ascii :=
  let n := N_of_ascii c in
  if ((65 <=? n) && (n <=? 90))%N then ascii_of_N (n + 32) else c.

Fixpoint lower_ascii (s : string) : string :=
  match s with
  | EmptyString => EmptyString
  | String c s' => String (lower_byte c) (lower_ascii s')
  end.

(** [strings.ToLower]: the ASCII path for a text whose bytes are all
    below 0x80, and [Map(unicode.ToLower, s)] otherwise. *)
Definition ToLower `{Unicode} (s : string) : string :=
  if isASCII s then lower_ascii s else Map_unicode_ToLower s.

(** [strings.Contains s substr]: [substr] occurs in [s]. *)
Fixpoint Contains (s substr : string) : bool :=
  String.prefix substr s ||
  match s with
  | EmptyString => false
  | String _ s' => Contains s' substr
  end.

(** [strings.EqualFold]: the two texts are compared byte by byte while
    both bytes are ASCII, equal bytes and the two cases of one letter
    being accepted; at the first byte that is not ASCII the rest of the
    two texts goes to the Unicode path; when one text ends, the texts
    are equal iff the other ends too. *)
Fixpoint EqualFold `{Unicode} (s t : string) : bool :=
  match s, t with
  | String sr s', String tr t' =>
      let m := N_of_ascii sr in
      let n := N_of_ascii tr in
      if ((128 <=? m) || (128 <=? n))%N then EqualFold_hasUnicode s t
      else if (m =? n)%N then EqualFold s' t'
      else
        let lo := N.min m n in
        let hi := N.max m n in
        if ((65 <=? lo) && (lo <=? 90) && (hi =? lo + 32))%N then EqualFold s' t'
        else false
  | EmptyString, EmptyString => true
  | _, _ => false
  end.

End strings.

Module strconv.

Definition digit_val (c : ascii) : option Z :=
  let n := Z.of_N (N_of_ascii c) in
  if (48 <=? n) && (n <=? 57) then Some (n - 48) else None.

Fixpoint parse_digits (s : string) (acc : Z) : option Z :=
  match s with
  | EmptyString => Some acc
  | String c s' =>
      match digit_val c with
      | Some d => parse_digits s' (acc * 10 + d)
      | None => None
      end
  end.

(** [strconv.ParseInt(s, 10, 64)]: an optional sign followed by one or
    more decimal digits, the value inside the [int64] range.  [None] is
    the [err != nil] outcome (syntax or range error). *)
Definition ParseInt (s : string) : option Z :=
  match s with
  | EmptyString => None
  | String c rest =>
      let neg := Ascii.eqb c "-" in
      let digits := if neg || Ascii.eqb c "+" then rest else s in
      match digits with
      | EmptyString => None
      | String _ _ =>
          match parse_digits digits 0 with
          | Some n =>
              let v := if neg then - n else n in
              if in_int64 v then Some v else None
          | None => None
          end
      end
  end.

(** [strconv.Atoi] on a 64-bit platform agrees with
    [ParseInt(s, 10, 0)], also on its short-input fast path. *)
Definition Atoi (s : string) : option Z := ParseInt s.

(** [strconv.Itoa]: the shortest decimal rendering, most significant
    digit first, with a leading minus sign for a negative number.  The
    digits are produced from the least significant one, as
    [formatBits] does; the fuel bounds the number of digits by the
    binary length of the number. *)
Definition digit_char (d : Z) : ascii := ascii_of_N (Z.to_N (48 + d)).

Fixpoint format_digits (fuel : nat) (n : Z) (acc : string) : string :=
  match fuel with
  | O => acc
  | S fuel' =>
      let acc' := String (digit_char (n mod 10)) acc in
      if n / 10 =? 0 then acc' else format_digits fuel' (n / 10) acc'
  end.

Definition format_uint (n : Z) : string :=
  format_digits (S (Z.to_nat (Z.log2 n))) n EmptyString.

Definition Itoa (i : Z) : string :=
  if i <? 0 then String "-" (format_uint (- i)) else format_uint i.

End strconv.

(** ** [net/url]: query values *)

(** [url.Values] is a [map[string][]string]; [Values.Get] returns the
    first value stored under the key, or the empty string. *)
Definition Values_Get (q : gmap string (list string)) (key : string) : string :=
  match q !! key with
  | Some (v :: _) => v
  | _ => EmptyString
  end.

(** ** Filter descriptors *)

Record PaginationParams := mkPagination {
  Offset : Z;
  Limit : Z
}.

Record TimeRangeParams := mkTimeRange {
  StartTime : option Z;
  EndTime : option Z
}.

Record TraceFilterParams := mkTraceFilter {
  tf_Service : string;
  tf_Status : string;
  tf_MinDuration : option Z;
  tf_MaxDuration : option Z;
  tf_TimeRange : TimeRangeParams;
  tf_Pagination : PaginationParams;
  tf_SortBy : string;
  tf_SortOrder : string
}.

Record LogFilterParams := mkLogFilter {
  lf_Service : string;
  lf_Severity : string;
  lf_MinSeverity : Z;
  lf_Body : string;
  lf_TraceID : string;
  lf_TimeRange : TimeRangeParams;
  lf_Pagination : PaginationParams
}.

Record MetricFilterParams := mkMetricFilter {
  mf_Service : string;
  mf_MetricName : string;
  mf_MetricType : string;
  mf_TimeRange : TimeRangeParams;
  mf_Pagination : PaginationParams
}.

(** ** Parameter parsing *)

Definition ParsePaginationParams (q : gmap string (list string)) : PaginationParams :=
  let offset := Values_Get q "offset" in
  let params_Offset :=
    if negb (String.eqb offset "") then
      match strconv.Atoi offset with
      | Some val => if val >=? 0 then val else 0
      | None => 0
      end
    else 0 in
  let limit := Values_Get q "limit" in
  let params_Limit :=
    if negb (String.eqb limit "") then
      match strconv.Atoi limit with
      | Some val =>
          if val >? 0 then (if val >? 1000 then 1000 else val) else 100
      | None => 100
      end
    else 100 in
  {| Offset := params_Offset; Limit := params_Limit |}.

(** [time.Parse(time.RFC3339, s)] belongs to the Go library; the parsers
    below take it as a parameter.  It returns the parsed instant, or
    [None] for [err != nil]. *)
Section parsing.

Context `{Unicode}.
Variable time_Parse_RFC3339 : string → option Z.

(** One bound of the range: RFC3339 text first, then a decimal integer
    read as Unix milliseconds ([time.Unix(0, unix*1000000)]). *)
Definition parse_time_bound (s : string) : option Z :=
  if negb (String.eqb s "") then
    match time_Parse_RFC3339 s with
    | Some t => Some t
    | None =>
        match strconv.ParseInt s with
        | Some unix => Some (wrap64 (unix * 1000000))
        | None => None
        end
    end
  else None.

Definition ParseTimeRangeParams (q : gmap string (list string)) : TimeRangeParams :=
  {| StartTime := parse_time_bound (Values_Get q "start_time");
     EndTime := parse_time_bound (Values_Get q "end_time") |}.

(** [time.Duration(val) * time.Millisecond] for a parsed
    [min_duration_ms] / [max_duration_ms]. *)
Definition parse_duration_ms (s : string) : option Z :=
  if negb (String.eqb s "") then
    match strconv.ParseInt s with
    | Some val => Some (wrap64 (val * 1000000))
    | None => None
    end
  else None.

Definition ParseTraceFilterParams (q : gmap string (list string)) : TraceFilterParams :=
  let SortBy := strings.ToLower (Values_Get q "sort_by") in
  let SortOrder := strings.ToLower (Values_Get q "sort_order") in
  {| tf_Service := Values_Get q "service";
     tf_Status := strings.ToLower (Values_Get q "status");
     tf_MinDuration := parse_duration_ms (Values_Get q "min_duration_ms");
     tf_MaxDuration := parse_duration_ms (Values_Get q "max_duration_ms");
     tf_TimeRange := ParseTimeRangeParams q;
     tf_Pagination := ParsePaginationParams q;
     tf_SortBy := if String.eqb SortBy "" then "time"%string else SortBy;
     tf_SortOrder := if String.eqb SortOrder "" then "desc"%string else SortOrder |}.

End parsing.

(** [severityNameToNumber] converts a severity name to its number. *)
Definition severityNameToNumber `{Unicode} (name : string) : Z :=
  let lowered := strings.ToLower name in
  if String.eqb lowered "trace" then 1
  else if String.eqb lowered "debug" then 5
  else if String.eqb lowered "info" then 9
  else if String.eqb lowered "warn" then 13
  else if String.eqb lowered "error" then 17
  else if String.eqb lowered "fatal" then 21
  else 0.

Section parsing_logs_metrics.

Context `{Unicode}.
Variable time_Parse_RFC3339 : string → option Z.

Definition ParseLogFilterParams (q : gmap string (list string)) : LogFilterParams :=
  let minSev := Values_Get q "min_severity" in
  {| lf_Service := Values_Get q "service";
     lf_Severity := strings.ToLower (Values_Get q "severity");
     lf_MinSeverity :=
       if negb (String.eqb minSev "") then severityNameToNumber minSev else 0;
     lf_Body := Values_Get q "body";
     lf_TraceID := Values_Get q "trace_id";
     lf_TimeRange := ParseTimeRangeParams time_Parse_RFC3339 q;
     lf_Pagination := ParsePaginationParams q |}.

Definition ParseMetricFilterParams (q : gmap string (list string)) : MetricFilterParams :=
  {| mf_Service := Values_Get q "service";
     mf_MetricName := Values_Get q "metric";
     mf_MetricType := Values_Get q "type";
     mf_TimeRange := ParseTimeRangeParams time_Parse_RFC3339 q;
     mf_Pagination := ParsePaginationParams q |}.

End parsing_logs_metrics.

(** ** Telemetry records *)

(** [time.Time.Before] and [time.Time.After] on instants. *)
Definition Time_Before (t u : Z) : bool := t <? u.
Definition Time_After (t u : Z) : bool := u <? t.

(** [time.Time.Sub]: the difference, saturated to the [Duration] range. *)
Definition Time_Sub (t u : Z) : Z := Z.max min_int64 (Z.min max_int64 (t - u)).

(** [pcommon.Timestamp.AsTime]: the [uint64] nanosecond count converted
    to [int64] and read as an instant. *)
Definition Timestamp_AsTime (ts : Z) : Z := wrap64 ts.

Inductive StatusCode := StatusCodeUnset | StatusCodeOk | StatusCodeError.

Definition StatusCode_eqb (a b : StatusCode) : bool :=
  match a, b with
  | StatusCodeUnset, StatusCodeUnset
  | StatusCodeOk, StatusCodeOk
  | StatusCodeError, StatusCodeError => true
  | _, _ => false
  end.

(** [pcommon.SpanID] is eight bytes, held here as the number they spell
    in big-endian order.  [IsEmpty] tests for all bytes zero; [String]
    is the empty string for the empty id and sixteen lowercase hex
    digits otherwise. *)
Definition SpanID_IsEmpty (id : N) : bool := (id mod 2 ^ 64 =? 0)%N.

Definition hex_digit (n : N) : ascii :=
  ascii_of_N (if (n <? 10)%N then 48 + n else 87 + n)%N.

Fixpoint hex_digits (k : nat) (n : N) (acc : string) : string :=
  match k with
  | O => acc
  | S k' => hex_digits k' (n / 16)%N (String (hex_digit (n mod 16)%N) acc)
  end.

Definition SpanID_String (id : N) : string :=
  if SpanID_IsEmpty id then EmptyString else hex_digits 16 id EmptyString.

(** Modelled from the spec: [telemetry.SpanData], [telemetry.LogData]
    and [telemetry.MetricData] are declared in package [telemetry],
    which is not among the sources.  Each record carries the fields the
    handlers read through its accessors: the service name resolved at
    ingest, the datum's own fields, and the received-at instant. *)
Record SpanData := mkSpan {
  span_SpanID : N;
  span_ParentSpanID : N;
  span_Name : string;
  span_StatusCode : StatusCode;
  span_StartTimestamp : Z;
  span_EndTimestamp : Z;
  span_ServiceName : string;
  span_ReceivedAt : Z
}.

Record LogData := mkLog {
  log_ServiceName : string;
  log_Severity : string;
  log_SeverityNumber : Z;
  log_ResolvedBody : string;
  log_TraceID : string;
  log_Timestamp : Z;
  log_ReceivedAt : Z
}.

Record MetricData := mkMetric {
  metric_ServiceName : string;
  metric_MetricName : string;
  metric_MetricTypeText : string;
  metric_ReceivedAt : Z
}.

(** [span.Span.EndTimestamp().AsTime().Sub(span.Span.StartTimestamp().AsTime())] *)
Definition span_duration (span : SpanData) : Z :=
  Time_Sub (Timestamp_AsTime (span_EndTimestamp span))
           (Timestamp_AsTime (span_StartTimestamp span)).

(** ** Matching predicates *)

(** The guard of the status [switch]: true when the span is rejected. *)
Definition status_rejects (status : string) (statusCode : StatusCode) : bool :=
  if String.eqb status "ok" then negb (StatusCode_eqb statusCode StatusCodeOk)
  else if String.eqb status "error" then negb (StatusCode_eqb statusCode StatusCodeError)
  else if String.eqb status "unset" then negb (StatusCode_eqb statusCode StatusCodeUnset)
  else false.

(** [matchesSpanFilters] checks if a span matches all filter criteria. *)
Definition matchesSpanFilters `{Unicode} (span : SpanData) (params : TraceFilterParams)
  : bool :=
  if negb (String.eqb (tf_Service params) "") &&
     negb (strings.Contains
             (strings.ToLower (span_ServiceName span ++ " " ++ span_Name span))
             (strings.ToLower (tf_Service params)))
  then false
  else if negb (String.eqb (tf_Status params) "") &&
          status_rejects (tf_Status params) (span_StatusCode span)
  then false
  else
    let duration := span_duration span in
    if match tf_MinDuration params with
       | Some minDuration => duration <? minDuration
       | None => false
       end
    then false
    else if match tf_MaxDuration params with
            | Some maxDuration => duration >? maxDuration
            | None => false
            end
    then false
    else if match StartTime (tf_TimeRange params) with
            | Some startTime => Time_Before (span_ReceivedAt span) startTime
            | None => false
            end
    then false
    else if match EndTime (tf_TimeRange params) with
            | Some endTime => Time_After (span_ReceivedAt span) endTime
            | None => false
            end
    then false
    else true.

(** [matchesLogFilters] checks if a log matches all filter criteria. *)
Definition matchesLogFilters `{Unicode} (log : LogData) (params : LogFilterParams)
  : bool :=
  if negb (String.eqb (lf_Service params) "") &&
     negb (strings.Contains (strings.ToLower (log_ServiceName log))
                            (strings.ToLower (lf_Service params)))
  then false
  else if negb (String.eqb (lf_Severity params) "") &&
          negb (strings.Contains (strings.ToLower (log_Severity log))
                                 (strings.ToLower (lf_Severity params)))
  then false
  else if (lf_MinSeverity params >? 0) &&
          (log_SeverityNumber log <? lf_MinSeverity params)
  then false
  else if negb (String.eqb (lf_Body params) "") &&
          negb (strings.Contains (strings.ToLower (log_ResolvedBody log))
                                 (strings.ToLower (lf_Body params)))
  then false
  else if negb (String.eqb (lf_TraceID params) "") &&
          negb (String.eqb (log_TraceID log) (lf_TraceID params))
  then false
  else
    let logTime := Timestamp_AsTime (log_Timestamp log) in
    if match StartTime (lf_TimeRange params) with
       | Some startTime => Time_Before logTime startTime
       | None => false
       end
    then false
    else if match EndTime (lf_TimeRange params) with
            | Some endTime => Time_After logTime endTime
            | None => false
            end
    then false
    else true.

(** [matchesMetricFilters] checks if a metric matches all filter criteria. *)
Definition matchesMetricFilters `{Unicode} (metric : MetricData)
    (params : MetricFilterParams) : bool :=
  if negb (String.eqb (mf_Service params) "") &&
     negb (strings.Contains
             (strings.ToLower (metric_ServiceName metric ++ " " ++ metric_MetricName metric))
             (strings.ToLower (mf_Service params)))
  then false
  else if negb (String.eqb (mf_MetricName params) "") &&
          negb (strings.Contains (strings.ToLower (metric_MetricName metric))
                                 (strings.ToLower (mf_MetricName params)))
  then false
  else if negb (String.eqb (mf_MetricType params) "") &&
          negb (strings.EqualFold (metric_MetricTypeText metric) (mf_MetricType params))
  then false
  else if match StartTime (mf_TimeRange params) with
          | Some startTime => Time_Before (metric_ReceivedAt metric) startTime
          | None => false
          end
  then false
  else if match EndTime (mf_TimeRange params) with
          | Some endTime => Time_After (metric_ReceivedAt metric) endTime
          | None => false
          end
  then false
  else true.

(** ** Sorting

    The three sort helpers share one loop nest,
    [for i := 0; i < len; i++ { for j := i+1; j < len; j++ { ... } }],
    which exchanges [spans[i]] and [spans[j]] whenever the comparison
    [swap] holds.  [exchange_sort] is that loop nest over a list updated
    in place by index. *)
Section exchange_sort.

Context {A : Type}.
Variable swap : A → A → bool.

(** [spans[i], spans[j] = spans[j], spans[i]] when [swap] holds. *)
Definition exchange_step (i j : nat) (spans : list A) : list A :=
  match spans !! i, spans !! j with
  | Some si, Some sj =>
      if swap si sj then <[j:=si]> (<[i:=sj]> spans) else spans
  | _, _ => spans
  end.

(** The inner loop with [n] iterations left, the next at index [j]. *)
Fixpoint inner_loop (n : nat) (i j : nat) (spans : list A) : list A :=
  match n with
  | O => spans
  | S n' => inner_loop n' i (S j) (exchange_step i j spans)
  end.

(** The outer loop with [n] iterations left, the next at index [i]. *)
Fixpoint outer_loop (n : nat) (i : nat) (spans : list A) : list A :=
  match n with
  | O => spans
  | S n' =>
      outer_loop n' (S i)
        (inner_loop (length spans - S i)%nat i (S i) spans)
  end.

Definition exchange_sort (spans : list A) : list A :=
  outer_loop (length spans) 0 spans.

(** The same computation read on the list structure.  One inner loop
    carries the element at index [i] along the rest of the list and
    exchanges it with every element that [swap] puts before it:
    [sweep x rest] is the element left at index [i] and the rest
    afterwards. *)
Fixpoint sweep (x : A) (rest : list A) : A * list A :=
  match rest with
  | [] => (x, [])
  | y :: rest' =>
      if swap x y
      then let '(m, out) := sweep y rest' in (m, x :: out)
      else let '(m, out) := sweep x rest' in (m, y :: out)
  end.

(** [n] rounds of [sweep], each on the rest left by the one before. *)
Fixpoint select_all (n : nat) (spans : list A) : list A :=
  match n, spans with
  | S n', x :: rest => let '(m, out) := sweep x rest in m :: select_all n' out
  | _, _ => spans
  end.

(** [stays a b]: the loops leave [a] before [b]. *)
Definition stays (a b : A) : Prop := swap a b = false.

End exchange_sort.

Definition sortSpansByTime (spans : list SpanData) (ascending : bool) : list SpanData :=
  exchange_sort
    (fun si sj =>
       if ascending then Time_After (span_ReceivedAt si) (span_ReceivedAt sj)
       else Time_Before (span_ReceivedAt si) (span_ReceivedAt sj))
    spans.

Definition sortSpansByDuration (spans : list SpanData) (ascending : bool) : list SpanData :=
  exchange_sort
    (fun si sj =>
       let dur1 := span_duration si in
       let dur2 := span_duration sj in
       if ascending then dur1 >? dur2 else dur1 <? dur2)
    spans.

Definition sortSpansByName (spans : list SpanData) (ascending : bool) : list SpanData :=
  exchange_sort
    (fun si sj =>
       if ascending then String.ltb (span_Name sj) (span_Name si)
       else String.ltb (span_Name si) (span_Name sj))
    spans.

(** [sortSpans] sorts spans based on the given criteria. *)
Definition sortSpans (spans : list SpanData) (sortBy sortOrder : string) : list SpanData :=
  let ascending := String.eqb sortOrder "asc" in
  if String.eqb sortBy "duration" then sortSpansByDuration spans ascending
  else if String.eqb sortBy "name" then sortSpansByName spans ascending
  else sortSpansByTime spans ascending.

(** ** Pagination *)

(** The slice expression [s[lo:hi]]: it panics ([None]) unless
    [0 <= lo <= hi <= len(s)].  (Go checks [hi] against the capacity;
    every caller below has clamped [hi] to the length beforehand.) *)
Definition slice_expr {A : Type} (s : list A) (lo hi : Z) : option (list A) :=
  if (0 <=? lo) && (lo <=? hi) && (hi <=? Z.of_nat (length s))
  then Some (take (Z.to_nat (hi - lo)) (drop (Z.to_nat lo) s))
  else None.

(** The body shared by [paginateSpans], [paginateLogs] and
    [paginateMetrics], which differ in the element type only. *)
Definition paginate {A : Type} (items : list A) (pagination : PaginationParams)
  : option (list A) :=
  let len := Z.of_nat (length items) in
  if Offset pagination >=? len then Some []
  else
    let end_ := wrap64 (Offset pagination + Limit pagination) in
    let end_ := if end_ >? len then len else end_ in
    slice_expr items (Offset pagination) end_.

Definition paginateSpans : list SpanData → PaginationParams → option (list SpanData) :=
  paginate.
Definition paginateLogs : list LogData → PaginationParams → option (list LogData) :=
  paginate.
Definition paginateMetrics : list MetricData → PaginationParams → option (list MetricData) :=
  paginate.

(** ** The filter engine *)

(** [FilterSpans] applies all filters to a slice of spans. *)
Definition FilterSpans `{Unicode} (spans : list SpanData) (params : TraceFilterParams)
  : option (list SpanData) :=
  let filtered := List.filter (fun span => matchesSpanFilters span params) spans in
  let filtered := sortSpans filtered (tf_SortBy params) (tf_SortOrder params) in
  paginateSpans filtered (tf_Pagination params).

(** [FilterLogs] applies all filters to a slice of logs. *)
Definition FilterLogs `{Unicode} (logs : list LogData) (params : LogFilterParams)
  : option (list LogData) :=
  let filtered := List.filter (fun log => matchesLogFilters log params) logs in
  paginateLogs filtered (lf_Pagination params).

(** [FilterMetrics] applies all filters to a slice of metrics. *)
Definition FilterMetrics `{Unicode} (metrics : list MetricData)
    (params : MetricFilterParams)
  : option (list MetricData) :=
  let filtered := List.filter (fun metric => matchesMetricFilters metric params) metrics in
  paginateMetrics filtered (mf_Pagination params).

(** ** The store, as the handlers see it *)

(** Modelled from the spec: [telemetry.TraceCache] is not among the
    sources.  [spanByID] maps a span id to one span record and
    [spansByTraceID] maps a trace id to its span records in insertion
    order; a key with no record is absent. *)
Record TraceCache := mkTraceCache {
  spanByID : gmap string SpanData;
  spansByTraceID : gmap string (list SpanData)
}.

(** Modelled from the spec: [telemetry.Store] is not among the sources.
    It owns the three primary arrays, in insertion order, and the trace
    cache. *)
Record Store := mkStore {
  svcspans : list SpanData;
  metrics : list MetricData;
  logs : list LogData;
  tracecache : TraceCache
}.

Definition GetSvcSpans (s : Store) : list SpanData := svcspans s.
Definition GetTraceCache (s : Store) : TraceCache := tracecache s.
Definition GetSpanByID (c : TraceCache) (spanID : string) : option SpanData :=
  spanByID c !! spanID.
Definition GetSpansByTraceID (c : TraceCache) (traceID : string) : option (list SpanData) :=
  spansByTraceID c !! traceID.

(** Modelled from the spec: [ApplyFilterMetrics("")] followed by
    [GetFilteredMetrics()] is the service-filtered view with an empty
    query, which returns all records in insertion order; likewise for
    logs. *)
Definition GetFilteredMetrics_all (s : Store) : list MetricData := metrics s.
Definition GetFilteredLogs_all (s : Store) : list LogData := logs s.

(** ** Ranging over a map

    [for k, v := range m] visits every entry once, in an order that Go
    does not specify and that differs from one run to the next.
    [map_range m kvs] holds when [kvs] is one of the possible visiting
    orders of [m]. *)
Definition map_range {V : Type} (m : gmap string V) (kvs : list (string * V)) : Prop :=
  kvs ≡ₚ map_to_list m.

(** [serviceSet[name] = true] for each name of the list, in order. *)
Definition serviceSet_add (serviceSet : gmap string bool) (names : list string)
  : gmap string bool :=
  foldl (fun set name => <[name:=true]> set) serviceSet names.

(** ** HTTP responses *)

Inductive Response (A : Type) :=
| StatusOK (body : A)
| StatusNotFound (message : string).
Arguments StatusOK {A} body.
Arguments StatusNotFound {A} message.

(** The four pagination headers, before [strconv.Itoa]. *)
Record PaginationHeaders := mkHeaders {
  X_Total_Count : Z;
  X_Filtered_Count : Z;
  X_Offset : Z;
  X_Limit : Z
}.

Record TraceJSON := mkTraceJSON {
  TraceID : string;
  Spans : list SpanData;
  Services : list string
}.

Record TopologyNodeJSON := mkNode {
  node_Service : string;
  node_Depth : Z
}.

Record TopologyEdgeJSON := mkEdge {
  edge_Source : string;
  edge_Target : string;
  edge_Count : Z
}.

Record TopologyJSON := mkTopology {
  Nodes : list TopologyNodeJSON;
  Edges : list TopologyEdgeJSON
}.

(** ** Handlers

    A span, log or metric is serialised element by element in list
    order, so a response body is represented by the list of records it
    serialises. *)

(** [handleGetTraces]: the headers and the body, or [None] when the
    filter engine panics. *)
Definition handleGetTraces `{Unicode} (time_Parse_RFC3339 : string → option Z)
    (s : Store) (q : gmap string (list string))
  : option (PaginationHeaders * list SpanData) :=
  let filterParams := ParseTraceFilterParams time_Parse_RFC3339 q in
  let spans := GetSvcSpans s in
  match FilterSpans spans filterParams with
  | Some filtered =>
      Some ({| X_Total_Count := Z.of_nat (length spans);
               X_Filtered_Count := Z.of_nat (length filtered);
               X_Offset := Offset (tf_Pagination filterParams);
               X_Limit := Limit (tf_Pagination filterParams) |},
            filtered)
  | None => None
  end.

(** [handleGetMetrics] and [handleGetLogs] have the same shape, over the
    unfiltered metric and log views of the store. *)
Definition handleGetMetrics `{Unicode} (time_Parse_RFC3339 : string → option Z)
    (s : Store) (q : gmap string (list string))
  : option (PaginationHeaders * list MetricData) :=
  let filterParams := ParseMetricFilterParams time_Parse_RFC3339 q in
  let metrics := GetFilteredMetrics_all s in
  match FilterMetrics metrics filterParams with
  | Some filtered =>
      Some ({| X_Total_Count := Z.of_nat (length metrics);
               X_Filtered_Count := Z.of_nat (length filtered);
               X_Offset := Offset (mf_Pagination filterParams);
               X_Limit := Limit (mf_Pagination filterParams) |},
            filtered)
  | None => None
  end.

Definition handleGetLogs `{Unicode} (time_Parse_RFC3339 : string → option Z)
    (s : Store) (q : gmap string (list string))
  : option (PaginationHeaders * list LogData) :=
  let filterParams := ParseLogFilterParams time_Parse_RFC3339 q in
  let logs := GetFilteredLogs_all s in
  match FilterLogs logs filterParams with
  | Some filtered =>
      Some ({| X_Total_Count := Z.of_nat (length logs);
               X_Filtered_Count := Z.of_nat (length filtered);
               X_Offset := Offset (lf_Pagination filterParams);
               X_Limit := Limit (lf_Pagination filterParams) |},
            filtered)
  | None => None
  end.

(** [handleGetTraceByID]: [resp] is a possible response for [traceID]. *)
Definition handleGetTraceByID (s : Store) (traceID : string)
    (resp : Response TraceJSON) : Prop :=
  match GetSpansByTraceID (GetTraceCache s) traceID with
  | None => resp = StatusNotFound "Trace not found"
  | Some spans =>
      let serviceSet := serviceSet_add ∅ (span_ServiceName <$> spans) in
      ∃ kvs, map_range serviceSet kvs ∧
             resp = StatusOK {| TraceID := traceID;
                                Spans := spans;
                                Services := kvs.*1 |}
  end.

(** One iteration of the span loop of [buildTopology]. *)
Definition topology_step (cache : TraceCache)
    (acc : gmap string TopologyNodeJSON * gmap string TopologyEdgeJSON)
    (spanData : SpanData)
  : gmap string TopologyNodeJSON * gmap string TopologyEdgeJSON :=
  let '(nodes, edges) := acc in
  let serviceName := span_ServiceName spanData in
  let nodes :=
    match nodes !! serviceName with
    | Some _ => nodes
    | None => <[serviceName := {| node_Service := serviceName; node_Depth := 0 |}]> nodes
    end in
  let parentSpanID := SpanID_String (span_ParentSpanID spanData) in
  if negb (String.eqb parentSpanID "") &&
     negb (SpanID_IsEmpty (span_ParentSpanID spanData))
  then
    match GetSpanByID cache parentSpanID with
    | Some parentSpan =>
        let parentServiceName := span_ServiceName parentSpan in
        if negb (String.eqb parentServiceName serviceName) then
          let edgeKey := (parentServiceName ++ "->" ++ serviceName)%string in
          let nodes :=
            match nodes !! parentServiceName with
            | Some _ => nodes
            | None =>
                <[parentServiceName :=
                    {| node_Service := parentServiceName; node_Depth := 0 |}]> nodes
            end in
          let edges :=
            match edges !! edgeKey with
            | Some edge =>
                <[edgeKey := {| edge_Source := edge_Source edge;
                                edge_Target := edge_Target edge;
                                edge_Count := wrap64 (edge_Count edge + 1) |}]> edges
            | None =>
                <[edgeKey := {| edge_Source := parentServiceName;
                                edge_Target := serviceName;
                                edge_Count := 1 |}]> edges
            end in
          (nodes, edges)
        else (nodes, edges)
    | None => (nodes, edges)
    end
  else (nodes, edges).

(** The node and edge maps after the span loop. *)
Definition topology_maps (s : Store) (cache : TraceCache)
  : gmap string TopologyNodeJSON * gmap string TopologyEdgeJSON :=
  foldl (topology_step cache) (∅, ∅) (GetSvcSpans s).

(** [buildTopology]: [topology] is a possible result. *)
Definition buildTopology (s : Store) (cache : TraceCache) (topology : TopologyJSON) : Prop :=
  let maps := topology_maps s cache in
  ∃ nodeKVs edgeKVs,
    map_range maps.1 nodeKVs ∧ map_range maps.2 edgeKVs ∧
    topology = {| Nodes := nodeKVs.*2; Edges := edgeKVs.*2 |}.


(** [handleGetServices]: [resp] is a possible response. *)
Definition handleGetServices (s : Store) (resp : Response (list string)) : Prop :=
  let serviceSet := serviceSet_add ∅ (span_ServiceName <$> GetSvcSpans s) in
  ∃ kvs, map_range serviceSet kvs ∧ resp = StatusOK (kvs.*1).

Definition getServicesByMetrics (s : Store) (services : list string) : Prop :=
  let serviceSet := serviceSet_add ∅ (metric_ServiceName <$> GetFilteredMetrics_all s) in
  ∃ kvs, map_range serviceSet kvs ∧ services = kvs.*1.

Definition getServicesByLogs (s : Store) (services : list string) : Prop :=
  let serviceSet := serviceSet_add ∅ (log_ServiceName <$> GetFilteredLogs_all s) in
  ∃ kvs, map_range serviceSet kvs ∧ services = kvs.*1.

(** [getAllServices] combines services from traces, metrics, and logs.
    No handler calls it. *)
Definition getAllServices (s : Store) (services : list string) : Prop :=
  let serviceSet := serviceSet_add ∅ (span_ServiceName <$> GetSvcSpans s) in
  ∃ fromMetrics fromLogs kvs,
    getServicesByMetrics s fromMetrics ∧
    getServicesByLogs s fromLogs ∧
    map_range (serviceSet_add (serviceSet_add serviceSet fromMetrics) fromLogs) kvs ∧
    services =
      List.filter
        (fun service =>
           negb (String.eqb service "") && negb (strings.Contains service "unknown"))
        (kvs.*1).

(** The four pagination header lines of a list response, as the list
    handlers set them with [w.Header().Set(name, strconv.Itoa(value))]. *)
Definition pagination_header_lines (h : PaginationHeaders) : list (string * string) :=
  [ ("X-Total-Count", strconv.Itoa (X_Total_Count h));
    ("X-Filtered-Count", strconv.Itoa (X_Filtered_Count h));
    ("X-Offset", strconv.Itoa (X_Offset h));
    ("X-Limit", strconv.Itoa (X_Limit h)) ]%string.

(** ** The other detail handlers

    The lookups of package [telemetry] that these handlers call are not
    among the sources; they are parameters of the model.
    [GetSpansByTraceIDAndSvc c traceID service] is the method of the
    trace cache, [GetFilteredMetrics_by s service] the metric view
    after [ApplyFilterMetrics(service)],
    [GetMetricsBySvcAndMetricName s service metricName] the method of
    the store's metric cache and [GetLogsByTraceID s traceID] the
    method of its log cache. *)
Class Caches := {
  GetSpansByTraceIDAndSvc : TraceCache → string → string → option (list SpanData);
  GetFilteredMetrics_by : Store → string → list MetricData;
  GetMetricsBySvcAndMetricName : Store → string → string → option (list MetricData);
  GetLogsByTraceID : Store → string → option (list LogData)
}.






(** ** Statistics *)

Record StatsJSON := mkStats {
  SpanCount : Z;
  MetricCount : Z;
  LogCount : Z;
  TraceCount : Z;
  ServiceCount : Z;
  LastUpdated : Z;
  MaxServiceSpanCount : Z;
  MaxMetricCount : Z;
  MaxLogCount : Z
}.

(** Modelled from the spec: the caps [telemetry.MAX_SERVICE_SPAN_COUNT],
    [telemetry.MAX_METRIC_COUNT] and [telemetry.MAX_LOG_COUNT] are
    declared in package [telemetry], which is not among the sources;
    the specification gives 1000 spans, 3000 metrics and 1000 logs. *)
Definition MAX_SERVICE_SPAN_COUNT : Z := 1000.
Definition MAX_METRIC_COUNT : Z := 3000.
Definition MAX_LOG_COUNT : Z := 1000.

(** [handleGetStats].  The trace id text of a span
    ([span.Span.TraceID().String()]) and the store's [UpdatedAt()] are
    not carried by the records above and are taken as parameters.
    [len] of a map is the number of its keys. *)
Definition handleGetStats (TraceID_String : SpanData → string) (UpdatedAt : Store → Z)
    (s : Store) : Response StatsJSON :=
  let spans := GetSvcSpans s in
  let metrics := GetFilteredMetrics_all s in
  let logs := GetFilteredLogs_all s in
  let traceSet := serviceSet_add ∅ (TraceID_String <$> spans) in
  let serviceSet := serviceSet_add ∅ (span_ServiceName <$> spans) in
  StatusOK
    {| SpanCount := Z.of_nat (length spans);
       MetricCount := Z.of_nat (length metrics);
       LogCount := Z.of_nat (length logs);
       TraceCount := Z.of_nat (size traceSet);
       ServiceCount := Z.of_nat (size serviceSet);
       LastUpdated := UpdatedAt s;
       MaxServiceSpanCount := MAX_SERVICE_SPAN_COUNT;
       MaxMetricCount := MAX_METRIC_COUNT;
       MaxLogCount := MAX_LOG_COUNT |}.

(** ** Attribute conversion ([models.go])

    A [pcommon.Value] is a tagged union; a [pcommon.Map] is a sequence
    of key and value entries that [Range] visits in order, and which
    may repeat a key.  A double is carried by its IEEE 754 bit
    pattern.  The result is Go's [interface{}]: [nil], a string, an
    [int64], a [float64], a [bool], a [map[string]interface{}], a
    [[]interface{}] or a [[]byte]. *)
#[warnings="-register-all"] Inductive Value :=
| ValueEmpty
| ValueStr (s : string)
| ValueInt (i : Z)
| ValueDouble (bits : Z)
| ValueBool (b : bool)
| ValueMap (entries : list (string * Value))
| ValueSlice (items : list Value)
| ValueBytes (raw : list Byte.byte).

#[warnings="-register-all"] Inductive Any :=
| AnyNil
| AnyStr (s : string)
| AnyInt (i : Z)
| AnyDouble (bits : Z)
| AnyBool (b : bool)
| AnyMap (m : gmap string Any)
| AnySlice (items : list Any)
| AnyBytes (raw : list Byte.byte).

(** [valueToInterface].  The map case is the body of
    [attributesToMap], which the source calls here: every entry is
    stored under its key, in order, into a map that starts empty. *)
Fixpoint valueToInterface (v : Value) : Any :=
  match v with
  | ValueStr s => AnyStr s
  | ValueInt i => AnyInt i
  | ValueDouble d => AnyDouble d
  | ValueBool b => AnyBool b
  | ValueMap entries =>
      AnyMap (foldl (fun (result : gmap string Any) (kv : string * Value) =>
                       <[kv.1 := valueToInterface kv.2]> result) ∅ entries)
  | ValueSlice items => AnySlice (map valueToInterface items)
  | ValueBytes raw => AnyBytes raw
  | ValueEmpty => AnyNil
  end.

(** [attributesToMap]: [result[k] = valueToInterface(v)] for every
    entry that [attrs.Range] visits. *)
Definition attributesToMap (attrs : list (string * Value)) : gmap string Any :=
  foldl (fun (result : gmap string Any) (kv : string * Value) =>
           <[kv.1 := valueToInterface kv.2]> result) ∅ attrs.

(** ** Specification-side vocabulary *)

(** A trace filter descriptor with its time range removed. *)
Definition TraceFilter_without_TimeRange (p : TraceFilterParams) : TraceFilterParams :=
  {| tf_Service := tf_Service p; tf_Status := tf_Status p;
     tf_MinDuration := tf_MinDuration p; tf_MaxDuration := tf_MaxDuration p;
     tf_TimeRange := {| StartTime := None; EndTime := None |};
     tf_Pagination := tf_Pagination p;
     tf_SortBy := tf_SortBy p; tf_SortOrder := tf_SortOrder p |}.

Definition LogFilter_without_TimeRange (p : LogFilterParams) : LogFilterParams :=
  {| lf_Service := lf_Service p; lf_Severity := lf_Severity p;
     lf_MinSeverity := lf_MinSeverity p; lf_Body := lf_Body p;
     lf_TraceID := lf_TraceID p;
     lf_TimeRange := {| StartTime := None; EndTime := None |};
     lf_Pagination := lf_Pagination p |}.

Definition MetricFilter_without_TimeRange (p : MetricFilterParams) : MetricFilterParams :=
  {| mf_Service := mf_Service p; mf_MetricName := mf_MetricName p;
     mf_MetricType := mf_MetricType p;
     mf_TimeRange := {| StartTime := None; EndTime := None |};
     mf_Pagination := mf_Pagination p |}.

(** A log filter descriptor with its minimum severity replaced. *)
Definition LogFilter_with_MinSeverity (p : LogFilterParams) (t : Z) : LogFilterParams :=
  {| lf_Service := lf_Service p; lf_Severity := lf_Severity p;
     lf_MinSeverity := t; lf_Body := lf_Body p;
     lf_TraceID := lf_TraceID p;
     lf_TimeRange := lf_TimeRange p;
     lf_Pagination := lf_Pagination p |}.

(** The closed interval a time range denotes: both bounds included,
    an absent bound unconstrained. *)
Definition inclusive_time_range (tr : TimeRangeParams) (t : Z) : Prop :=
  (∀ startTime, StartTime tr = Some startTime → startTime <= t) ∧
  (∀ endTime, EndTime tr = Some endTime → t <= endTime).

(** The pages of [items] that [paginate_fn] returns with limit [L] at
    the offsets [0, L, 2L, ..., (K-1)L]. *)
Definition pages_at {A : Type}
    (paginate_fn : list A → PaginationParams → option (list A))
    (items : list A) (L : Z) (K : nat) : list (option (list A)) :=
  (fun k : nat => paginate_fn items {| Offset := Z.of_nat k * L; Limit := L |})
    <$> seq 0 K.

(** The largest length a Go slice of pointers can have on a 64-bit
    platform stays below this bound. *)
Definition max_slice_len : Z := 2 ^ 60.

(** The two time-range checks, as one boolean: neither rejects. *)
Definition time_range_accepts (tr : TimeRangeParams) (t : Z) : bool :=
  negb match StartTime tr with
       | Some startTime => Time_Before t startTime
       | None => false
       end &&
  negb match EndTime tr with
       | Some endTime => Time_After t endTime
       | None => false
       end.

(** The comparison [sortSpans] hands to its loop nest. *)
Definition sort_swap (sortBy sortOrder : string) (si sj : SpanData) : bool :=
  let ascending := String.eqb sortOrder "asc" in
  if String.eqb sortBy "duration" then
    if ascending then span_duration si >? span_duration sj
    else span_duration si <? span_duration sj
  else if String.eqb sortBy "name" then
    if ascending then String.ltb (span_Name sj) (span_Name si)
    else String.ltb (span_Name si) (span_Name sj)
  else
    if ascending then Time_After (span_ReceivedAt si) (span_ReceivedAt sj)
    else Time_Before (span_ReceivedAt si) (span_ReceivedAt sj).

(** The sort keys of the trace descriptor. *)
Inductive SortKey := ByTime | ByDuration | ByName.

(** The key a [sort_by] value asks for: [duration], [name], and
    received-at time for [time]. *)
Definition requested_key (sortBy : string) : SortKey :=
  if String.eqb sortBy "duration" then ByDuration
  else if String.eqb sortBy "name" then ByName
  else ByTime.

(** [a] is at most [b] under the key; names compare as byte strings. *)
Definition key_le (key : SortKey) (a b : SpanData) : Prop :=
  match key with
  | ByTime => span_ReceivedAt a <= span_ReceivedAt b
  | ByDuration => span_duration a <= span_duration b
  | ByName => String.leb (span_Name a) (span_Name b) = true
  end.

(** [a] and [b] are equal under the key. *)
Definition key_eq (key : SortKey) (a b : SpanData) : Prop :=
  key_le key a b ∧ key_le key b a.

(** [a] may precede [b] in a list sorted by the key in the order. *)
Definition key_order (key : SortKey) (ascending : bool) (a b : SpanData) : Prop :=
  if ascending then key_le key a b else key_le key b a.

(** The tie-break by received-at descending: of two spans equal under
    the key, the one received later comes first. *)
Definition ties_by_received_at_desc (key : SortKey) (spans : list SpanData) : Prop :=
  ∀ (i j : nat) (a b : SpanData),
    (i < j)%nat → spans !! i = Some a → spans !! j = Some b →
    key_eq key a b → span_ReceivedAt b <= span_ReceivedAt a.

(** The parent and child service a span witnesses: its parent id is
    not empty, the parent resolves in the span-id index, and the
    parent's service differs from its own. *)
Definition witnessed_pair (cache : TraceCache) (spanData : SpanData)
  : option (string * string) :=
  if SpanID_IsEmpty (span_ParentSpanID spanData) then None
  else
    match GetSpanByID cache (SpanID_String (span_ParentSpanID spanData)) with
    | Some parentSpan =>
        if String.eqb (span_ServiceName parentSpan) (span_ServiceName spanData)
        then None
        else Some (span_ServiceName parentSpan, span_ServiceName spanData)
    | None => None
    end.

(** The key under which [buildTopology] files a link. *)
Definition edge_key (link : string * string) : string :=
  (link.1 ++ "->" ++ link.2)%string.

(** The edge filed under [key] after the pairs have been recorded in
    order: source and target of the first link with that key, counted
    once per link with that key. *)
Definition edge_under_key (key : string) (pairs : list (string * string))
  : option TopologyEdgeJSON :=
  match List.filter (fun link => String.eqb (edge_key link) key) pairs with
  | [] => None
  | first :: rest =>
      Some {| edge_Source := first.1; edge_Target := first.2;
              edge_Count := Z.of_nat (S (length rest)) |}
  end.

(** The services that get a node: the service of every span and the
    parent service of every witnessed pair. *)
Definition node_services (cache : TraceCache) (spans : list SpanData) : list string :=
  spans ≫= (fun spanData =>
    span_ServiceName spanData ::
    match witnessed_pair cache spanData with
    | Some link => [link.1]
    | None => []
    end).

(** [nodes[service]] is set unless the key is present. *)
Definition add_node (service : string) (nodes : gmap string TopologyNodeJSON)
  : gmap string TopologyNodeJSON :=
  match nodes !! service with
  | Some _ => nodes
  | None => <[service := {| node_Service := service; node_Depth := 0 |}]> nodes
  end.

(** A filter descriptor with its pagination replaced. *)
Definition TraceFilter_with_Pagination (p : TraceFilterParams) (pg : PaginationParams)
  : TraceFilterParams :=
  {| tf_Service := tf_Service p; tf_Status := tf_Status p;
     tf_MinDuration := tf_MinDuration p; tf_MaxDuration := tf_MaxDuration p;
     tf_TimeRange := tf_TimeRange p;
     tf_Pagination := pg;
     tf_SortBy := tf_SortBy p; tf_SortOrder := tf_SortOrder p |}.

Definition LogFilter_with_Pagination (p : LogFilterParams) (pg : PaginationParams)
  : LogFilterParams :=
  {| lf_Service := lf_Service p; lf_Severity := lf_Severity p;
     lf_MinSeverity := lf_MinSeverity p; lf_Body := lf_Body p;
     lf_TraceID := lf_TraceID p;
     lf_TimeRange := lf_TimeRange p;
     lf_Pagination := pg |}.

Definition MetricFilter_with_Pagination (p : MetricFilterParams) (pg : PaginationParams)
  : MetricFilterParams :=
  {| mf_Service := mf_Service p; mf_MetricName := mf_MetricName p;
     mf_MetricType := mf_MetricType p;
     mf_TimeRange := mf_TimeRange p;
     mf_Pagination := pg |}.

(** A trace filter descriptor with its status, or its service query,
    replaced. *)
Definition TraceFilter_with_Status (p : TraceFilterParams) (status : string)
  : TraceFilterParams :=
  {| tf_Service := tf_Service p; tf_Status := status;
     tf_MinDuration := tf_MinDuration p; tf_MaxDuration := tf_MaxDuration p;
     tf_TimeRange := tf_TimeRange p;
     tf_Pagination := tf_Pagination p;
     tf_SortBy := tf_SortBy p; tf_SortOrder := tf_SortOrder p |}.

Definition TraceFilter_with_Service (p : TraceFilterParams) (service : string)
  : TraceFilterParams :=
  {| tf_Service := service; tf_Status := tf_Status p;
     tf_MinDuration := tf_MinDuration p; tf_MaxDuration := tf_MaxDuration p;
     tf_TimeRange := tf_TimeRange p;
     tf_Pagination := tf_Pagination p;
     tf_SortBy := tf_SortBy p; tf_SortOrder := tf_SortOrder p |}.

(** A pagination request inside the [int] range: offset and limit not
    negative and their sum representable. *)
Definition pagination_in_range (pg : PaginationParams) : Prop :=
  0 <= Offset pg ∧ 0 <= Limit pg ∧ Offset pg + Limit pg <= max_int64.

(** Received-at strictly increases along the array: the insertion order
    under a clock that never repeats an instant. *)
Definition received_strictly_increasing (spans : list SpanData) : Prop :=
  StronglySorted (fun a b => span_ReceivedAt a < span_ReceivedAt b) spans.

(** What a status value demands of a span's status code; a value other
    than [ok], [error] and [unset] demands nothing. *)
Definition status_demands (status : string) (code : StatusCode) : Prop :=
  (status = "ok"%string → code = StatusCodeOk) ∧
  (status = "error"%string → code = StatusCodeError) ∧
  (status = "unset"%string → code = StatusCodeUnset).

(** The largest magnitude of a millisecond count whose nanosecond
    count fits [int64]. *)
Definition max_millis : Z := 9223372036854.

(** The edge of a witnessed pair: source and target the pair, counted
    once per span that witnesses it. *)
Definition edge_of_pair (links : list (string * string)) (link : string * string)
  : TopologyEdgeJSON :=
  {| edge_Source := link.1; edge_Target := link.2;
     edge_Count := Z.of_nat (length (List.filter (fun l => bool_decide (l = link)) links)) |}.

(** The sum of the counts of a list of edges. *)
Definition total_count (edges : list TopologyEdgeJSON) : Z :=
  foldr Z.add 0 (edge_Count <$> edges).

(** The value of the last entry of [attrs] whose key is [k]. *)
Definition last_with_key (attrs : list (string * Value)) (k : string) : option Value :=
  snd <$> last (filter (fun kv => kv.1 = k) attrs).

(** The descriptors whose only criterion is a time range. *)
Definition TraceFilter_only_TimeRange (tr : TimeRangeParams) : TraceFilterParams :=
  {| tf_Service := ""; tf_Status := "";
     tf_MinDuration := None; tf_MaxDuration := None;
     tf_TimeRange := tr;
     tf_Pagination := {| Offset := 0; Limit := 100 |};
     tf_SortBy := "time"; tf_SortOrder := "desc" |}.

Definition LogFilter_only_TimeRange (tr : TimeRangeParams) : LogFilterParams :=
  {| lf_Service := ""; lf_Severity := "";
     lf_MinSeverity := 0; lf_Body := "";
     lf_TraceID := "";
     lf_TimeRange := tr;
     lf_Pagination := {| Offset := 0; Limit := 100 |} |}.

Definition MetricFilter_only_TimeRange (tr : TimeRangeParams) : MetricFilterParams :=
  {| mf_Service := ""; mf_MetricName := ""; mf_MetricType := "";
     mf_TimeRange := tr;
     mf_Pagination := {| Offset := 0; Limit := 100 |} |}.

(** Two texts with the same lower-case form, both empty or neither. *)
Definition same_lower `{Unicode} (s t : string) : Prop :=
  strings.ToLower s = strings.ToLower t ∧ (s = EmptyString ↔ t = EmptyString).

(** ** Concrete inputs *)

(** The query [?offset=-3&limit=5000]. *)
Definition query_negative_offset_large_limit : gmap string (list string) :=
  {[ "offset"%string := ["-3"%string]; "limit"%string := ["5000"%string] ]}.

(** A span received at instant 1000 and a descriptor whose only
    criterion is the time range [1000, 1000]. *)
Definition span_at_1000 : SpanData :=
  {| span_SpanID := 1; span_ParentSpanID := 0; span_Name := "GET /";
     span_StatusCode := StatusCodeOk;
     span_StartTimestamp := 10; span_EndTimestamp := 20;
     span_ServiceName := "front"; span_ReceivedAt := 1000 |}.

Definition filter_range_1000 : TraceFilterParams :=
  {| tf_Service := ""; tf_Status := "";
     tf_MinDuration := None; tf_MaxDuration := None;
     tf_TimeRange := {| StartTime := Some 1000; EndTime := Some 1000 |};
     tf_Pagination := {| Offset := 0; Limit := 100 |};
     tf_SortBy := "time"; tf_SortOrder := "desc" |}.

(** Three spans: equal durations for the first two, received at 1, 2
    and 3. *)
Definition span_a : SpanData :=
  {| span_SpanID := 1; span_ParentSpanID := 0; span_Name := "a";
     span_StatusCode := StatusCodeOk;
     span_StartTimestamp := 0; span_EndTimestamp := 5;
     span_ServiceName := "front"; span_ReceivedAt := 1 |}.

Definition span_b : SpanData :=
  {| span_SpanID := 2; span_ParentSpanID := 0; span_Name := "b";
     span_StatusCode := StatusCodeOk;
     span_StartTimestamp := 0; span_EndTimestamp := 5;
     span_ServiceName := "back"; span_ReceivedAt := 2 |}.

Definition span_c : SpanData :=
  {| span_SpanID := 3; span_ParentSpanID := 0; span_Name := "c";
     span_StatusCode := StatusCodeOk;
     span_StartTimestamp := 0; span_EndTimestamp := 9;
     span_ServiceName := "db"; span_ReceivedAt := 3 |}.

(** A descriptor with no filter criterion: only sorting and paging. *)
Definition filter_sorted (sortBy sortOrder : string) (offset limit : Z)
  : TraceFilterParams :=
  {| tf_Service := ""; tf_Status := "";
     tf_MinDuration := None; tf_MaxDuration := None;
     tf_TimeRange := {| StartTime := None; EndTime := None |};
     tf_Pagination := {| Offset := offset; Limit := limit |};
     tf_SortBy := sortBy; tf_SortOrder := sortOrder |}.

(** A span with the given id, parent id and service. *)
Definition span_of (id parent : N) (service : string) : SpanData :=
  {| span_SpanID := id; span_ParentSpanID := parent; span_Name := "op";
     span_StatusCode := StatusCodeUnset;
     span_StartTimestamp := 0; span_EndTimestamp := 1;
     span_ServiceName := service; span_ReceivedAt := Z.of_N id |}.

(** The trace cache that indexes exactly the given spans. *)
Definition cache_of (spans : list SpanData) : TraceCache :=
  {| spanByID :=
       list_to_map ((fun span => (SpanID_String (span_SpanID span), span)) <$> spans);
     spansByTraceID := {[ "T"%string := spans ]} |}.

Definition store_of (spans : list SpanData) (logs : list LogData) : Store :=
  {| svcspans := spans; metrics := []; logs := logs; tracecache := cache_of spans |}.

(** Three spans and the query [?limit=2]. *)
Definition store_three_spans : Store := store_of [span_a; span_b; span_c] [].

Definition query_limit_2 : gmap string (list string) :=
  {[ "limit"%string := ["2"%string] ]}.

(** One span whose resource has no [service.name] (service ["unknown"])
    and one log of service ["billing"]. *)
Definition store_unknown_span_billing_log : Store :=
  store_of [span_of 1 0 "unknown"]
    [ {| log_ServiceName := "billing"; log_Severity := "INFO";
         log_SeverityNumber := 9; log_ResolvedBody := "paid";
         log_TraceID := ""; log_Timestamp := 0; log_ReceivedAt := 0 |} ].

(** Scenario 3 of the specification, with two spans: trace ["T"],
    services [front] and [back]. *)
Definition store_front_back : Store :=
  store_of [span_of 1 0 "front"; span_of 2 1 "back"] [].

(** Two parent and child pairs, [("a->b", "c")] and [("a", "b->c")]. *)
Definition store_arrow_services : Store :=
  store_of [span_of 1 0 "a->b"; span_of 2 1 "c";
            span_of 3 0 "a"; span_of 4 3 "b->c"] [].

(** The stores of the end-to-end scenarios.  Durations are given in
    milliseconds, severities as numbers. *)
Definition span_lasting (id : N) (ms : Z) : SpanData :=
  {| span_SpanID := id; span_ParentSpanID := 0; span_Name := "op";
     span_StatusCode := StatusCodeUnset;
     span_StartTimestamp := 0; span_EndTimestamp := ms * 1000000;
     span_ServiceName := "svc"; span_ReceivedAt := Z.of_N id |}.

Definition store_five_durations : Store :=
  store_of [span_lasting 1 10; span_lasting 2 200; span_lasting 3 50;
            span_lasting 4 1000; span_lasting 5 300] [].

Definition query_duration_window : gmap string (list string) :=
  {[ "min_duration_ms"%string := ["100"%string];
     "max_duration_ms"%string := ["500"%string];
     "sort_by"%string := ["duration"%string];
     "sort_order"%string := ["asc"%string] ]}.

Definition log_of_severity (n : Z) : LogData :=
  {| log_ServiceName := "svc"; log_Severity := "";
     log_SeverityNumber := n; log_ResolvedBody := "";
     log_TraceID := ""; log_Timestamp := 0; log_ReceivedAt := 0 |}.

Definition store_five_severities : Store :=
  store_of [] (log_of_severity <$> [1; 9; 13; 17; 21]).

Definition span_with_status (id : N) (code : StatusCode) : SpanData :=
  {| span_SpanID := id; span_ParentSpanID := 0; span_Name := "op";
     span_StatusCode := code;
     span_StartTimestamp := 0; span_EndTimestamp := 1;
     span_ServiceName := "svc"; span_ReceivedAt := Z.of_N id |}.

Definition store_ten_statuses : Store :=
  store_of [span_with_status 1 StatusCodeError; span_with_status 2 StatusCodeOk;
            span_with_status 3 StatusCodeOk; span_with_status 4 StatusCodeUnset;
            span_with_status 5 StatusCodeOk; span_with_status 6 StatusCodeError;
            span_with_status 7 StatusCodeUnset; span_with_status 8 StatusCodeOk;
            span_with_status 9 StatusCodeUnset; span_with_status 10 StatusCodeOk] [].

Definition store_front_back_db : Store :=
  store_of [span_of 1 0 "front"; span_of 2 1 "back"; span_of 3 2 "db"] [].

(** An RFC3339 parser as the queries below see it: none of them
    carries RFC3339 text, so it rejects its input. *)
Definition parse_never : string → option Z := fun _ => None.

(** A log descriptor whose only criterion is a minimum severity, and a
    metric descriptor with no criterion. *)
Definition log_filter_min_severity (threshold offset limit : Z) : LogFilterParams :=
  {| lf_Service := ""; lf_Severity := "";
     lf_MinSeverity := threshold; lf_Body := "";
     lf_TraceID := "";
     lf_TimeRange := {| StartTime := None; EndTime := None |};
     lf_Pagination := {| Offset := offset; Limit := limit |} |}.

(** A trace descriptor whose only criterion is a duration window, in
    nanoseconds. *)
Definition filter_duration_window (minDuration maxDuration : Z) : TraceFilterParams :=
  {| tf_Service := ""; tf_Status := "";
     tf_MinDuration := Some minDuration; tf_MaxDuration := Some maxDuration;
     tf_TimeRange := {| StartTime := None; EndTime := None |};
     tf_Pagination := {| Offset := 0; Limit := 100 |};
     tf_SortBy := "time"; tf_SortOrder := "desc" |}.

(** The headers of the first page of two out of three spans. *)
Definition headers_two_of_three : PaginationHeaders :=
  {| X_Total_Count := 3; X_Filtered_Count := 2; X_Offset := 0; X_Limit := 2 |}.

(** Attributes that repeat the key [http.method]. *)
Definition attrs_repeated_key : list (string * Value) :=
  [ ("http.method"%string, ValueStr "GET");
    ("http.status"%string, ValueInt 200);
    ("http.method"%string, ValueStr "POST") ].

(** Attributes with two distinct keys. *)
Definition attrs_two_keys : list (string * Value) :=
  [ ("http.method"%string, ValueStr "GET");
    ("http.status"%string, ValueInt 200) ].

(** A log of the given service, and a log descriptor whose only
    criterion is a service query. *)
Definition log_of_service (service : string) : LogData :=
  {| log_ServiceName := service; log_Severity := "Info";
     log_SeverityNumber := 9; log_ResolvedBody := "Paid in full";
     log_TraceID := ""; log_Timestamp := 0; log_ReceivedAt := 0 |}.

Definition log_filter_service (service : string) : LogFilterParams :=
  {| lf_Service := service; lf_Severity := "";
     lf_MinSeverity := 0; lf_Body := "";
     lf_TraceID := "";
     lf_TimeRange := {| StartTime := None; EndTime := None |};
     lf_Pagination := {| Offset := 0; Limit := 100 |} |}.

(** A log and a metric whose instant is 1000, and the time range
    [1000, 1000]. *)
Definition log_at_1000 : LogData :=
  {| log_ServiceName := "front"; log_Severity := "INFO";
     log_SeverityNumber := 9; log_ResolvedBody := "started";
     log_TraceID := ""; log_Timestamp := 1000; log_ReceivedAt := 2000 |}.

Definition metric_at_1000 : MetricData :=
  {| metric_ServiceName := "front"; metric_MetricName := "requests";
     metric_MetricTypeText := "Sum"; metric_ReceivedAt := 1000 |}.

Definition range_1000 : TimeRangeParams :=
  {| StartTime := Some 1000; EndTime := Some 1000 |}.

(** A metric descriptor whose only criterion is the metric type. *)
Definition metric_filter_type (metricType : string) : MetricFilterParams :=
  {| mf_Service := ""; mf_MetricName := ""; mf_MetricType := metricType;
     mf_TimeRange := {| StartTime := None; EndTime := None |};
     mf_Pagination := {| Offset := 0; Limit := 100 |} |}.

(** The query [?min_severity=warn]. *)
Definition query_min_severity_warn : gmap string (list string) :=
  {[ "min_severity"%string := ["warn"%string] ]}.

(** Cache lookups that find nothing, for the stores below, which
    hold no trace-and-service, metric or log index. *)
Definition caches_absent : Caches :=
  {| GetSpansByTraceIDAndSvc := fun _ _ _ => None;
     GetFilteredMetrics_by := fun _ _ => [];
     GetMetricsBySvcAndMetricName := fun _ _ _ => None;
     GetLogsByTraceID := fun _ _ => None |}.

(** The concrete inputs of this development are ASCII texts, on which
    [strings.ToLower] and [strings.EqualFold] never take their Unicode
    path.  This instance only closes the terms that evaluate the
    definitions at those inputs; it is not a model of the case tables,
    and no property is stated about it. *)
Definition unicode_for_ascii_inputs : Unicode :=
  {| Map_unicode_ToLower := fun s => s;
     EqualFold_hasUnicode := fun _ _ => false |}.

(** * Properties

    The properties hold for every implementation of the Unicode
    paths. *)

Section properties.
Context `{Unicode}.

(** ** Letter case on ASCII texts *)

Lemma ToLower_ascii s :
  strings.isASCII s = true → strings.ToLower s = strings.lower_ascii s.
Proof. unfold strings.ToLower. by intros ->. Qed.

Lemma isASCII_app s t :
  strings.isASCII (s ++ t) = strings.isASCII s && strings.isASCII t.
Proof.
  induction s as [|c s IH]; [done|].
  change (String c s ++ t)%string with (String c (s ++ t)).
  cbn [strings.isASCII]. by rewrite IH, andb_assoc.
Qed.

Lemma lower_ascii_app s t :
  strings.lower_ascii (s ++ t) = (strings.lower_ascii s ++ strings.lower_ascii t)%string.
Proof.
  induction s as [|c s IH]; [done|].
  change (String c s ++ t)%string with (String c (s ++ t)).
  cbn [strings.lower_ascii]. rewrite IH. done.
Qed.

Lemma lower_ascii_empty s : strings.lower_ascii s = EmptyString ↔ s = EmptyString.
Proof. by destruct s. Qed.

Lemma N_of_lower_byte c :
  N_of_ascii (strings.lower_byte c) =
  (if (65 <=? N_of_ascii c) && (N_of_ascii c <=? 90)
   then N_of_ascii c + 32 else N_of_ascii c)%N.
Proof.
  unfold strings.lower_byte.
  destruct ((65 <=? N_of_ascii c)%N && (N_of_ascii c <=? 90)%N) eqn:Hc; [|done].
  apply andb_true_iff in Hc as [Hlo%N.leb_le Hhi%N.leb_le].
  rewrite N_ascii_embedding; lia.
Qed.

Lemma N_of_ascii_inj a b : N_of_ascii a = N_of_ascii b → a = b.
Proof.
  intros Heq. rewrite <- (ascii_N_embedding a), <- (ascii_N_embedding b). by rewrite Heq.
Qed.

Lemma lower_byte_idemp c : strings.lower_byte (strings.lower_byte c) = strings.lower_byte c.
Proof.
  apply N_of_ascii_inj.
  rewrite (N_of_lower_byte (strings.lower_byte c)), N_of_lower_byte.
  destruct (N.leb_spec 65 (N_of_ascii c)), (N.leb_spec (N_of_ascii c) 90); cbn [andb];
    repeat match goal with
           | |- context [(?a <=? ?b)%N] => destruct (N.leb_spec a b)
           end; cbn [andb]; lia.
Qed.

Lemma lower_ascii_idemp s :
  strings.lower_ascii (strings.lower_ascii s) = strings.lower_ascii s.
Proof. induction s as [|c s IH]; cbn; [done|]. by rewrite lower_byte_idemp, IH. Qed.

Lemma isASCII_lower_ascii s : strings.isASCII (strings.lower_ascii s) = strings.isASCII s.
Proof.
  induction s as [|c s IH]; [done|]. cbn [strings.lower_ascii strings.isASCII].
  rewrite IH. f_equal. rewrite N_of_lower_byte.
  destruct (N.leb_spec 65 (N_of_ascii c)), (N.leb_spec (N_of_ascii c) 90); cbn [andb];
    destruct (N.ltb_spec (N_of_ascii c) 128);
    repeat match goal with
           | |- context [(?a <? ?b)%N] => destruct (N.ltb_spec a b)
           end; try done; lia.
Qed.

Lemma ToLower_idemp_ascii s :
  strings.isASCII s = true →
  strings.ToLower (strings.ToLower s) = strings.ToLower s.
Proof.
  intros Hs. rewrite (ToLower_ascii s Hs).
  rewrite ToLower_ascii by (by rewrite isASCII_lower_ascii).
  apply lower_ascii_idemp.
Qed.

Lemma lower_byte_eqb a b :
  Ascii.eqb (strings.lower_byte a) (strings.lower_byte b) =
  (N_of_ascii (strings.lower_byte a) =? N_of_ascii (strings.lower_byte b))%N.
Proof.
  destruct (Ascii.eqb_spec (strings.lower_byte a) (strings.lower_byte b)) as [->|Hne].
  - by rewrite N.eqb_refl.
  - symmetry. apply N.eqb_neq. intros Heq. by apply Hne, N_of_ascii_inj.
Qed.

(** On ASCII texts [strings.EqualFold] is equality of the lower-case
    forms. *)
Lemma EqualFold_ascii s : ∀ t,
  strings.isASCII s = true → strings.isASCII t = true →
  strings.EqualFold s t = String.eqb (strings.lower_ascii s) (strings.lower_ascii t).
Proof.
  induction s as [|a s IH]; intros [|b t]; cbn [strings.isASCII]; try done.
  intros [Ha%N.ltb_lt Hs]%andb_true_iff [Hb%N.ltb_lt Ht]%andb_true_iff.
  cbn [strings.EqualFold strings.lower_ascii String.eqb].
  rewrite lower_byte_eqb, !N_of_lower_byte, (IH t Hs Ht).
  destruct (N.leb_spec 128 (N_of_ascii a)); [lia|].
  destruct (N.leb_spec 128 (N_of_ascii b)); [lia|]. cbn [orb].
  destruct (N.eqb_spec (N_of_ascii a) (N_of_ascii b)) as [Heq|Hne].
  { rewrite Heq, N.eqb_refl. done. }
  destruct (N.min_spec (N_of_ascii a) (N_of_ascii b)) as [[? ->]|[? ->]],
           (N.max_spec (N_of_ascii a) (N_of_ascii b)) as [[? ->]|[? ->]]; try lia;
    repeat (match goal with
            | |- context [(?x <=? ?y)%N] => destruct (N.leb_spec x y)
            end; cbn [andb]);
    repeat (match goal with
            | |- context [(?x =? ?y)%N] => destruct (N.eqb_spec x y)
            end; cbn [andb]);
    try done; exfalso; lia.
Qed.

(** ** The scenarios of the specification, evaluated *)

(** Scenario 4: two of ten spans have status [Error]; both fit in the
    default page of 100. *)
Example scenario_status_error parse :
  (λ r : PaginationHeaders * list SpanData,
     (X_Total_Count r.1, X_Filtered_Count r.1, span_SpanID <$> r.2)) <$>
    handleGetTraces parse store_ten_statuses {[ "status"%string := ["error"%string] ]} =
  Some (10, 2, [6%N; 1%N]).
Proof. reflexivity. Qed.

(** Scenario 5: durations 10, 200, 50, 1000, 300 ms, filtered to the
    window 100..500 ms and sorted by duration ascending. *)
Example scenario_duration_window parse :
  (λ r : PaginationHeaders * list SpanData,
     (λ span, span_duration span / 1000000) <$> r.2) <$>
    handleGetTraces parse store_five_durations query_duration_window =
  Some [200; 300].
Proof. reflexivity. Qed.

(** Scenario 6: severities 1, 9, 13, 17, 21; [min_severity=warn] keeps
    three logs and [min_severity=bogus] keeps all five. *)
Example scenario_min_severity parse :
  (λ r : PaginationHeaders * list LogData, log_SeverityNumber <$> r.2) <$>
    handleGetLogs parse store_five_severities
      {[ "min_severity"%string := ["warn"%string] ]} = Some [13; 17; 21] ∧
  (λ r : PaginationHeaders * list LogData, log_SeverityNumber <$> r.2) <$>
    handleGetLogs parse store_five_severities
      {[ "min_severity"%string := ["bogus"%string] ]} = Some [1; 9; 13; 17; 21].
Proof. split; reflexivity. Qed.

(** Scenario 2: [front] calls [back] calls [db]. *)
Example scenario_topology_chain :
  (map_to_list (topology_maps store_front_back_db
                  (GetTraceCache store_front_back_db)).1).*2 ≡ₚ
    [ {| node_Service := "front"; node_Depth := 0 |};
      {| node_Service := "back"; node_Depth := 0 |};
      {| node_Service := "db"; node_Depth := 0 |} ] ∧
  (map_to_list (topology_maps store_front_back_db
                  (GetTraceCache store_front_back_db)).2).*2 ≡ₚ
    [ {| edge_Source := "front"; edge_Target := "back"; edge_Count := 1 |};
      {| edge_Source := "back"; edge_Target := "db"; edge_Count := 1 |} ].
Proof.
  split; vm_compute.
  all: repeat first [ reflexivity
                    | apply Permutation_skip
                    | (etrans; [apply Permutation_swap|]) ].
Qed.

(** ** Integers and strings *)

Lemma wrap64_id z : min_int64 <= z <= max_int64 → wrap64 z = z.
Proof.
  unfold wrap64, min_int64, max_int64. intros Hz.
  rewrite Z.mod_small; lia.
Qed.

Lemma Values_Get_absent (q : gmap string (list string)) key :
  q !! key = None → Values_Get q key = EmptyString.
Proof. unfold Values_Get. by intros ->. Qed.

Lemma Atoi_empty : strconv.Atoi EmptyString = None.
Proof. reflexivity. Qed.

(** ** Pagination parameters *)

(** C9. [ParsePaginationParams] yields offset 0 when the [offset]
    parameter is absent, unparseable or negative and the parsed value
    otherwise; it yields limit 100 when the [limit] parameter is absent,
    unparseable or not positive, and otherwise the parsed value clamped
    to at most 1000. *)
Theorem ParsePaginationParams_defaults_and_clamp (q : gmap string (list string)) :
  (q !! "offset"%string = None → Offset (ParsePaginationParams q) = 0) ∧
  (strconv.Atoi (Values_Get q "offset") = None → Offset (ParsePaginationParams q) = 0) ∧
  (∀ val, strconv.Atoi (Values_Get q "offset") = Some val →
          Offset (ParsePaginationParams q) = if val <? 0 then 0 else val) ∧
  (q !! "limit"%string = None → Limit (ParsePaginationParams q) = 100) ∧
  (strconv.Atoi (Values_Get q "limit") = None → Limit (ParsePaginationParams q) = 100) ∧
  (∀ val, strconv.Atoi (Values_Get q "limit") = Some val →
          Limit (ParsePaginationParams q) = if val <=? 0 then 100 else Z.min val 1000).
Proof.
  unfold ParsePaginationParams; cbn [Offset Limit].
  repeat split.
  - intros Habs. by rewrite (Values_Get_absent _ _ Habs).
  - intros ->. by destruct (negb _).
  - intros val Hval.
    destruct (String.eqb_spec (Values_Get q "offset") "") as [He|_]; cbn.
    { rewrite He in Hval. discriminate. }
    rewrite Hval. destruct (Z.geb_spec val 0), (Z.ltb_spec val 0); lia.
  - intros Habs. by rewrite (Values_Get_absent _ _ Habs).
  - intros ->. by destruct (negb _).
  - intros val Hval.
    destruct (String.eqb_spec (Values_Get q "limit") "") as [He|_]; cbn.
    { rewrite He in Hval. discriminate. }
    rewrite Hval.
    destruct (Z.gtb_spec val 0), (Z.leb_spec val 0), (Z.gtb_spec val 1000); lia.
Qed.

(** ** Minimum severity *)

Lemma matchesLogFilters_MinSeverity (log : LogData) (params : LogFilterParams) :
  matchesLogFilters log params =
  matchesLogFilters log (LogFilter_with_MinSeverity params 0) &&
  negb ((lf_MinSeverity params >? 0) &&
        (log_SeverityNumber log <? lf_MinSeverity params)).
Proof.
  unfold matchesLogFilters, LogFilter_with_MinSeverity;
    cbn [lf_Service lf_Severity lf_MinSeverity lf_Body lf_TraceID lf_TimeRange].
  destruct (negb (String.eqb (lf_Service params) "") && _); [reflexivity|].
  destruct (negb (String.eqb (lf_Severity params) "") && _); [reflexivity|].
  change (0 >? 0) with false. cbn [andb].
  destruct ((lf_MinSeverity params >? 0) && _); cbn [negb].
  - by rewrite andb_false_r.
  - by rewrite andb_true_r.
Qed.

(** C8. [severityNameToNumber] maps the lowered name [trace] to 1,
    [debug] to 5, [info] to 9, [warn] to 13, [error] to 17, [fatal] to 21
    and every other name to 0, so names that differ in letter case only
    get the same number; the lowered name of an ASCII text is the text
    with its letters ['A'..'Z'] replaced.  The parser stores that
    number (0 when the parameter is absent): the query whose only
    parameter is [min_severity] parses to the descriptor whose only
    criterion is that threshold.  A log passes the minimum-severity
    check of [matchesLogFilters] iff the threshold is not positive or
    the log's severity number is at least the threshold; under the
    descriptor whose only criterion is the threshold a log matches iff
    it passes that check, so with threshold 0 every log matches. *)
Theorem severityNameToNumber_threshold :
  (∀ name : string,
     (strings.ToLower name = "trace"%string → severityNameToNumber name = 1) ∧
     (strings.ToLower name = "debug"%string → severityNameToNumber name = 5) ∧
     (strings.ToLower name = "info"%string → severityNameToNumber name = 9) ∧
     (strings.ToLower name = "warn"%string → severityNameToNumber name = 13) ∧
     (strings.ToLower name = "error"%string → severityNameToNumber name = 17) ∧
     (strings.ToLower name = "fatal"%string → severityNameToNumber name = 21) ∧
     (strings.ToLower name ∉
        ["trace"; "debug"; "info"; "warn"; "error"; "fatal"]%string →
      severityNameToNumber name = 0) ∧
     (strings.isASCII name = true →
      strings.ToLower name = strings.lower_ascii name)) ∧
  (∀ name1 name2 : string,
     strings.ToLower name1 = strings.ToLower name2 →
     severityNameToNumber name1 = severityNameToNumber name2) ∧
  (∀ parse (q : gmap string (list string)),
     (q !! "min_severity"%string = None →
      lf_MinSeverity (ParseLogFilterParams parse q) = 0) ∧
     (Values_Get q "min_severity" ≠ EmptyString →
      lf_MinSeverity (ParseLogFilterParams parse q) =
      severityNameToNumber (Values_Get q "min_severity"))) ∧
  (∀ parse (name : string),
     ParseLogFilterParams parse ∅ = log_filter_min_severity 0 0 100 ∧
     (name ≠ EmptyString →
      ParseLogFilterParams parse {[ "min_severity"%string := [name] ]} =
      log_filter_min_severity (severityNameToNumber name) 0 100)) ∧
  (∀ (log : LogData) (params : LogFilterParams),
     matchesLogFilters log params = true ↔
     matchesLogFilters log (LogFilter_with_MinSeverity params 0) = true ∧
     (0 < lf_MinSeverity params → lf_MinSeverity params <= log_SeverityNumber log)) ∧
  (∀ (log : LogData) (threshold offset limit : Z),
     (matchesLogFilters log (log_filter_min_severity threshold offset limit) = true ↔
      threshold <= 0 ∨ threshold <= log_SeverityNumber log) ∧
     matchesLogFilters log (log_filter_min_severity 0 offset limit) = true).
Proof.
  assert (∀ (log : LogData) (params : LogFilterParams),
            matchesLogFilters log params = true ↔
            matchesLogFilters log (LogFilter_with_MinSeverity params 0) = true ∧
            (0 < lf_MinSeverity params →
             lf_MinSeverity params <= log_SeverityNumber log)) as Hcheck.
  { intros log params. rewrite matchesLogFilters_MinSeverity.
    rewrite andb_true_iff, negb_true_iff, andb_false_iff.
    rewrite Z.gtb_ltb, !Z.ltb_ge. split.
    + intros [? [?|?]]; split; auto; lia.
    + intros [? Himp]; split; auto.
      destruct (Z_lt_le_dec 0 (lf_MinSeverity params)); [right|left]; auto. }
  assert (∀ (log : LogData) (threshold offset limit : Z),
            matchesLogFilters log (log_filter_min_severity threshold offset limit) = true ↔
            threshold <= 0 ∨ threshold <= log_SeverityNumber log) as Honly.
  { intros log threshold offset limit. rewrite Hcheck.
    cbn [lf_MinSeverity log_filter_min_severity].
    assert (matchesLogFilters log
              (LogFilter_with_MinSeverity
                 (log_filter_min_severity threshold offset limit) 0) = true) as ->
      by reflexivity.
    split; [intros [_ Hle]|intros Hle; split; [done|]]; lia. }
  split; [|split; [|split; [|split; [|split]]]].
  - intros name. unfold severityNameToNumber.
    repeat split; try (by intros ->); [|apply ToLower_ascii].
    intros Hnot.
    repeat match goal with
           | |- context [String.eqb ?a ?b] =>
               destruct (String.eqb_spec a b) as [He|_];
               [exfalso; apply Hnot; rewrite He; set_solver|]
           end.
    reflexivity.
  - intros name1 name2 Hlower. unfold severityNameToNumber. by rewrite Hlower.
  - intros parse q. unfold ParseLogFilterParams; cbn [lf_MinSeverity]. split.
    + intros Habs. by rewrite (Values_Get_absent _ _ Habs).
    + intros Hne. by destruct (String.eqb_spec (Values_Get q "min_severity") "").
  - intros parse name. split; [reflexivity|].
    intros Hne. destruct name as [|c name]; [done|]. reflexivity.
  - exact Hcheck.
  - intros log threshold offset limit. split; [apply Honly|].
    apply Honly. left. lia.
Qed.

(** ** Time ranges *)

Lemma time_range_accepts_inclusive (tr : TimeRangeParams) (t : Z) :
  time_range_accepts tr t = true ↔ inclusive_time_range tr t.
Proof.
  unfold time_range_accepts, inclusive_time_range, Time_Before, Time_After.
  rewrite andb_true_iff, !negb_true_iff.
  destruct (StartTime tr) as [st|], (EndTime tr) as [e|];
    rewrite ?Z.ltb_ge; split.
  all: try (intros [? ?]; split; intros ? [= <-]; lia).
  all: try (intros [Hs He]; split; auto).
  all: try (intros _; split; intros ? [=]).
  all: intros [? ?]; split; intros ? [=].
Qed.

Lemma matchesSpanFilters_TimeRange (span : SpanData) (params : TraceFilterParams) :
  matchesSpanFilters span params =
  matchesSpanFilters span (TraceFilter_without_TimeRange params) &&
  time_range_accepts (tf_TimeRange params) (span_ReceivedAt span).
Proof.
  unfold matchesSpanFilters, TraceFilter_without_TimeRange, time_range_accepts;
    cbn [tf_Service tf_Status tf_MinDuration tf_MaxDuration tf_TimeRange
         StartTime EndTime].
  destruct (negb (String.eqb (tf_Service params) "") && _); [reflexivity|].
  destruct (negb (String.eqb (tf_Status params) "") && _); [reflexivity|].
  destruct (match tf_MinDuration params with Some _ => _ | None => _ end);
    [reflexivity|].
  destruct (match tf_MaxDuration params with Some _ => _ | None => _ end);
    [reflexivity|].
  destruct (match StartTime (tf_TimeRange params) with Some _ => _ | None => _ end);
    [reflexivity|].
  destruct (match EndTime (tf_TimeRange params) with Some _ => _ | None => _ end);
    reflexivity.
Qed.

Lemma matchesLogFilters_TimeRange (log : LogData) (params : LogFilterParams) :
  matchesLogFilters log params =
  matchesLogFilters log (LogFilter_without_TimeRange params) &&
  time_range_accepts (lf_TimeRange params) (Timestamp_AsTime (log_Timestamp log)).
Proof.
  unfold matchesLogFilters, LogFilter_without_TimeRange, time_range_accepts;
    cbn [lf_Service lf_Severity lf_MinSeverity lf_Body lf_TraceID lf_TimeRange
         StartTime EndTime].
  destruct (negb (String.eqb (lf_Service params) "") && _); [reflexivity|].
  destruct (negb (String.eqb (lf_Severity params) "") && _); [reflexivity|].
  destruct ((lf_MinSeverity params >? 0) && _); [reflexivity|].
  destruct (negb (String.eqb (lf_Body params) "") && _); [reflexivity|].
  destruct (negb (String.eqb (lf_TraceID params) "") && _); [reflexivity|].
  destruct (match StartTime (lf_TimeRange params) with Some _ => _ | None => _ end);
    [reflexivity|].
  destruct (match EndTime (lf_TimeRange params) with Some _ => _ | None => _ end);
    reflexivity.
Qed.

Lemma matchesMetricFilters_TimeRange (metric : MetricData) (params : MetricFilterParams) :
  matchesMetricFilters metric params =
  matchesMetricFilters metric (MetricFilter_without_TimeRange params) &&
  time_range_accepts (mf_TimeRange params) (metric_ReceivedAt metric).
Proof.
  unfold matchesMetricFilters, MetricFilter_without_TimeRange, time_range_accepts;
    cbn [mf_Service mf_MetricName mf_MetricType mf_TimeRange StartTime EndTime].
  destruct (negb (String.eqb (mf_Service params) "") && _); [reflexivity|].
  destruct (negb (String.eqb (mf_MetricName params) "") && _); [reflexivity|].
  destruct (negb (String.eqb (mf_MetricType params) "") && _); [reflexivity|].
  destruct (match StartTime (mf_TimeRange params) with Some _ => _ | None => _ end);
    [reflexivity|].
  destruct (match EndTime (mf_TimeRange params) with Some _ => _ | None => _ end);
    reflexivity.
Qed.

(** C10. The time-range predicates are boundary-inclusive.  A span, log
    or metric matches a descriptor iff it matches the descriptor
    without its time range and its instant (received-at for spans and
    metrics, the timestamp for logs) lies in the closed interval from
    [start_time] to [end_time]; in particular a record whose instant
    equals both bounds is not rejected by the range.  Under the
    descriptor whose only criterion is the time range, a record
    matches iff its instant lies in the closed interval, so a record
    whose instant equals [start_time] or [end_time] is accepted when it
    is not outside the other bound. *)
Theorem time_range_boundary_inclusive :
  (∀ (span : SpanData) (params : TraceFilterParams),
     (matchesSpanFilters span params = true ↔
      matchesSpanFilters span (TraceFilter_without_TimeRange params) = true ∧
      inclusive_time_range (tf_TimeRange params) (span_ReceivedAt span)) ∧
     (tf_TimeRange params =
        {| StartTime := Some (span_ReceivedAt span);
           EndTime := Some (span_ReceivedAt span) |} →
      matchesSpanFilters span params =
      matchesSpanFilters span (TraceFilter_without_TimeRange params))) ∧
  (∀ (log : LogData) (params : LogFilterParams),
     (matchesLogFilters log params = true ↔
      matchesLogFilters log (LogFilter_without_TimeRange params) = true ∧
      inclusive_time_range (lf_TimeRange params)
        (Timestamp_AsTime (log_Timestamp log))) ∧
     (lf_TimeRange params =
        {| StartTime := Some (Timestamp_AsTime (log_Timestamp log));
           EndTime := Some (Timestamp_AsTime (log_Timestamp log)) |} →
      matchesLogFilters log params =
      matchesLogFilters log (LogFilter_without_TimeRange params))) ∧
  (∀ (metric : MetricData) (params : MetricFilterParams),
     (matchesMetricFilters metric params = true ↔
      matchesMetricFilters metric (MetricFilter_without_TimeRange params) = true ∧
      inclusive_time_range (mf_TimeRange params) (metric_ReceivedAt metric)) ∧
     (mf_TimeRange params =
        {| StartTime := Some (metric_ReceivedAt metric);
           EndTime := Some (metric_ReceivedAt metric) |} →
      matchesMetricFilters metric params =
      matchesMetricFilters metric (MetricFilter_without_TimeRange params))) ∧
  (∀ (tr : TimeRangeParams) (span : SpanData) (log : LogData) (metric : MetricData),
     (matchesSpanFilters span (TraceFilter_only_TimeRange tr) = true ↔
      inclusive_time_range tr (span_ReceivedAt span)) ∧
     (matchesLogFilters log (LogFilter_only_TimeRange tr) = true ↔
      inclusive_time_range tr (Timestamp_AsTime (log_Timestamp log))) ∧
     (matchesMetricFilters metric (MetricFilter_only_TimeRange tr) = true ↔
      inclusive_time_range tr (metric_ReceivedAt metric))) ∧
  (∀ (t other : Z) (span : SpanData) (log : LogData) (metric : MetricData),
     (span_ReceivedAt span = t →
      (t <= other →
       matchesSpanFilters span
         (TraceFilter_only_TimeRange {| StartTime := Some t; EndTime := Some other |})
       = true) ∧
      (other <= t →
       matchesSpanFilters span
         (TraceFilter_only_TimeRange {| StartTime := Some other; EndTime := Some t |})
       = true)) ∧
     (Timestamp_AsTime (log_Timestamp log) = t →
      (t <= other →
       matchesLogFilters log
         (LogFilter_only_TimeRange {| StartTime := Some t; EndTime := Some other |})
       = true) ∧
      (other <= t →
       matchesLogFilters log
         (LogFilter_only_TimeRange {| StartTime := Some other; EndTime := Some t |})
       = true)) ∧
     (metric_ReceivedAt metric = t →
      (t <= other →
       matchesMetricFilters metric
         (MetricFilter_only_TimeRange {| StartTime := Some t; EndTime := Some other |})
       = true) ∧
      (other <= t →
       matchesMetricFilters metric
         (MetricFilter_only_TimeRange {| StartTime := Some other; EndTime := Some t |})
       = true))).
Proof.
  assert (Hsame : ∀ t, time_range_accepts {| StartTime := Some t; EndTime := Some t |} t = true).
  { intros t. unfold time_range_accepts, Time_Before, Time_After; cbn.
    by rewrite Z.ltb_irrefl. }
  assert (∀ (tr : TimeRangeParams) (span : SpanData) (log : LogData) (metric : MetricData),
     (matchesSpanFilters span (TraceFilter_only_TimeRange tr) = true ↔
      inclusive_time_range tr (span_ReceivedAt span)) ∧
     (matchesLogFilters log (LogFilter_only_TimeRange tr) = true ↔
      inclusive_time_range tr (Timestamp_AsTime (log_Timestamp log))) ∧
     (matchesMetricFilters metric (MetricFilter_only_TimeRange tr) = true ↔
      inclusive_time_range tr (metric_ReceivedAt metric))) as Honly.
  { intros tr span log metric. split; [|split].
    - rewrite matchesSpanFilters_TimeRange, andb_true_iff, time_range_accepts_inclusive.
      cbn [tf_TimeRange TraceFilter_only_TimeRange].
      assert (matchesSpanFilters span
                (TraceFilter_without_TimeRange (TraceFilter_only_TimeRange tr)) = true)
        as -> by reflexivity.
      tauto.
    - rewrite matchesLogFilters_TimeRange, andb_true_iff, time_range_accepts_inclusive.
      cbn [lf_TimeRange LogFilter_only_TimeRange].
      assert (matchesLogFilters log
                (LogFilter_without_TimeRange (LogFilter_only_TimeRange tr)) = true)
        as -> by reflexivity.
      tauto.
    - rewrite matchesMetricFilters_TimeRange, andb_true_iff, time_range_accepts_inclusive.
      cbn [mf_TimeRange MetricFilter_only_TimeRange].
      assert (matchesMetricFilters metric
                (MetricFilter_without_TimeRange (MetricFilter_only_TimeRange tr)) = true)
        as -> by reflexivity.
      tauto. }
  assert (∀ t other,
            (t <= other →
             inclusive_time_range {| StartTime := Some t; EndTime := Some other |} t) ∧
            (other <= t →
             inclusive_time_range {| StartTime := Some other; EndTime := Some t |} t))
    as Hbound.
  { intros t other. unfold inclusive_time_range; cbn [StartTime EndTime].
    split; intros Hle; split; intros ? [= <-]; lia. }
  split; [|split; [|split; [|split]]].
  - intros span params. rewrite matchesSpanFilters_TimeRange. split.
    + by rewrite andb_true_iff, time_range_accepts_inclusive.
    + intros ->. by rewrite Hsame, andb_true_r.
  - intros log params. rewrite matchesLogFilters_TimeRange. split.
    + by rewrite andb_true_iff, time_range_accepts_inclusive.
    + intros ->. by rewrite Hsame, andb_true_r.
  - intros metric params. rewrite matchesMetricFilters_TimeRange. split.
    + by rewrite andb_true_iff, time_range_accepts_inclusive.
    + intros ->. by rewrite Hsame, andb_true_r.
  - exact Honly.
  - intros t other span log metric.
    split; [|split]; intros <-; split; intros Hle.
    + by apply (proj2 (proj1 (Honly _ span log metric))), (proj1 (Hbound _ _)).
    + by apply (proj2 (proj1 (Honly _ span log metric))), (proj2 (Hbound _ _)).
    + by apply (proj2 (proj1 (proj2 (Honly _ span log metric)))), (proj1 (Hbound _ _)).
    + by apply (proj2 (proj1 (proj2 (Honly _ span log metric)))), (proj2 (Hbound _ _)).
    + by apply (proj2 (proj2 (proj2 (Honly _ span log metric)))), (proj1 (Hbound _ _)).
    + by apply (proj2 (proj2 (proj2 (Honly _ span log metric)))), (proj2 (Hbound _ _)).
Qed.

(** ** Pagination *)

Lemma paginate_beyond {A : Type} (items : list A) (pagination : PaginationParams) :
  Z.of_nat (length items) <= Offset pagination →
  paginate items pagination = Some [].
Proof.
  intros Hoff. unfold paginate.
  destruct (Z.geb_spec (Offset pagination) (Z.of_nat (length items))); [done|lia].
Qed.

Lemma paginate_window {A : Type} (items : list A) (off lim : Z) :
  0 <= off → 0 <= lim → off + lim <= max_int64 →
  paginate items {| Offset := off; Limit := lim |} =
  Some (take (Z.to_nat lim) (drop (Z.to_nat off) items)).
Proof.
  intros Hoff Hlim Hsum. unfold paginate; cbn [Offset Limit].
  destruct (Z.geb_spec off (Z.of_nat (length items))) as [Hge|Hlt].
  { rewrite drop_ge by lia. by rewrite take_nil. }
  rewrite wrap64_id by (unfold min_int64, max_int64 in *; lia).
  unfold slice_expr.
  destruct (Z.gtb_spec (off + lim) (Z.of_nat (length items))) as [Hclamp|Hfit].
  - replace ((0 <=? off) && (off <=? Z.of_nat (length items)) &&
             (Z.of_nat (length items) <=? Z.of_nat (length items))) with true
      by (symmetry; rewrite !andb_true_iff, !Z.leb_le; lia).
    f_equal. rewrite !take_ge; [done| |]; rewrite length_drop; lia.
  - replace ((0 <=? off) && (off <=? off + lim) &&
             (off + lim <=? Z.of_nat (length items))) with true
      by (symmetry; rewrite !andb_true_iff, !Z.leb_le; lia).
    do 3 f_equal. lia.
Qed.

Lemma concat_chunks {A : Type} (L K : nat) (items : list A) :
  (length items ≤ K * L)%nat →
  concat ((fun k : nat => take L (drop (k * L) items)) <$> seq 0 K) = items.
Proof.
  revert items. induction K as [|K IH]; intros items Hlen.
  - cbn in *. by destruct items; [|cbn in Hlen; lia].
  - cbn [seq fmap list_fmap concat].
    change (0 * L)%nat with 0%nat. rewrite drop_0.
    rewrite <- seq_shift, <- list_fmap_compose.
    rewrite <- (take_drop L items) at 2. f_equal.
    rewrite <- (IH (drop L items)) by (rewrite length_drop; lia).
    f_equal. apply list_fmap_ext. intros _ k _. cbn.
    rewrite drop_drop. by rewrite Nat.add_comm.
Qed.

Lemma paginate_pages {A : Type} (items : list A) (L : Z) (K : nat) :
  0 < L → L <= max_int64 →
  Z.of_nat (length items) <= max_slice_len →
  Z.of_nat (length items) <= Z.of_nat K * L →
  ∃ pages, pages_at paginate items L K = Some <$> pages ∧ concat pages = items.
Proof.
  intros HL HLmax Hlen HK.
  exists ((fun k : nat => take (Z.to_nat L) (drop (k * Z.to_nat L) items)) <$> seq 0 K).
  split.
  - unfold pages_at. rewrite <- list_fmap_compose.
    apply list_fmap_ext. intros _ k _. cbn.
    destruct (Z_le_gt_dec (Z.of_nat (length items)) (Z.of_nat k * L)) as [Hge|Hlt].
    + rewrite paginate_beyond by done.
      rewrite drop_ge by nia. by rewrite take_nil.
    + rewrite paginate_window.
      * do 3 f_equal. nia.
      * nia.
      * lia.
      * unfold max_slice_len, max_int64 in *.
        destruct k as [|k]; [lia|]. nia.
  - apply concat_chunks. nia.
Qed.

(** C6. For a record list of length N and a limit L > 0, the pages
    taken at the offsets 0, L, 2L, ... are all returned and their
    concatenation is the full list in order; a page whose offset is at
    or beyond N is the empty slice.  ([L] is a Go [int] and N the length
    of a Go slice.) *)
Theorem pagination_pages_cover :
  (∀ (spans : list SpanData) (L : Z) (K : nat),
     0 < L → L <= max_int64 →
     Z.of_nat (length spans) <= max_slice_len →
     Z.of_nat (length spans) <= Z.of_nat K * L →
     ∃ pages, pages_at paginateSpans spans L K = Some <$> pages ∧
              concat pages = spans) ∧
  (∀ (spans : list SpanData) (pagination : PaginationParams),
     Z.of_nat (length spans) <= Offset pagination →
     paginateSpans spans pagination = Some []) ∧
  (∀ (logs : list LogData) (L : Z) (K : nat),
     0 < L → L <= max_int64 →
     Z.of_nat (length logs) <= max_slice_len →
     Z.of_nat (length logs) <= Z.of_nat K * L →
     ∃ pages, pages_at paginateLogs logs L K = Some <$> pages ∧
              concat pages = logs) ∧
  (∀ (logs : list LogData) (pagination : PaginationParams),
     Z.of_nat (length logs) <= Offset pagination →
     paginateLogs logs pagination = Some []).
Proof.
  repeat split.
  - intros spans L K. apply paginate_pages.
  - intros spans pagination. apply paginate_beyond.
  - intros logs L K. apply paginate_pages.
  - intros logs pagination. apply paginate_beyond.
Qed.

(** ** The exchange sort *)

Section exchange_sort_facts.
Context {A : Type}.
Variable swap : A → A → bool.

Lemma sweep_length x rest : length (sweep swap x rest).2 = length rest.
Proof.
  revert x. induction rest as [|y rest IH]; intros x; [done|].
  cbn. destruct (swap x y).
  - specialize (IH y). destruct (sweep swap y rest); cbn in *. by rewrite IH.
  - specialize (IH x). destruct (sweep swap x rest); cbn in *. by rewrite IH.
Qed.

Lemma exchange_step_middle pre x seen y todo :
  exchange_step swap (length pre) (length pre + S (length seen))
    (pre ++ x :: seen ++ y :: todo) =
  if swap x y then pre ++ y :: seen ++ x :: todo
  else pre ++ x :: seen ++ y :: todo.
Proof.
  unfold exchange_step.
  rewrite list_lookup_middle by done.
  rewrite lookup_app_r by lia.
  replace (length pre + S (length seen) - length pre)%nat with (S (length seen)) by lia.
  rewrite lookup_cons_ne_0 by lia. cbn [pred].
  rewrite list_lookup_middle by done.
  destruct (swap x y); [|done].
  rewrite (insert_app_r_alt pre _ (length pre)) by lia.
  rewrite Nat.sub_diag. cbn [insert list_insert].
  rewrite insert_app_r. cbn [insert list_insert]. do 2 f_equal.
  rewrite (insert_app_r_alt seen _ (length seen)) by lia.
  by rewrite Nat.sub_diag.
Qed.

Lemma inner_loop_sweep todo : ∀ pre x seen,
  inner_loop swap (length todo) (length pre) (length pre + S (length seen))
    (pre ++ x :: seen ++ todo) =
  pre ++ (sweep swap x todo).1 :: seen ++ (sweep swap x todo).2.
Proof.
  induction todo as [|y todo IH]; intros pre x seen; [done|].
  cbn [length inner_loop]. rewrite exchange_step_middle. cbn [sweep].
  destruct (swap x y).
  - specialize (IH pre y (seen ++ [x])).
    rewrite length_app in IH. cbn [length] in IH.
    replace (S (length pre + S (length seen))) with
      (length pre + S (length seen + 1))%nat by lia.
    rewrite <- !app_assoc in IH. cbn [app] in IH. rewrite IH.
    by destruct (sweep swap y todo).
  - specialize (IH pre x (seen ++ [y])).
    rewrite length_app in IH. cbn [length] in IH.
    replace (S (length pre + S (length seen))) with
      (length pre + S (length seen + 1))%nat by lia.
    rewrite <- !app_assoc in IH. cbn [app] in IH. rewrite IH.
    by destruct (sweep swap x todo).
Qed.

Lemma outer_loop_select n : ∀ pre rest,
  n = length rest →
  outer_loop swap n (length pre) (pre ++ rest) = pre ++ select_all swap n rest.
Proof.
  induction n as [|n IH]; intros pre rest Hn; [done|].
  destruct rest as [|x rest]; [done|]. cbn in Hn.
  cbn [outer_loop select_all].
  rewrite length_app. cbn [length].
  replace (length pre + S (length rest) - S (length pre))%nat with (length rest) by lia.
  pose proof (inner_loop_sweep rest pre x []) as Hin. cbn [length app] in Hin.
  replace (length pre + 1)%nat with (S (length pre)) in Hin by lia.
  rewrite Hin.
  pose proof (sweep_length x rest) as Hlen.
  destruct (sweep swap x rest) as [m out]; cbn in *.
  specialize (IH (pre ++ [m]) out).
  rewrite length_app in IH. cbn [length] in IH.
  replace (length pre + 1)%nat with (S (length pre)) in IH by lia.
  rewrite <- !app_assoc in IH. cbn [app] in IH.
  apply IH. lia.
Qed.

Lemma exchange_sort_select spans :
  exchange_sort swap spans = select_all swap (length spans) spans.
Proof. exact (outer_loop_select (length spans) [] spans eq_refl). Qed.

Lemma sweep_perm x rest :
  (sweep swap x rest).1 :: (sweep swap x rest).2 ≡ₚ x :: rest.
Proof.
  revert x. induction rest as [|y rest IH]; intros x; [done|].
  cbn. destruct (swap x y).
  - specialize (IH y). destruct (sweep swap y rest) as [m out]; cbn in *.
    etrans; [apply Permutation_swap|]. by constructor.
  - specialize (IH x). destruct (sweep swap x rest) as [m out]; cbn in *.
    etrans; [apply Permutation_swap|].
    etrans; [|apply Permutation_swap]. by constructor.
Qed.

Lemma select_all_perm n : ∀ spans, select_all swap n spans ≡ₚ spans.
Proof.
  induction n as [|n IH]; intros spans; [done|].
  destruct spans as [|x rest]; [done|]. cbn.
  pose proof (sweep_perm x rest) as Hp.
  destruct (sweep swap x rest) as [m out]; cbn in *.
  by rewrite IH.
Qed.

Lemma exchange_sort_perm spans : exchange_sort swap spans ≡ₚ spans.
Proof. rewrite exchange_sort_select. apply select_all_perm. Qed.

Lemma sweep_fixed x rest : Forall (stays swap x) rest → sweep swap x rest = (x, rest).
Proof.
  induction 1 as [|y rest Hy _ IH]; [done|].
  cbn. rewrite Hy, IH. done.
Qed.

Lemma select_all_fixed n : ∀ spans,
  StronglySorted (stays swap) spans → select_all swap n spans = spans.
Proof.
  induction n as [|n IH]; intros spans Hs; [done|].
  destruct Hs as [|x rest Hs Hx]; [done|].
  cbn. rewrite sweep_fixed by done. by rewrite IH.
Qed.

Hypothesis swap_irrefl : ∀ a, swap a a = false.
Hypothesis swap_trans : ∀ a b c, swap a b = true → swap b c = true → swap a c = true.
Hypothesis swap_negtrans : ∀ a b c, swap a b = false → swap b c = false → swap a c = false.

Lemma sweep_least x rest : Forall (stays swap (sweep swap x rest).1) (x :: rest).
Proof.
  revert x. induction rest as [|y rest IH]; intros x.
  - cbn. constructor; [apply swap_irrefl|done].
  - cbn [sweep]. destruct (swap x y) eqn:Hxy.
    + specialize (IH y). destruct (sweep swap y rest) as [m out]; cbn in *.
      constructor; [|done].
      apply Forall_cons in IH as [Hmy _]. unfold stays in *.
      destruct (swap m x) eqn:Hmx; [|done].
      by rewrite (swap_trans _ _ _ Hmx Hxy) in Hmy.
    + specialize (IH x). destruct (sweep swap x rest) as [m out]; cbn in *.
      apply Forall_cons in IH as [Hmx Hrest].
      constructor; [done|]. constructor; [|done].
      exact (swap_negtrans _ _ _ Hmx Hxy).
Qed.

Lemma select_all_sorted n : ∀ spans,
  (length spans ≤ n)%nat → StronglySorted (stays swap) (select_all swap n spans).
Proof.
  induction n as [|n IH]; intros spans Hlen.
  - destruct spans; [constructor|cbn in Hlen; lia].
  - destruct spans as [|x rest]; [constructor|]. cbn in Hlen. cbn [select_all].
    pose proof (sweep_least x rest) as Hleast.
    pose proof (sweep_perm x rest) as Hperm.
    pose proof (sweep_length x rest) as Hl.
    destruct (sweep swap x rest) as [m out]; cbn in *.
    constructor.
    + apply IH. lia.
    + rewrite select_all_perm.
      rewrite <- Hperm in Hleast. by apply Forall_cons in Hleast as [_ ?].
Qed.

Lemma exchange_sort_sorted spans : StronglySorted (stays swap) (exchange_sort swap spans).
Proof. rewrite exchange_sort_select. by apply select_all_sorted. Qed.

Lemma exchange_sort_fixed spans :
  StronglySorted (stays swap) spans → exchange_sort swap spans = spans.
Proof. rewrite exchange_sort_select. apply select_all_fixed. Qed.
End exchange_sort_facts.

Lemma string_compare_refl s : String.compare s s = Eq.
Proof.
  induction s as [|c s IH]; [done|]. cbn.
  unfold Ascii.compare. by rewrite N.compare_refl.
Qed.

Lemma string_compare_lt_trans s1 : ∀ s2 s3,
  String.compare s1 s2 = Lt → String.compare s2 s3 = Lt → String.compare s1 s3 = Lt.
Proof.
  induction s1 as [|c1 s1 IH]; intros [|c2 s2] [|c3 s3]; cbn; try done.
  unfold Ascii.compare.
  destruct (N.compare_spec (N_of_ascii c1) (N_of_ascii c2)) as [E12|L12|G12];
    destruct (N.compare_spec (N_of_ascii c2) (N_of_ascii c3)) as [E23|L23|G23];
    try done; intros H12 H23.
  - rewrite E12, E23, N.compare_refl. eauto.
  - rewrite E12. by apply N.compare_lt_iff in L23 as ->.
  - rewrite <- E23. by apply N.compare_lt_iff in L12 as ->.
  - assert (N_of_ascii c1 < N_of_ascii c3)%N as Hlt by lia.
    by apply N.compare_lt_iff in Hlt as ->.
Qed.

Lemma string_ltb_irrefl s : String.ltb s s = false.
Proof. unfold String.ltb. by rewrite string_compare_refl. Qed.

Lemma string_ltb_trans s1 s2 s3 :
  String.ltb s1 s2 = true → String.ltb s2 s3 = true → String.ltb s1 s3 = true.
Proof.
  unfold String.ltb. intros H12 H23.
  destruct (String.compare s1 s2) eqn:E12; try done.
  destruct (String.compare s2 s3) eqn:E23; try done.
  by rewrite (string_compare_lt_trans _ _ _ E12 E23).
Qed.

Lemma string_ltb_negtrans s1 s2 s3 :
  String.ltb s1 s2 = false → String.ltb s2 s3 = false → String.ltb s1 s3 = false.
Proof.
  unfold String.ltb. intros H12 H23.
  destruct (String.compare s1 s3) eqn:E13; try done.
  destruct (String.compare s1 s2) eqn:E12; try done.
  - apply String.compare_eq_iff in E12 as ->. by rewrite E13 in H23.
  - assert (String.compare s2 s1 = Lt) as E21.
    { rewrite String.compare_antisym, E12. done. }
    by rewrite (string_compare_lt_trans _ _ _ E21 E13) in H23.
Qed.

Lemma string_leb_ltb s1 s2 : String.leb s1 s2 = negb (String.ltb s2 s1).
Proof.
  unfold String.leb, String.ltb. rewrite (String.compare_antisym s1 s2).
  by destruct (String.compare s2 s1).
Qed.

(** ** [sortSpans] *)

Lemma sortSpans_exchange_sort spans sortBy sortOrder :
  sortSpans spans sortBy sortOrder = exchange_sort (sort_swap sortBy sortOrder) spans.
Proof.
  unfold sortSpans, sort_swap, sortSpansByDuration, sortSpansByName, sortSpansByTime.
  destruct (String.eqb sortBy "duration"); [done|].
  by destruct (String.eqb sortBy "name").
Qed.

Lemma sort_swap_irrefl sortBy sortOrder a : sort_swap sortBy sortOrder a a = false.
Proof.
  unfold sort_swap, Time_After, Time_Before.
  repeat match goal with |- context [if ?b then _ else _] => destruct b end;
    rewrite ?Z.gtb_ltb; auto using Z.ltb_irrefl, string_ltb_irrefl.
Qed.

Lemma sort_swap_trans sortBy sortOrder a b c :
  sort_swap sortBy sortOrder a b = true → sort_swap sortBy sortOrder b c = true →
  sort_swap sortBy sortOrder a c = true.
Proof.
  unfold sort_swap, Time_After, Time_Before.
  repeat match goal with |- context [if ?b then _ else _] => destruct b end;
    rewrite ?Z.gtb_ltb, ?Z.ltb_lt; try lia; eauto using string_ltb_trans.
Qed.

Lemma sort_swap_negtrans sortBy sortOrder a b c :
  sort_swap sortBy sortOrder a b = false → sort_swap sortBy sortOrder b c = false →
  sort_swap sortBy sortOrder a c = false.
Proof.
  unfold sort_swap, Time_After, Time_Before.
  repeat match goal with |- context [if ?b then _ else _] => destruct b end;
    rewrite ?Z.gtb_ltb, ?Z.ltb_ge; try lia; eauto using string_ltb_negtrans.
Qed.

Lemma stays_key_order sortBy sortOrder a b :
  stays (sort_swap sortBy sortOrder) a b ↔
  key_order (requested_key sortBy) (String.eqb sortOrder "asc") a b.
Proof.
  unfold stays, sort_swap, key_order, requested_key, key_le, Time_After, Time_Before.
  repeat match goal with |- context [if ?b then _ else _] => destruct b end;
    rewrite ?Z.gtb_ltb, ?Z.ltb_ge, ?string_leb_ltb, ?negb_true_iff; done.
Qed.

Lemma sortSpans_perm spans sortBy sortOrder :
  sortSpans spans sortBy sortOrder ≡ₚ spans.
Proof. rewrite sortSpans_exchange_sort. apply exchange_sort_perm. Qed.

Lemma StronglySorted_impl {A} (R1 R2 : A → A → Prop) (l : list A) :
  (∀ a b, R1 a b → R2 a b) → StronglySorted R1 l → StronglySorted R2 l.
Proof.
  intros Himp. induction 1 as [|x l _ IH Hx]; constructor; [done|].
  eapply Forall_impl; eauto.
Qed.

Lemma sortSpans_sorted spans sortBy sortOrder :
  StronglySorted (key_order (requested_key sortBy) (String.eqb sortOrder "asc"))
    (sortSpans spans sortBy sortOrder).
Proof.
  rewrite sortSpans_exchange_sort.
  eapply StronglySorted_impl; [intros a b; apply stays_key_order|].
  apply exchange_sort_sorted;
    eauto using sort_swap_irrefl, sort_swap_trans, sort_swap_negtrans.
Qed.

Lemma sortSpans_fixed spans sortBy sortOrder :
  StronglySorted (key_order (requested_key sortBy) (String.eqb sortOrder "asc")) spans →
  sortSpans spans sortBy sortOrder = spans.
Proof.
  intros Hs. rewrite sortSpans_exchange_sort. apply exchange_sort_fixed.
  eapply StronglySorted_impl; [intros a b; apply stays_key_order|done].
Qed.

(** ** Pages of a sorted list *)

Lemma paginate_segment {A : Type} (items page : list A) (pagination : PaginationParams) :
  paginate items pagination = Some page →
  ∃ n o, page = take n (drop o items).
Proof.
  unfold paginate, slice_expr. intros Hp.
  destruct (Offset pagination >=? _).
  - injection Hp as <-. by exists 0%nat, 0%nat.
  - destruct (_ && _); [|done]. injection Hp as <-. eauto.
Qed.

Lemma slice_expr_from_0 {A : Type} (items : list A) (hi : Z) :
  0 <= hi <= Z.of_nat (length items) →
  slice_expr items 0 hi = Some (take (Z.to_nat hi) items).
Proof.
  intros Hhi. unfold slice_expr.
  replace ((0 <=? 0) && (0 <=? hi) && (hi <=? Z.of_nat (length items))) with true
    by (symmetry; rewrite !andb_true_iff, !Z.leb_le; lia).
  by rewrite Z.sub_0_r, drop_0.
Qed.

Lemma slice_expr_Some {A : Type} (items page : list A) (lo hi : Z) :
  slice_expr items lo hi = Some page →
  0 <= lo <= hi ∧ hi <= Z.of_nat (length items).
Proof.
  unfold slice_expr. destruct (_ && _) eqn:Hc; [|done]. intros _.
  rewrite !andb_true_iff, !Z.leb_le in Hc. lia.
Qed.

Lemma paginate_offset_0_fixed {A : Type} (items page : list A) (lim : Z) :
  paginate items {| Offset := 0; Limit := lim |} = Some page →
  paginate page {| Offset := 0; Limit := lim |} = Some page.
Proof.
  unfold paginate; cbn [Offset Limit]. rewrite Z.add_0_l.
  destruct (Z.geb_spec 0 (Z.of_nat (length items))) as [Hempty|Hne].
  { by intros [= <-]. }
  set (hi := if wrap64 lim >? Z.of_nat (length items)
             then Z.of_nat (length items) else wrap64 lim).
  intros Hp. pose proof (slice_expr_Some _ _ _ _ Hp) as Hhi.
  rewrite slice_expr_from_0 in Hp by lia. injection Hp as <-.
  assert (Z.of_nat (length (take (Z.to_nat hi) items)) = hi) as Hlen.
  { rewrite length_take. lia. }
  rewrite Hlen.
  destruct (Z.geb_spec 0 hi) as [Hz|Hnz].
  { by replace hi with 0 by lia. }
  replace (if wrap64 lim >? hi then hi else wrap64 lim) with hi.
  - rewrite slice_expr_from_0 by lia. by rewrite take_take, Nat.min_id.
  - clear Hlen. revert Hhi Hnz. unfold hi. clear hi.
    repeat match goal with
           | |- context [?a >? ?b] => destruct (Z.gtb_spec a b)
           end; lia.
Qed.

Lemma filter_Forall {A} (f : A → bool) (l : list A) :
  Forall (fun x => f x = true) (List.filter f l).
Proof.
  induction l as [|x l IH]; cbn; [done|].
  destruct (f x) eqn:Hx; [by constructor|done].
Qed.

Lemma filter_all {A} (f : A → bool) (l : list A) :
  Forall (fun x => f x = true) l → List.filter f l = l.
Proof.
  induction 1 as [|x l Hx _ IH]; cbn; [done|]. by rewrite Hx, IH.
Qed.

Lemma StronglySorted_take_drop {A} (R : A → A → Prop) (l : list A) n o :
  StronglySorted R l → StronglySorted R (take n (drop o l)).
Proof.
  intros Hs.
  rewrite <- (take_drop o l) in Hs. apply StronglySorted_app_1_r in Hs.
  rewrite <- (take_drop n (drop o l)) in Hs. by apply StronglySorted_app_1_l in Hs.
Qed.

Lemma FilterSpans_result spans params page :
  FilterSpans spans params = Some page →
  Forall (fun span => matchesSpanFilters span params = true) page ∧
  StronglySorted
    (key_order (requested_key (tf_SortBy params))
               (String.eqb (tf_SortOrder params) "asc")) page.
Proof.
  unfold FilterSpans, paginateSpans. intros Hp.
  apply paginate_segment in Hp as (n & o & ->). split.
  - apply Forall_take, Forall_drop. rewrite sortSpans_perm. apply filter_Forall.
  - apply StronglySorted_take_drop, sortSpans_sorted.
Qed.

Lemma FilterSpans_again spans params page :
  FilterSpans spans params = Some page →
  FilterSpans page params = paginateSpans page (tf_Pagination params).
Proof.
  intros Hp. apply FilterSpans_result in Hp as [Hall Hsorted].
  unfold FilterSpans. rewrite (filter_all _ _ Hall).
  by rewrite sortSpans_fixed.
Qed.

(** C4 (amended). For every trace filter descriptor the surviving spans
    are sorted by the requested key among time, duration and name,
    ascending for the order [asc] and descending otherwise; the parser
    supplies key [time] and order [desc] for empty parameters.  The
    sort rearranges the survivors and loses none.  No tie-break by
    received-at is applied to spans equal under the key. *)
Theorem sortSpans_sorted_by_requested_key :
  (∀ parse (q : gmap string (list string)),
     (Values_Get q "sort_by" = EmptyString →
      tf_SortBy (ParseTraceFilterParams parse q) = "time"%string) ∧
     (Values_Get q "sort_order" = EmptyString →
      tf_SortOrder (ParseTraceFilterParams parse q) = "desc"%string)) ∧
  (requested_key "time" = ByTime ∧
   requested_key "duration" = ByDuration ∧
   requested_key "name" = ByName) ∧
  (∀ (spans : list SpanData) (sortBy sortOrder : string),
     sortSpans spans sortBy sortOrder ≡ₚ spans ∧
     StronglySorted
       (key_order (requested_key sortBy) (String.eqb sortOrder "asc"))
       (sortSpans spans sortBy sortOrder)) ∧
  (∀ (spans : list SpanData) (params : TraceFilterParams) (page : list SpanData),
     FilterSpans spans params = Some page →
     StronglySorted
       (key_order (requested_key (tf_SortBy params))
                  (String.eqb (tf_SortOrder params) "asc"))
       page).
Proof.
  split; [|split; [|split]].
  - intros parse q. unfold ParseTraceFilterParams; cbn [tf_SortBy tf_SortOrder].
    split; by intros ->.
  - done.
  - intros spans sortBy sortOrder. split.
    + apply sortSpans_perm.
    + apply sortSpans_sorted.
  - intros spans params page Hp. by apply FilterSpans_result in Hp as [_ ?].
Qed.

(** ** Re-applying the filter engine *)

Lemma FilterSpans_offset_0_total spans params :
  Offset (tf_Pagination params) = 0 →
  0 <= Limit (tf_Pagination params) <= max_int64 →
  ∃ page, FilterSpans spans params = Some page.
Proof.
  intros Hoff Hlim. unfold FilterSpans, paginateSpans.
  destruct (tf_Pagination params) as [off lim]; cbn in *. subst off.
  rewrite paginate_window by lia. eauto.
Qed.

(** C5 (amended). Re-applying a descriptor to its own result only
    paginates again: filtering and sorting leave the result unchanged.
    For a descriptor with pagination offset 0 (and a limit in the
    non-negative [int] range) the engine returns a page and that page is
    a fixed point. *)
Theorem FilterSpans_fixed_point_at_offset_0 :
  (∀ (spans : list SpanData) (params : TraceFilterParams) (page : list SpanData),
     FilterSpans spans params = Some page →
     FilterSpans page params = paginateSpans page (tf_Pagination params)) ∧
  (∀ (spans : list SpanData) (params : TraceFilterParams),
     Offset (tf_Pagination params) = 0 →
     0 <= Limit (tf_Pagination params) <= max_int64 →
     ∃ page, FilterSpans spans params = Some page ∧
             FilterSpans page params = Some page).
Proof.
  split.
  - apply FilterSpans_again.
  - intros spans params Hoff Hlim.
    destruct (FilterSpans_offset_0_total spans params Hoff Hlim) as [page Hp].
    exists page. split; [done|].
    rewrite (FilterSpans_again _ _ _ Hp).
    unfold FilterSpans, paginateSpans in *.
    destruct (tf_Pagination params) as [off lim]; cbn in Hoff; subst off.
    by eapply paginate_offset_0_fixed.
Qed.

(** With offset 1 the second application of [FilterSpans] skips one
    more span. *)
Lemma FilterSpans_offset_1_skips_again :
  FilterSpans [span_a; span_b; span_c] (filter_sorted "time" "desc" 1 100) =
    Some [span_b; span_a] ∧
  FilterSpans [span_b; span_a] (filter_sorted "time" "desc" 1 100) =
    Some [span_a] ∧
  FilterSpans [span_b; span_a] (filter_sorted "time" "desc" 1 100) ≠
    FilterSpans [span_a; span_b; span_c] (filter_sorted "time" "desc" 1 100).
Proof. split; [reflexivity|split; [reflexivity|discriminate]]. Qed.

(** ** Response headers of [/api/traces] *)

Lemma handleGetTraces_headers parse (s : Store) (q : gmap string (list string))
    headers body :
  handleGetTraces parse s q = Some (headers, body) →
  X_Total_Count headers = Z.of_nat (length (GetSvcSpans s)) ∧
  X_Filtered_Count headers = Z.of_nat (length body) ∧
  FilterSpans (GetSvcSpans s) (ParseTraceFilterParams parse q) = Some body.
Proof.
  unfold handleGetTraces.
  destruct (FilterSpans _ _) as [filtered|]; [|done].
  by intros [= <- <-].
Qed.

(** C1, at the failing input.  With three spans stored and the query
    [?limit=2], all three spans satisfy the (empty) filter predicates,
    [X-Total-Count] is 3, and [X-Filtered-Count] is 2: the length of the
    page, counted after pagination. *)
Theorem handleGetTraces_filtered_count_after_pagination (parse : string → option Z) :
  length (List.filter
            (fun span =>
               matchesSpanFilters span (ParseTraceFilterParams parse query_limit_2))
            (GetSvcSpans store_three_spans)) = 3%nat ∧
  ∃ headers body,
    handleGetTraces parse store_three_spans query_limit_2 = Some (headers, body) ∧
    X_Total_Count headers = 3 ∧
    X_Filtered_Count headers = 2.
Proof.
  split; [reflexivity|].
  eexists _, _. split; [reflexivity|]. split; reflexivity.
Qed.

(** ** Responses built by ranging over a map *)


Lemma map_range_singleton {V : Type} (m : gmap string V) kv kvs :
  map_to_list m = [kv] → map_range m kvs → kvs = [kv].
Proof.
  unfold map_range. intros ->. apply Permutation_singleton_r.
Qed.

Lemma map_range_keys_NoDup {V : Type} (m : gmap string V) kvs :
  map_range m kvs → NoDup (kvs.*1).
Proof.
  unfold map_range. intros ->. apply NoDup_fst_map_to_list.
Qed.

(** C2, at the failing input.  With one span of service ["unknown"] and
    one log of service ["billing"] in the store, the only response of
    [handleGetServices] is the array [["unknown"]]: the log's service
    is missing and the name containing ["unknown"] is kept.
    [getAllServices], which no handler calls, returns [["billing"]]. *)
Theorem handleGetServices_spans_only_unfiltered :
  (∀ resp, handleGetServices store_unknown_span_billing_log resp ↔
           resp = StatusOK ["unknown"%string]) ∧
  (∀ services, getAllServices store_unknown_span_billing_log services ↔
               services = ["billing"%string]).
Proof.
  split.
  - intros resp. unfold handleGetServices. split.
    + intros (kvs & Hrange & ->).
      eapply (map_range_singleton _ ("unknown"%string, true)) in Hrange;
        [by subst|by vm_compute].
    + intros ->. exists [("unknown"%string, true)]. split; [|done].
      unfold map_range. reflexivity.
  - intros services. unfold getAllServices, getServicesByMetrics, getServicesByLogs.
    split.
    + intros (fromMetrics & fromLogs & kvs & (mkvs & Hm & ->) & (lkvs & Hl & ->) & Hrange & ->).
      assert (mkvs = []) as ->.
      { unfold map_range in Hm. by apply Permutation_nil_r in Hm. }
      eapply (map_range_singleton _ ("billing"%string, true)) in Hl;
        [subst lkvs|by vm_compute].
      unfold map_range in Hrange.
      assert (map_to_list
                (serviceSet_add
                   (serviceSet_add
                      (serviceSet_add ∅
                         (span_ServiceName <$> GetSvcSpans store_unknown_span_billing_log))
                      ([] : list (string * bool)).*1)
                   [("billing"%string, true)].*1)
              ≡ₚ [("unknown"%string, true); ("billing"%string, true)]) as Hlist.
      { vm_compute. apply Permutation_swap || reflexivity. }
      rewrite Hlist in Hrange. symmetry in Hrange.
      apply Permutation_length_2_inv in Hrange as [-> | ->]; reflexivity.
    + intros ->.
      exists [], ["billing"%string], [("unknown"%string, true); ("billing"%string, true)].
      split; [exists []; split; [unfold map_range; by vm_compute|done]|]. split.
      { exists [("billing"%string, true)]. split; [|done]. unfold map_range. reflexivity. }
      split; [|reflexivity].
      unfold map_range. vm_compute. apply Permutation_swap || reflexivity.
Qed.

Lemma front_back_is_response :
  handleGetServices store_front_back (StatusOK ["front"; "back"]%string).
Proof.
  exists [("front"%string, true); ("back"%string, true)]. split; [|done].
  unfold map_range. vm_compute. apply Permutation_swap || reflexivity.
Qed.


(** ** Topology *)

(** The span-id string is empty exactly for the empty id, so the two
    conditions of the parent check agree. *)
Lemma hex_digits_length k : ∀ n acc,
  String.length (hex_digits k n acc) = (k + String.length acc)%nat.
Proof.
  induction k as [|k IH]; intros n acc; [done|].
  cbn [hex_digits]. rewrite IH. cbn. lia.
Qed.

Lemma SpanID_String_empty id :
  String.eqb (SpanID_String id) "" = SpanID_IsEmpty id.
Proof.
  unfold SpanID_String. destruct (SpanID_IsEmpty id); [done|].
  pose proof (hex_digits_length 16 id "") as Hlen.
  destruct (hex_digits 16 id ""); [done|done].
Qed.

(** The effect of one loop iteration on the edge map. *)
Lemma topology_step_edges cache nodes edges spanData :
  (topology_step cache (nodes, edges) spanData).2 =
  match witnessed_pair cache spanData with
  | None => edges
  | Some link =>
      match edges !! edge_key link with
      | Some edge =>
          <[edge_key link :=
              {| edge_Source := edge_Source edge; edge_Target := edge_Target edge;
                 edge_Count := wrap64 (edge_Count edge + 1) |}]> edges
      | None =>
          <[edge_key link :=
              {| edge_Source := link.1; edge_Target := link.2; edge_Count := 1 |}]> edges
      end
  end.
Proof.
  unfold topology_step, witnessed_pair. rewrite SpanID_String_empty.
  destruct (SpanID_IsEmpty _); cbn [negb andb]; [done|].
  destruct (GetSpanByID _ _) as [parentSpan|]; [|done].
  destruct (String.eqb _ _); cbn [negb]; [done|].
  unfold edge_key; cbn [fst snd].
  by destruct (edges !! _).
Qed.

Lemma topology_maps_snoc cache spans spanData metrics logs tc :
  topology_maps (mkStore (spans ++ [spanData]) metrics logs tc) cache =
  topology_step cache (topology_maps (mkStore spans metrics logs tc) cache) spanData.
Proof. unfold topology_maps, GetSvcSpans; cbn. by rewrite foldl_app. Qed.

Lemma edge_under_key_snoc key pairs link :
  edge_under_key key (pairs ++ [link]) =
  if String.eqb (edge_key link) key then
    match edge_under_key key pairs with
    | Some edge =>
        Some {| edge_Source := edge_Source edge; edge_Target := edge_Target edge;
                edge_Count := edge_Count edge + 1 |}
    | None => Some {| edge_Source := link.1; edge_Target := link.2; edge_Count := 1 |}
    end
  else edge_under_key key pairs.
Proof.
  unfold edge_under_key. rewrite List.filter_app. cbn [List.filter].
  destruct (String.eqb (edge_key link) key).
  - destruct (List.filter _ pairs) as [|first rest]; cbn [app]; [done|].
    rewrite length_app. cbn [length edge_Source edge_Target edge_Count].
    do 2 f_equal. lia.
  - by rewrite app_nil_r.
Qed.

Lemma edge_under_key_count key pairs edge :
  edge_under_key key pairs = Some edge →
  0 < edge_Count edge <= Z.of_nat (length pairs).
Proof.
  unfold edge_under_key.
  pose proof (List.filter_length_le (fun link => String.eqb (edge_key link) key) pairs) as Hle.
  destruct (List.filter _ pairs) as [|first rest]; [done|].
  intros [= <-]. cbn in *. lia.
Qed.

Lemma omap_length_le {A B : Type} (f : A → option B) (l : list A) :
  (length (omap f l) ≤ length l)%nat.
Proof.
  induction l as [|x l IH]; cbn; [done|].
  destruct (f x); cbn; lia.
Qed.

(** What [buildTopology] computes in general: the edge filed under a
    key collects every witnessed pair that has this key. *)
Lemma topology_edges_by_key (s : Store) (cache : TraceCache) :
  Z.of_nat (length (GetSvcSpans s)) <= max_slice_len →
  ∀ key, (topology_maps s cache).2 !! key =
         edge_under_key key (omap (witnessed_pair cache) (GetSvcSpans s)).
Proof.
  destruct s as [spans metrics logs tc]. unfold GetSvcSpans; cbn [svcspans].
  induction spans as [|spanData spans IH] using rev_ind; intros Hlen key.
  { unfold topology_maps; cbn. by rewrite lookup_empty. }
  rewrite length_app in Hlen. cbn [length] in Hlen.
  rewrite topology_maps_snoc.
  destruct (topology_maps _ cache) as [nodes edges] eqn:Hmaps. cbn [snd] in IH.
  rewrite topology_step_edges, omap_app. cbn [omap list_omap].
  destruct (witnessed_pair cache spanData) as [link|]; cbn [app];
    [|rewrite app_nil_r; apply IH; lia].
  rewrite edge_under_key_snoc.
  pose proof (IH ltac:(lia) (edge_key link)) as Hlink.
  destruct (String.eqb_spec (edge_key link) key) as [<-|Hne].
  - rewrite Hlink.
    destruct (edge_under_key (edge_key link) _) as [edge|] eqn:Hedge.
    + rewrite lookup_insert_eq. do 2 f_equal.
      apply edge_under_key_count in Hedge.
      pose proof (omap_length_le (witnessed_pair cache) spans) as Hle.
      apply wrap64_id. unfold min_int64, max_int64, max_slice_len in *. lia.
    + by rewrite lookup_insert_eq.
  - destruct (edges !! edge_key link);
      rewrite lookup_insert_ne by done; apply IH; lia.
Qed.


Lemma topology_step_nodes cache nodes edges spanData :
  (topology_step cache (nodes, edges) spanData).1 =
  match witnessed_pair cache spanData with
  | None => add_node (span_ServiceName spanData) nodes
  | Some link => add_node link.1 (add_node (span_ServiceName spanData) nodes)
  end.
Proof.
  unfold topology_step, witnessed_pair, add_node. rewrite SpanID_String_empty.
  destruct (SpanID_IsEmpty _); cbn [negb andb]; [done|].
  destruct (GetSpanByID _ _) as [parentSpan|]; [|done].
  by destruct (String.eqb _ _).
Qed.

Lemma add_node_lookup service nodes key :
  (∀ k node, nodes !! k = Some node → node = {| node_Service := k; node_Depth := 0 |}) →
  add_node service nodes !! key =
  if decide (key = service)
  then Some {| node_Service := key; node_Depth := 0 |}
  else nodes !! key.
Proof.
  intros Hnodes. unfold add_node.
  destruct (nodes !! service) as [node|] eqn:Hs.
  - case_decide as Hk; [|done]. subst key. rewrite Hs. f_equal. eauto.
  - case_decide as Hk.
    + subst key. by rewrite lookup_insert_eq.
    + by rewrite lookup_insert_ne.
Qed.

(** The node map: one node of depth 0 per service in
    [node_services]. *)
Lemma topology_nodes_by_service (s : Store) (cache : TraceCache) :
  ∀ key, (topology_maps s cache).1 !! key =
         if decide (key ∈ node_services cache (GetSvcSpans s))
         then Some {| node_Service := key; node_Depth := 0 |}
         else None.
Proof.
  destruct s as [spans metrics logs tc]. unfold GetSvcSpans; cbn [svcspans].
  induction spans as [|spanData spans IH] using rev_ind; intros key.
  { unfold topology_maps; cbn. rewrite lookup_empty.
    case_decide as Hin; [|done]. by apply elem_of_nil in Hin. }
  rewrite topology_maps_snoc.
  destruct (topology_maps _ cache) as [nodes edges] eqn:Hmaps. cbn [fst] in IH.
  assert (∀ k node, nodes !! k = Some node →
                    node = {| node_Service := k; node_Depth := 0 |}) as Hnodes.
  { intros k node Hk. rewrite IH in Hk. by case_decide; simplify_eq. }
  assert (∀ service k node, add_node service nodes !! k = Some node →
                    node = {| node_Service := k; node_Depth := 0 |}) as Hnodes'.
  { intros service k node. rewrite add_node_lookup by done.
    case_decide; [by intros [= <-]|eauto]. }
  rewrite topology_step_nodes. unfold node_services.
  rewrite bind_app. cbn [mbind list_bind]. rewrite app_nil_r.
  fold (node_services cache spans).
  destruct (witnessed_pair cache spanData) as [link|].
  - rewrite add_node_lookup by eauto. rewrite add_node_lookup by done. rewrite IH.
    repeat match goal with
           | |- context [decide ?P] => destruct (decide P)
           end; try done; exfalso;
      repeat match goal with
             | H : context [_ ∈ _ ++ _] |- _ => rewrite elem_of_app in H
             | H : context [_ ∈ _ :: _] |- _ => rewrite elem_of_cons in H
             | H : context [_ ∈ []] |- _ => rewrite elem_of_nil in H
             end; intuition congruence.
  - rewrite add_node_lookup by done. rewrite IH.
    repeat match goal with
           | |- context [decide ?P] => destruct (decide P)
           end; try done; exfalso;
      repeat match goal with
             | H : context [_ ∈ _ ++ _] |- _ => rewrite elem_of_app in H
             | H : context [_ ∈ _ :: _] |- _ => rewrite elem_of_cons in H
             | H : context [_ ∈ []] |- _ => rewrite elem_of_nil in H
             end; intuition congruence.
Qed.

(** When distinct witnessed pairs have distinct keys, the edge filed
    under the key of a pair is that pair, counted once per witness. *)
Lemma topology_edges_when_keys_distinct (s : Store) (cache : TraceCache) :
  Z.of_nat (length (GetSvcSpans s)) <= max_slice_len →
  (∀ link1 link2,
     link1 ∈ omap (witnessed_pair cache) (GetSvcSpans s) →
     link2 ∈ omap (witnessed_pair cache) (GetSvcSpans s) →
     edge_key link1 = edge_key link2 → link1 = link2) →
  (∀ link,
     link ∈ omap (witnessed_pair cache) (GetSvcSpans s) →
     (topology_maps s cache).2 !! edge_key link =
     Some {| edge_Source := link.1; edge_Target := link.2;
             edge_Count :=
               Z.of_nat (length (List.filter (fun l => bool_decide (l = link))
                                   (omap (witnessed_pair cache) (GetSvcSpans s)))) |}) ∧
  (∀ key edge,
     (topology_maps s cache).2 !! key = Some edge →
     (edge_Source edge, edge_Target edge) ∈ omap (witnessed_pair cache) (GetSvcSpans s) ∧
     key = edge_key (edge_Source edge, edge_Target edge)).
Proof.
  intros Hlen Hinj. set (links := omap (witnessed_pair cache) (GetSvcSpans s)) in *.
  assert (∀ key first rest,
            List.filter (fun l => String.eqb (edge_key l) key) links = first :: rest →
            first ∈ links ∧ edge_key first = key) as Hfirst.
  { intros key first rest Hf.
    assert (In first (List.filter (fun l => String.eqb (edge_key l) key) links)) as Hin
      by (rewrite Hf; by left).
    apply List.filter_In in Hin as [Hin Hkey].
    split; [by apply list_elem_of_In|by apply String.eqb_eq]. }
  split.
  - intros link Hlink. rewrite topology_edges_by_key by done. fold links.
    unfold edge_under_key.
    assert (List.filter (fun l => String.eqb (edge_key l) (edge_key link)) links =
            List.filter (fun l => bool_decide (l = link)) links) as Hsame.
    { apply List.filter_ext_in. intros l Hl%list_elem_of_In.
      destruct (String.eqb_spec (edge_key l) (edge_key link)) as [Hk|Hk].
      - by rewrite (Hinj _ _ Hl Hlink Hk), bool_decide_true.
      - rewrite bool_decide_false; [done|]. by intros ->. }
    rewrite Hsame. clear Hsame.
    destruct (List.filter (fun l => bool_decide (l = link)) links)
      as [|first rest] eqn:Hf.
    + exfalso. apply list_elem_of_In in Hlink.
      assert (In link (List.filter (fun l => bool_decide (l = link)) links)) as Hin.
      { apply List.filter_In. split; [done|]. by rewrite bool_decide_true. }
      by rewrite Hf in Hin.
    + assert (In first (List.filter (fun l => bool_decide (l = link)) links)) as Hin
        by (rewrite Hf; by left).
      apply List.filter_In in Hin as [_ Heq%bool_decide_eq_true]. by subst first.
  - intros key edge. rewrite topology_edges_by_key by done. fold links.
    unfold edge_under_key.
    destruct (List.filter _ links) as [|first rest] eqn:Hf; [done|].
    intros [= <-]. cbn [edge_Source edge_Target].
    destruct (Hfirst _ _ _ Hf) as [Hin Hkey].
    by destruct first.
Qed.

(** C7, at the failing input.  The spans witness two distinct pairs,
    [("a->b", "c")] and [("a", "b->c")], once each.  Both pairs get the
    edge key ["a->b->c"], so every result of [buildTopology] has the
    single edge [a->b → c] with count 2. *)
Theorem buildTopology_edge_key_collision :
  omap (witnessed_pair (GetTraceCache store_arrow_services))
       (GetSvcSpans store_arrow_services) =
    [ ("a->b", "c"); ("a", "b->c") ]%string ∧
  (∃ topology,
     buildTopology store_arrow_services (GetTraceCache store_arrow_services) topology) ∧
  (∀ topology,
     buildTopology store_arrow_services (GetTraceCache store_arrow_services) topology →
     Edges topology =
       [ {| edge_Source := "a->b"; edge_Target := "c"; edge_Count := 2 |} ]).
Proof.
  split; [by vm_compute|]. split.
  - eexists. exists (map_to_list (topology_maps store_arrow_services
                                   (GetTraceCache store_arrow_services)).1),
                    (map_to_list (topology_maps store_arrow_services
                                   (GetTraceCache store_arrow_services)).2).
    split; [by unfold map_range|]. split; [by unfold map_range|]. reflexivity.
  - intros topology (nodeKVs & edgeKVs & _ & Hedges & ->). cbn [Edges].
    eapply (map_range_singleton _
              ("a->b->c"%string,
               {| edge_Source := "a->b"; edge_Target := "c"; edge_Count := 2 |}))
      in Hedges; [by subst|by vm_compute].
Qed.

(** ** The list handlers do not panic *)

Lemma ParseInt_range s val :
  strconv.ParseInt s = Some val → min_int64 <= val <= max_int64.
Proof.
  unfold strconv.ParseInt. destruct s as [|c rest]; [done|]. cbv zeta.
  match goal with
  | |- context [if ?b then rest else String c rest] =>
      generalize (if b then rest else String c rest)
  end.
  intros [|d digits]; [done|].
  destruct (strconv.parse_digits _ 0) as [n|]; [|done].
  destruct (in_int64 _) eqn:Hin; [|done]. intros [= <-].
  unfold in_int64 in Hin. apply andb_true_iff in Hin as [Hlo Hhi].
  apply Z.leb_le in Hlo, Hhi. done.
Qed.

Lemma ParsePaginationParams_range (q : gmap string (list string)) :
  0 <= Offset (ParsePaginationParams q) <= max_int64 ∧
  1 <= Limit (ParsePaginationParams q) <= 1000.
Proof.
  unfold ParsePaginationParams, strconv.Atoi; cbn [Offset Limit]. split.
  - destruct (negb _); [|unfold max_int64; lia].
    destruct (strconv.ParseInt _) as [val|] eqn:Hval; [|unfold max_int64; lia].
    apply ParseInt_range in Hval.
    destruct (Z.geb_spec val 0); unfold max_int64 in *; lia.
  - destruct (negb _); [|lia].
    destruct (strconv.ParseInt _) as [val|]; [|lia].
    destruct (Z.gtb_spec val 0); [|lia].
    destruct (Z.gtb_spec val 1000); lia.
Qed.

Lemma paginate_parsed_returns {A : Type} (items : list A) (q : gmap string (list string)) :
  Z.of_nat (length items) <= max_slice_len →
  ∃ page, paginate items (ParsePaginationParams q) = Some page.
Proof.
  intros Hlen. destruct (ParsePaginationParams_range q) as [Hoff Hlim].
  destruct (ParsePaginationParams q) as [off lim]; cbn [Offset Limit] in *.
  destruct (Z_le_gt_dec (Z.of_nat (length items)) off).
  - rewrite paginate_beyond by done. eauto.
  - rewrite paginate_window; [eauto|lia|lia|].
    unfold max_slice_len, max_int64 in *. lia.
Qed.

Lemma handleGetTraces_returns parse (s : Store) (q : gmap string (list string)) :
  Z.of_nat (length (GetSvcSpans s)) <= max_slice_len →
  ∃ headers body, handleGetTraces parse s q = Some (headers, body).
Proof.
  intros Hlen. unfold handleGetTraces, FilterSpans, paginateSpans.
  cbn [tf_Pagination ParseTraceFilterParams].
  edestruct (paginate_parsed_returns (A:=SpanData)) as [page ->]; [|eauto].
  rewrite sortSpans_perm.
  etrans; [|exact Hlen]. apply Nat2Z.inj_le, List.filter_length_le.
Qed.

(** * Further properties of the code *)

(** ** [strconv.Itoa] and [strconv.Atoi] *)

Lemma digit_val_digit_char d : 0 <= d <= 9 → strconv.digit_val (strconv.digit_char d) = Some d.
Proof.
  intros Hd. unfold strconv.digit_val, strconv.digit_char.
  rewrite N_ascii_embedding by lia.
  rewrite Z2N.id by lia.
  destruct (Z.leb_spec 48 (48 + d)), (Z.leb_spec (48 + d) 57); cbn; try lia.
  f_equal. lia.
Qed.

Lemma digit_char_not_sign d :
  0 <= d <= 9 →
  Ascii.eqb (strconv.digit_char d) "-" = false ∧ Ascii.eqb (strconv.digit_char d) "+" = false.
Proof.
  intros Hd.
  assert (d = 0 ∨ d = 1 ∨ d = 2 ∨ d = 3 ∨ d = 4 ∨ d = 5 ∨ d = 6 ∨ d = 7 ∨ d = 8 ∨ d = 9)
    as Hcases by lia.
  repeat (destruct Hcases as [->|Hcases]; [by vm_compute|]).
  subst d. by vm_compute.
Qed.

Lemma parse_format_digits fuel : ∀ n acc a,
  0 <= n → (Z.to_nat (Z.log2 n) < fuel)%nat →
  ∃ k, 0 <= k ∧
       strconv.parse_digits (strconv.format_digits fuel n acc) a =
       strconv.parse_digits acc (a * 10 ^ k + n).
Proof.
  induction fuel as [|fuel IH]; intros n acc a Hn Hfuel; [lia|].
  cbn [strconv.format_digits].
  assert (0 <= n mod 10 < 10) as Hmod by (apply Z.mod_pos_bound; lia).
  destruct (Z.eqb_spec (n / 10) 0) as [Hsmall|Hbig].
  - exists 1. split; [lia|]. cbn [strconv.parse_digits].
    rewrite digit_val_digit_char by lia. f_equal.
    rewrite Z.pow_1_r, Z.mod_eq, Hsmall by lia. ring.
  - assert (10 <= n) as Hge.
    { destruct (Z_lt_le_dec n 10); [|done]. rewrite Z.div_small in Hbig; lia. }
    assert (0 < n / 10) as Hq by (apply Z.div_str_pos; lia).
    destruct (IH (n / 10) (String (strconv.digit_char (n mod 10)) acc) a) as (k & Hk & Heq).
    + lia.
    + pose proof (Z.log2_nonneg (n / 10)). pose proof (Z.log2_nonneg n).
      assert (Z.log2 (n / 10) < Z.log2 n); [|lia].
      apply Z.log2_lt_pow2; [lia|].
      destruct (Z.log2_spec n ltac:(lia)) as [_ Hup].
      rewrite Z.pow_succ_r in Hup by done.
      pose proof (Z.mul_div_le n 10 ltac:(lia)). lia.
    + exists (k + 1). split; [lia|]. rewrite Heq. cbn [strconv.parse_digits].
      rewrite digit_val_digit_char by lia. f_equal.
      rewrite Z.pow_add_r, Z.pow_1_r, Z.mod_eq by lia. ring.
Qed.

Lemma format_digits_head fuel n acc :
  0 <= n → (0 < fuel)%nat →
  ∃ d rest, 0 <= d <= 9 ∧ strconv.format_digits fuel n acc = String (strconv.digit_char d) rest.
Proof.
  revert n acc. induction fuel as [|fuel IH]; intros n acc Hn Hfuel; [lia|].
  cbn [strconv.format_digits].
  assert (0 <= n mod 10 < 10) as Hmod by (apply Z.mod_pos_bound; lia).
  destruct (n / 10 =? 0) eqn:Hq.
  - exists (n mod 10), acc. split; [lia|done].
  - destruct fuel as [|fuel'].
    + exists (n mod 10), acc. split; [lia|done].
    + apply IH; [|lia]. apply Z.div_pos; lia.
Qed.

Lemma ParseInt_format_uint n :
  0 <= n <= max_int64 → strconv.ParseInt (strconv.format_uint n) = Some n.
Proof.
  intros Hn. unfold strconv.format_uint.
  destruct (format_digits_head (S (Z.to_nat (Z.log2 n))) n EmptyString) as (d & rest & Hd & Hs);
    [lia|lia|].
  destruct (parse_format_digits (S (Z.to_nat (Z.log2 n))) n EmptyString 0) as (k & _ & Hp);
    [lia|lia|].
  unfold strconv.ParseInt. rewrite Hs in *.
  destruct (digit_char_not_sign d Hd) as [-> ->]. cbn [orb].
  rewrite Hp. cbn [strconv.parse_digits]. rewrite Z.mul_0_l, Z.add_0_l.
  unfold in_int64.
  destruct (Z.leb_spec min_int64 n), (Z.leb_spec n max_int64);
    unfold min_int64, max_int64 in *; cbn; try lia. done.
Qed.

Lemma Atoi_Itoa i : min_int64 <= i <= max_int64 → strconv.Atoi (strconv.Itoa i) = Some i.
Proof.
  intros Hi. unfold strconv.Atoi, strconv.Itoa.
  destruct (Z.ltb_spec i 0) as [Hneg|Hpos].
  - unfold strconv.ParseInt. change (Ascii.eqb "-" "-") with true. cbn [orb].
    unfold strconv.format_uint.
    destruct (format_digits_head (S (Z.to_nat (Z.log2 (- i)))) (- i) EmptyString)
      as (d & rest & Hd & Hs); [lia|lia|].
    destruct (parse_format_digits (S (Z.to_nat (Z.log2 (- i)))) (- i) EmptyString 0)
      as (k & _ & Hp); [lia|lia|].
    rewrite Hs in *. rewrite Hp. cbn [strconv.parse_digits].
    rewrite Z.mul_0_l, Z.add_0_l, Z.opp_involutive.
    unfold in_int64.
    destruct (Z.leb_spec min_int64 i), (Z.leb_spec i max_int64); cbn; try lia. done.
  - apply ParseInt_format_uint. lia.
Qed.

(** ** The filter engine on logs and metrics *)

Lemma filter_sublist {A} (f : A → bool) (l : list A) : List.filter f l `sublist_of` l.
Proof.
  induction l as [|x l IH]; cbn; [done|].
  destruct (f x); by constructor.
Qed.

Lemma take_drop_sublist {A} (l : list A) n o : take n (drop o l) `sublist_of` l.
Proof.
  etrans; [apply sublist_take|]. apply sublist_drop.
Qed.

Lemma paginate_in_range {A : Type} (items : list A) (pg : PaginationParams) :
  pagination_in_range pg →
  paginate items pg = Some (take (Z.to_nat (Limit pg)) (drop (Z.to_nat (Offset pg)) items)).
Proof.
  intros (Hoff & Hlim & Hsum). destruct pg as [off lim]; cbn [Offset Limit] in *.
  by apply paginate_window.
Qed.

Lemma paginate_length {A : Type} (items page : list A) (pg : PaginationParams) :
  pagination_in_range pg →
  paginate items pg = Some page →
  Z.of_nat (length page) =
  Z.min (Limit pg) (Z.max 0 (Z.of_nat (length items) - Offset pg)).
Proof.
  intros Hpg. pose proof Hpg as (Hoff & Hlim & Hsum).
  rewrite paginate_in_range by done. intros [= <-].
  rewrite length_take, length_drop. lia.
Qed.

(** The engine for logs and metrics: with [matches] the predicate. *)
Lemma filter_paginate_spec {A : Type} (matches : A → bool) (items : list A)
    (pg : PaginationParams) :
  pagination_in_range pg →
  ∃ page,
    paginate (List.filter matches items) pg = Some page ∧
    page `sublist_of` items ∧
    Forall (fun x => matches x = true) page ∧
    Z.of_nat (length page) <= Limit pg ∧
    (Offset pg = 0 →
     Z.of_nat (length (List.filter matches items)) <= Limit pg →
     page = List.filter matches items).
Proof.
  intros Hpg. pose proof Hpg as (Hoff & Hlim & Hsum).
  eexists. split; [by apply paginate_in_range|]. split; [|split; [|split]].
  - etrans; [apply take_drop_sublist|apply filter_sublist].
  - apply Forall_take, Forall_drop, filter_Forall.
  - rewrite length_take. lia.
  - intros -> Hall. cbn. rewrite drop_0. apply take_ge. lia.
Qed.

(** X1. For an offset and a limit that are not negative and whose sum
    fits [int], [paginateSpans], [paginateLogs] and [paginateMetrics]
    return the window of at most [Limit] records that starts at
    [Offset], and the page has [min(Limit, max(0, len - Offset))]
    records. *)
Theorem paginate_window_and_length :
  (∀ (spans : list SpanData) pg, pagination_in_range pg →
     ∃ page, paginateSpans spans pg = Some page ∧
       page = take (Z.to_nat (Limit pg)) (drop (Z.to_nat (Offset pg)) spans) ∧
       Z.of_nat (length page) =
         Z.min (Limit pg) (Z.max 0 (Z.of_nat (length spans) - Offset pg))) ∧
  (∀ (logs : list LogData) pg, pagination_in_range pg →
     ∃ page, paginateLogs logs pg = Some page ∧
       page = take (Z.to_nat (Limit pg)) (drop (Z.to_nat (Offset pg)) logs) ∧
       Z.of_nat (length page) =
         Z.min (Limit pg) (Z.max 0 (Z.of_nat (length logs) - Offset pg))) ∧
  (∀ (metrics : list MetricData) pg, pagination_in_range pg →
     ∃ page, paginateMetrics metrics pg = Some page ∧
       page = take (Z.to_nat (Limit pg)) (drop (Z.to_nat (Offset pg)) metrics) ∧
       Z.of_nat (length page) =
         Z.min (Limit pg) (Z.max 0 (Z.of_nat (length metrics) - Offset pg))).
Proof.
  assert (∀ A (items : list A) pg, pagination_in_range pg →
     ∃ page, paginate items pg = Some page ∧
       page = take (Z.to_nat (Limit pg)) (drop (Z.to_nat (Offset pg)) items) ∧
       Z.of_nat (length page) =
         Z.min (Limit pg) (Z.max 0 (Z.of_nat (length items) - Offset pg))) as Hgen.
  { intros A items pg Hpg. eexists. split; [by apply paginate_in_range|].
    split; [done|]. eapply paginate_length; [done|by apply paginate_in_range]. }
  repeat split; intros; apply Hgen; done.
Qed.

(** X2. [FilterLogs] and [FilterMetrics] return, for a pagination in
    range, a page that is a subsequence of the input in the input's
    order, all of whose records match the descriptor, of at most
    [Limit] records; at offset 0 with a limit that covers the matches
    the page is exactly the matching records. *)
Theorem FilterLogs_FilterMetrics_sound_ordered_complete :
  (∀ (logs : list LogData) (params : LogFilterParams),
     pagination_in_range (lf_Pagination params) →
     ∃ page,
       FilterLogs logs params = Some page ∧
       page `sublist_of` logs ∧
       Forall (fun log => matchesLogFilters log params = true) page ∧
       Z.of_nat (length page) <= Limit (lf_Pagination params) ∧
       (Offset (lf_Pagination params) = 0 →
        Z.of_nat (length (List.filter (fun log => matchesLogFilters log params) logs))
          <= Limit (lf_Pagination params) →
        page = List.filter (fun log => matchesLogFilters log params) logs)) ∧
  (∀ (metrics : list MetricData) (params : MetricFilterParams),
     pagination_in_range (mf_Pagination params) →
     ∃ page,
       FilterMetrics metrics params = Some page ∧
       page `sublist_of` metrics ∧
       Forall (fun metric => matchesMetricFilters metric params = true) page ∧
       Z.of_nat (length page) <= Limit (mf_Pagination params) ∧
       (Offset (mf_Pagination params) = 0 →
        Z.of_nat (length (List.filter
                            (fun metric => matchesMetricFilters metric params) metrics))
          <= Limit (mf_Pagination params) →
        page = List.filter (fun metric => matchesMetricFilters metric params) metrics)).
Proof.
  split.
  - intros logs params Hpg. unfold FilterLogs, paginateLogs.
    exact (filter_paginate_spec _ logs _ Hpg).
  - intros metrics params Hpg. unfold FilterMetrics, paginateMetrics.
    exact (filter_paginate_spec _ metrics _ Hpg).
Qed.

Lemma filter_length_le_Z {A} (f : A → bool) (l : list A) :
  Z.of_nat (length (List.filter f l)) <= Z.of_nat (length l).
Proof. apply Nat2Z.inj_le, List.filter_length_le. Qed.

(** X3. Paging through the filter engine with a positive limit [L], at
    the offsets [0, L, ..., (K-1)L] with [K * L] at least the number of
    records: every call returns, and the pages concatenate to the
    matching logs, the matching metrics, and the matching spans in
    sorted order. No match is lost or repeated. *)
Theorem paging_through_engine_covers_matches (L : Z) (K : nat) :
  0 < L → L <= max_int64 →
  (∀ (logs : list LogData) (params : LogFilterParams),
     Z.of_nat (length logs) <= max_slice_len →
     Z.of_nat (length logs) <= Z.of_nat K * L →
     ∃ pages,
       (fun k : nat =>
          FilterLogs logs
            (LogFilter_with_Pagination params
               {| Offset := Z.of_nat k * L; Limit := L |})) <$> seq 0 K =
       Some <$> pages ∧
       concat pages = List.filter (fun log => matchesLogFilters log params) logs) ∧
  (∀ (metrics : list MetricData) (params : MetricFilterParams),
     Z.of_nat (length metrics) <= max_slice_len →
     Z.of_nat (length metrics) <= Z.of_nat K * L →
     ∃ pages,
       (fun k : nat =>
          FilterMetrics metrics
            (MetricFilter_with_Pagination params
               {| Offset := Z.of_nat k * L; Limit := L |})) <$> seq 0 K =
       Some <$> pages ∧
       concat pages =
         List.filter (fun metric => matchesMetricFilters metric params) metrics) ∧
  (∀ (spans : list SpanData) (params : TraceFilterParams),
     Z.of_nat (length spans) <= max_slice_len →
     Z.of_nat (length spans) <= Z.of_nat K * L →
     ∃ pages,
       (fun k : nat =>
          FilterSpans spans
            (TraceFilter_with_Pagination params
               {| Offset := Z.of_nat k * L; Limit := L |})) <$> seq 0 K =
       Some <$> pages ∧
       concat pages =
         sortSpans (List.filter (fun span => matchesSpanFilters span params) spans)
           (tf_SortBy params) (tf_SortOrder params)).
Proof.
  intros HL HLmax. split; [|split].
  - intros logs params Hlen HK.
    pose proof (filter_length_le_Z (fun log => matchesLogFilters log params) logs).
    destruct (paginate_pages
                (List.filter (fun log => matchesLogFilters log params) logs) L K)
      as (pages & Hpages & Hconcat); [done|done|lia|lia|].
    exists pages. split; [|done]. exact Hpages.
  - intros metrics params Hlen HK.
    pose proof (filter_length_le_Z
                  (fun metric => matchesMetricFilters metric params) metrics).
    destruct (paginate_pages
                (List.filter (fun metric => matchesMetricFilters metric params) metrics)
                L K)
      as (pages & Hpages & Hconcat); [done|done|lia|lia|].
    exists pages. split; [|done]. exact Hpages.
  - intros spans params Hlen HK.
    pose proof (filter_length_le_Z (fun span => matchesSpanFilters span params) spans).
    destruct (paginate_pages
                (sortSpans
                   (List.filter (fun span => matchesSpanFilters span params) spans)
                   (tf_SortBy params) (tf_SortOrder params)) L K)
      as (pages & Hpages & Hconcat); [done|done| | |].
    + rewrite sortSpans_perm. lia.
    + rewrite sortSpans_perm. lia.
    + exists pages. split; [|done]. exact Hpages.
Qed.

(** X4. Filtering a page that [FilterLogs] or [FilterMetrics] returned
    with the same descriptor drops no record: it only paginates again,
    and at offset 0 it returns the page unchanged. *)
Theorem FilterLogs_FilterMetrics_fixed_point_at_offset_0 :
  (∀ (logs page : list LogData) (params : LogFilterParams),
     FilterLogs logs params = Some page →
     FilterLogs page params = paginateLogs page (lf_Pagination params) ∧
     (Offset (lf_Pagination params) = 0 → FilterLogs page params = Some page)) ∧
  (∀ (metrics page : list MetricData) (params : MetricFilterParams),
     FilterMetrics metrics params = Some page →
     FilterMetrics page params = paginateMetrics page (mf_Pagination params) ∧
     (Offset (mf_Pagination params) = 0 → FilterMetrics page params = Some page)).
Proof.
  assert (∀ A (matches : A → bool) (items page : list A) pg,
            paginate (List.filter matches items) pg = Some page →
            paginate (List.filter matches page) pg = paginate page pg ∧
            (Offset pg = 0 → paginate (List.filter matches page) pg = Some page)) as Hgen.
  { intros A matches items page pg Hp.
    assert (List.filter matches page = page) as ->.
    { apply filter_all. apply paginate_segment in Hp as (n & o & ->).
      apply Forall_take, Forall_drop, filter_Forall. }
    split; [done|]. destruct pg as [off lim]; cbn. intros ->.
    by eapply paginate_offset_0_fixed. }
  split.
  - intros logs page params Hp. exact (Hgen _ _ _ _ _ Hp).
  - intros metrics page params Hp. exact (Hgen _ _ _ _ _ Hp).
Qed.

(** ** The list handlers *)

Lemma paginate_parsed_window {A : Type} (items : list A) (q : gmap string (list string)) :
  Z.of_nat (length items) <= max_slice_len →
  paginate items (ParsePaginationParams q) =
  Some (take (Z.to_nat (Limit (ParsePaginationParams q)))
          (drop (Z.to_nat (Offset (ParsePaginationParams q))) items)).
Proof.
  intros Hlen. destruct (ParsePaginationParams_range q) as [Hoff Hlim].
  destruct (ParsePaginationParams q) as [off lim]; cbn [Offset Limit] in *.
  destruct (Z_le_gt_dec (Z.of_nat (length items)) off).
  - rewrite paginate_beyond by done. rewrite drop_ge by lia. by rewrite take_nil.
  - rewrite paginate_window; [done|lia|lia|].
    unfold max_slice_len, max_int64 in *. lia.
Qed.

(** X5. On a store of at most [max_slice_len] records the three list
    handlers return for every query. [X-Total-Count] is the size of
    the store's array, [X-Filtered-Count] the size of the body,
    [X-Offset] is not negative, [X-Limit] is between 1 and 1000, the
    body has at most [X-Limit] and at most [X-Total-Count] records, and
    each of them is a record of the store that matches the parsed
    descriptor. *)
Theorem list_handlers_return_bounded_pages parse (s : Store) (q : gmap string (list string)) :
  (Z.of_nat (length (GetSvcSpans s)) <= max_slice_len →
   ∃ headers body,
     handleGetTraces parse s q = Some (headers, body) ∧
     X_Total_Count headers = Z.of_nat (length (GetSvcSpans s)) ∧
     X_Filtered_Count headers = Z.of_nat (length body) ∧
     0 <= X_Offset headers ∧ 1 <= X_Limit headers <= 1000 ∧
     Z.of_nat (length body) <= X_Limit headers ∧
     Z.of_nat (length body) <= X_Total_Count headers ∧
     Forall (fun span =>
               span ∈ GetSvcSpans s ∧
               matchesSpanFilters span (ParseTraceFilterParams parse q) = true) body) ∧
  (Z.of_nat (length (GetFilteredLogs_all s)) <= max_slice_len →
   ∃ headers body,
     handleGetLogs parse s q = Some (headers, body) ∧
     X_Total_Count headers = Z.of_nat (length (GetFilteredLogs_all s)) ∧
     X_Filtered_Count headers = Z.of_nat (length body) ∧
     0 <= X_Offset headers ∧ 1 <= X_Limit headers <= 1000 ∧
     Z.of_nat (length body) <= X_Limit headers ∧
     Z.of_nat (length body) <= X_Total_Count headers ∧
     Forall (fun log =>
               log ∈ GetFilteredLogs_all s ∧
               matchesLogFilters log (ParseLogFilterParams parse q) = true) body) ∧
  (Z.of_nat (length (GetFilteredMetrics_all s)) <= max_slice_len →
   ∃ headers body,
     handleGetMetrics parse s q = Some (headers, body) ∧
     X_Total_Count headers = Z.of_nat (length (GetFilteredMetrics_all s)) ∧
     X_Filtered_Count headers = Z.of_nat (length body) ∧
     0 <= X_Offset headers ∧ 1 <= X_Limit headers <= 1000 ∧
     Z.of_nat (length body) <= X_Limit headers ∧
     Z.of_nat (length body) <= X_Total_Count headers ∧
     Forall (fun metric =>
               metric ∈ GetFilteredMetrics_all s ∧
               matchesMetricFilters metric (ParseMetricFilterParams parse q) = true)
            body).
Proof.
  destruct (ParsePaginationParams_range q) as [Hoff Hlim].
  split; [|split].
  - intros Hlen. unfold handleGetTraces, FilterSpans, paginateSpans.
    set (params := ParseTraceFilterParams parse q).
    set (sorted := sortSpans (List.filter (λ span, matchesSpanFilters span params)
                                (GetSvcSpans s)) (tf_SortBy params) (tf_SortOrder params)).
    assert (Z.of_nat (length sorted) <= Z.of_nat (length (GetSvcSpans s))) as Hsorted.
    { unfold sorted. rewrite sortSpans_perm. apply filter_length_le_Z. }
    change (tf_Pagination params) with (ParsePaginationParams q).
    rewrite paginate_parsed_window by lia.
    eexists _, _. split; [done|]. cbn [X_Total_Count X_Filtered_Count X_Offset X_Limit].
    repeat split; try lia.
    + rewrite length_take. lia.
    + rewrite length_take, length_drop. lia.
    + apply Forall_take, Forall_drop. unfold sorted. rewrite sortSpans_perm.
      apply Forall_forall. intros span Hin%list_elem_of_In%List.filter_In.
      destruct Hin as [Hin Hm]. by apply list_elem_of_In in Hin.
  - intros Hlen. unfold handleGetLogs, FilterLogs, paginateLogs.
    set (params := ParseLogFilterParams parse q).
    pose proof (filter_length_le_Z (λ log, matchesLogFilters log params)
                  (GetFilteredLogs_all s)) as Hfl.
    change (lf_Pagination params) with (ParsePaginationParams q).
    rewrite paginate_parsed_window by lia.
    eexists _, _. split; [done|]. cbn [X_Total_Count X_Filtered_Count X_Offset X_Limit].
    repeat split; try lia.
    + rewrite length_take. lia.
    + rewrite length_take, length_drop. lia.
    + apply Forall_take, Forall_drop.
      apply Forall_forall. intros log Hin%list_elem_of_In%List.filter_In.
      destruct Hin as [Hin Hm]. by apply list_elem_of_In in Hin.
  - intros Hlen. unfold handleGetMetrics, FilterMetrics, paginateMetrics.
    set (params := ParseMetricFilterParams parse q).
    pose proof (filter_length_le_Z (λ metric, matchesMetricFilters metric params)
                  (GetFilteredMetrics_all s)) as Hfl.
    change (mf_Pagination params) with (ParsePaginationParams q).
    rewrite paginate_parsed_window by lia.
    eexists _, _. split; [done|]. cbn [X_Total_Count X_Filtered_Count X_Offset X_Limit].
    repeat split; try lia.
    + rewrite length_take. lia.
    + rewrite length_take, length_drop. lia.
    + apply Forall_take, Forall_drop.
      apply Forall_forall. intros metric Hin%list_elem_of_In%List.filter_In.
      destruct Hin as [Hin Hm]. by apply list_elem_of_In in Hin.
Qed.

(** ** Sorting by time and the insertion order *)

(** X7. [sortSpans] is idempotent and keeps the number of spans. *)
Theorem sortSpans_idempotent (spans : list SpanData) (sortBy sortOrder : string) :
  sortSpans (sortSpans spans sortBy sortOrder) sortBy sortOrder =
  sortSpans spans sortBy sortOrder ∧
  length (sortSpans spans sortBy sortOrder) = length spans.
Proof.
  split.
  - apply sortSpans_fixed, sortSpans_sorted.
  - by rewrite sortSpans_perm.
Qed.

Lemma StronglySorted_reverse {A} (R : A → A → Prop) (l : list A) :
  StronglySorted R l → StronglySorted (flip R) (reverse l).
Proof.
  induction 1 as [|x l Hs IH Hx]; [constructor|].
  rewrite reverse_cons. apply StronglySorted_app_2.
  - intros y z Hy Hz%list_elem_of_singleton. subst z.
    rewrite elem_of_reverse in Hy.
    rewrite Forall_forall in Hx. unfold flip. by apply Hx.
  - exact IH.
  - repeat constructor.
Qed.

Lemma received_strictly_increasing_inj spans a b :
  received_strictly_increasing spans → a ∈ spans → b ∈ spans →
  span_ReceivedAt a = span_ReceivedAt b → a = b.
Proof.
  induction 1 as [|x l Hs IH Hx]; [by intros ?%elem_of_nil|].
  rewrite Forall_forall in Hx.
  intros [->|Ha]%elem_of_cons [->|Hb]%elem_of_cons Heq; try done.
  - specialize (Hx _ Hb). lia.
  - specialize (Hx _ Ha). lia.
  - by apply IH.
Qed.

Lemma sortSpans_time_desc_reverse (spans : list SpanData) :
  received_strictly_increasing spans →
  sortSpans spans "time" "desc" = reverse spans.
Proof.
  intros Hinc.
  apply (StronglySorted_unique_strong (key_order ByTime false)).
  - intros a b Ha Hb Hab Hba. cbn in Hab, Hba.
    rewrite sortSpans_perm in Ha. rewrite elem_of_reverse in Hb.
    apply (received_strictly_increasing_inj spans); [done..|lia].
  - apply (sortSpans_sorted spans "time" "desc").
  - eapply StronglySorted_impl; [|by apply StronglySorted_reverse].
    intros a b. unfold flip. cbn. lia.
  - by rewrite sortSpans_perm, reverse_Permutation.
Qed.

(** X8. When the spans are in insertion order under a clock that never
    repeats an instant, sorting by time descending reverses the
    array and sorting by time ascending leaves it unchanged. *)
Theorem sortSpans_time_desc_reverses_insertion_order (spans : list SpanData) :
  received_strictly_increasing spans →
  sortSpans spans "time" "desc" = reverse spans ∧
  sortSpans spans "time" "asc" = spans.
Proof.
  intros Hinc. split.
  - by apply sortSpans_time_desc_reverse.
  - apply sortSpans_fixed. eapply StronglySorted_impl; [|exact Hinc].
    intros a b. cbn. lia.
Qed.

(** X6. The query without parameters, on a store of at most
    [max_slice_len] records: the log and metric handlers return the
    first 100 records of the array, and the trace handler, when the
    spans were received at strictly increasing instants, the 100 most
    recently received spans, newest first; [X-Offset] is 0 and
    [X-Limit] is 100. *)
Theorem list_handlers_default_pages parse (s : Store) :
  (Z.of_nat (length (GetFilteredLogs_all s)) <= max_slice_len →
   handleGetLogs parse s ∅ =
   Some ({| X_Total_Count := Z.of_nat (length (GetFilteredLogs_all s));
            X_Filtered_Count := Z.of_nat (length (take 100 (GetFilteredLogs_all s)));
            X_Offset := 0; X_Limit := 100 |},
         take 100 (GetFilteredLogs_all s))) ∧
  (Z.of_nat (length (GetFilteredMetrics_all s)) <= max_slice_len →
   handleGetMetrics parse s ∅ =
   Some ({| X_Total_Count := Z.of_nat (length (GetFilteredMetrics_all s));
            X_Filtered_Count := Z.of_nat (length (take 100 (GetFilteredMetrics_all s)));
            X_Offset := 0; X_Limit := 100 |},
         take 100 (GetFilteredMetrics_all s))) ∧
  (Z.of_nat (length (GetSvcSpans s)) <= max_slice_len →
   received_strictly_increasing (GetSvcSpans s) →
   handleGetTraces parse s ∅ =
   Some ({| X_Total_Count := Z.of_nat (length (GetSvcSpans s));
            X_Filtered_Count := Z.of_nat (length (take 100 (reverse (GetSvcSpans s))));
            X_Offset := 0; X_Limit := 100 |},
         take 100 (reverse (GetSvcSpans s)))).
Proof.
  assert (∀ A (items : list A),
            Z.of_nat (length items) <= max_slice_len →
            paginate items {| Offset := 0; Limit := 100 |} = Some (take 100 items)) as Hpage.
  { intros A items Hlen. rewrite paginate_window; [by rewrite drop_0|lia|lia|].
    unfold max_int64. lia. }
  split; [|split].
  - intros Hlen. unfold handleGetLogs, FilterLogs, paginateLogs.
    rewrite filter_all by (apply Forall_forall; done).
    change (lf_Pagination (ParseLogFilterParams parse ∅))
      with {| Offset := 0; Limit := 100 |}.
    by rewrite Hpage.
  - intros Hlen. unfold handleGetMetrics, FilterMetrics, paginateMetrics.
    rewrite filter_all by (apply Forall_forall; done).
    change (mf_Pagination (ParseMetricFilterParams parse ∅))
      with {| Offset := 0; Limit := 100 |}.
    by rewrite Hpage.
  - intros Hlen Hinc. unfold handleGetTraces, FilterSpans, paginateSpans.
    rewrite filter_all by (apply Forall_forall; done).
    change (tf_Pagination (ParseTraceFilterParams parse ∅))
      with {| Offset := 0; Limit := 100 |}.
    change (tf_SortBy (ParseTraceFilterParams parse ∅)) with "time"%string.
    change (tf_SortOrder (ParseTraceFilterParams parse ∅)) with "desc"%string.
    rewrite (sortSpans_time_desc_reverse _ Hinc).
    rewrite Hpage by (rewrite length_reverse; lia). done.
Qed.

(** ** Status and inverted ranges *)

Lemma StatusCode_eqb_eq a b : StatusCode_eqb a b = true ↔ a = b.
Proof. by destruct a, b. Qed.

Lemma matchesSpanFilters_Status (span : SpanData) (params : TraceFilterParams) :
  matchesSpanFilters span params =
  matchesSpanFilters span (TraceFilter_with_Status params "") &&
  negb (status_rejects (tf_Status params) (span_StatusCode span)).
Proof.
  unfold matchesSpanFilters, TraceFilter_with_Status;
    cbn [tf_Service tf_Status tf_MinDuration tf_MaxDuration tf_TimeRange].
  change (negb (String.eqb "" "")) with false. cbn [andb].
  destruct (negb (String.eqb (tf_Service params) "") && _); [reflexivity|].
  destruct (String.eqb_spec (tf_Status params) "") as [->|_]; cbn [negb andb].
  { change (status_rejects "" _) with false. by rewrite andb_true_r. }
  destruct (status_rejects _ _); cbn [negb]; [by rewrite andb_false_r|].
  by rewrite andb_true_r.
Qed.

(** X9. The status criterion of [matchesSpanFilters]: a span matches
    exactly when it matches the descriptor without its status and its
    status code is the one that [ok], [error] or [unset] names; any
    other status value filters nothing. *)
Theorem status_filter_exact_and_unknown_ignored
    (span : SpanData) (params : TraceFilterParams) :
  (matchesSpanFilters span params = true ↔
   matchesSpanFilters span (TraceFilter_with_Status params "") = true ∧
   status_demands (tf_Status params) (span_StatusCode span)) ∧
  (tf_Status params ∉ ["ok"; "error"; "unset"]%string →
   matchesSpanFilters span params =
   matchesSpanFilters span (TraceFilter_with_Status params "")).
Proof.
  rewrite matchesSpanFilters_Status. unfold status_rejects, status_demands.
  split.
  - rewrite andb_true_iff, negb_true_iff.
    destruct (String.eqb_spec (tf_Status params) "ok") as [->|Hok].
    { rewrite negb_false_iff, StatusCode_eqb_eq. intuition congruence. }
    destruct (String.eqb_spec (tf_Status params) "error") as [->|Herr].
    { rewrite negb_false_iff, StatusCode_eqb_eq. intuition congruence. }
    destruct (String.eqb_spec (tf_Status params) "unset") as [->|Hun].
    { rewrite negb_false_iff, StatusCode_eqb_eq. intuition congruence. }
    intuition congruence.
  - intros Hnot.
    destruct (String.eqb_spec (tf_Status params) "ok") as [He|_];
      [exfalso; apply Hnot; rewrite He; repeat constructor|].
    destruct (String.eqb_spec (tf_Status params) "error") as [He|_];
      [exfalso; apply Hnot; rewrite He; repeat constructor|].
    destruct (String.eqb_spec (tf_Status params) "unset") as [He|_];
      [exfalso; apply Hnot; rewrite He; repeat constructor|].
    by rewrite andb_true_r.
Qed.

Lemma matchesSpanFilters_ranges (span : SpanData) (params : TraceFilterParams) :
  matchesSpanFilters span params = true →
  (∀ m, tf_MinDuration params = Some m → m <= span_duration span) ∧
  (∀ M, tf_MaxDuration params = Some M → span_duration span <= M) ∧
  inclusive_time_range (tf_TimeRange params) (span_ReceivedAt span).
Proof.
  rewrite matchesSpanFilters_TimeRange, andb_true_iff, time_range_accepts_inclusive.
  intros [Hm Ht]. split; [|split]; [| |done]; revert Hm;
    unfold matchesSpanFilters, TraceFilter_without_TimeRange;
    cbn [tf_Service tf_Status tf_MinDuration tf_MaxDuration tf_TimeRange StartTime EndTime];
    destruct (negb (String.eqb (tf_Service params) "") && _); try done;
    destruct (negb (String.eqb (tf_Status params) "") && _); try done;
    destruct (tf_MinDuration params) as [m0|], (tf_MaxDuration params) as [M0|];
    repeat match goal with
           | |- context [?a <? ?b] => destruct (Z.ltb_spec a b)
           | |- context [?a >? ?b] => destruct (Z.gtb_spec a b)
           end; try done; intros _ ? [= <-]; lia.
Qed.

Lemma paginate_nil {A : Type} (pg : PaginationParams) :
  0 <= Offset pg → paginate (@nil A) pg = Some [].
Proof. intros Hoff. by apply paginate_beyond. Qed.

Lemma filter_none {A} (f : A → bool) (l : list A) :
  (∀ x, f x = false) → List.filter f l = [].
Proof. intros Hf. induction l as [|x l IH]; cbn; [done|]. by rewrite Hf. Qed.

(** X10. A descriptor whose maximum duration is below its minimum, or
    whose end time is before its start time, matches no record, and
    [FilterSpans], [FilterLogs] and [FilterMetrics] return the empty
    page for it rather than fail. *)
Theorem inverted_ranges_match_nothing :
  (∀ (spans : list SpanData) (params : TraceFilterParams) m M,
     tf_MinDuration params = Some m → tf_MaxDuration params = Some M → M < m →
     0 <= Offset (tf_Pagination params) →
     (∀ span, matchesSpanFilters span params = false) ∧
     FilterSpans spans params = Some []) ∧
  (∀ (spans : list SpanData) (params : TraceFilterParams) startTime endTime,
     tf_TimeRange params = {| StartTime := Some startTime; EndTime := Some endTime |} →
     endTime < startTime →
     0 <= Offset (tf_Pagination params) →
     (∀ span, matchesSpanFilters span params = false) ∧
     FilterSpans spans params = Some []) ∧
  (∀ (logs : list LogData) (params : LogFilterParams) startTime endTime,
     lf_TimeRange params = {| StartTime := Some startTime; EndTime := Some endTime |} →
     endTime < startTime →
     0 <= Offset (lf_Pagination params) →
     (∀ log, matchesLogFilters log params = false) ∧
     FilterLogs logs params = Some []) ∧
  (∀ (metrics : list MetricData) (params : MetricFilterParams) startTime endTime,
     mf_TimeRange params = {| StartTime := Some startTime; EndTime := Some endTime |} →
     endTime < startTime →
     0 <= Offset (mf_Pagination params) →
     (∀ metric, matchesMetricFilters metric params = false) ∧
     FilterMetrics metrics params = Some []).
Proof.
  assert (∀ tr t startTime endTime,
            tr = {| StartTime := Some startTime; EndTime := Some endTime |} →
            endTime < startTime → time_range_accepts tr t = false) as Hrange.
  { intros tr t st e -> Hlt. unfold time_range_accepts, Time_Before, Time_After; cbn.
    destruct (Z.ltb_spec t st), (Z.ltb_spec e t); try done; lia. }
  split; [|split; [|split]].
  - intros spans params m M Hm HM Hlt Hoff.
    assert (∀ span, matchesSpanFilters span params = false) as Hnone.
    { intros span. destruct (matchesSpanFilters span params) eqn:Hs; [|done].
      apply matchesSpanFilters_ranges in Hs as (Hmin & Hmax & _).
      specialize (Hmin _ Hm). specialize (Hmax _ HM). lia. }
    split; [done|]. unfold FilterSpans, paginateSpans.
    rewrite filter_none by done. rewrite sortSpans_exchange_sort.
    by apply paginate_nil.
  - intros spans params st e Htr Hlt Hoff.
    assert (∀ span, matchesSpanFilters span params = false) as Hnone.
    { intros span. rewrite matchesSpanFilters_TimeRange, (Hrange _ _ _ _ Htr Hlt).
      apply andb_false_r. }
    split; [done|]. unfold FilterSpans, paginateSpans.
    rewrite filter_none by done. rewrite sortSpans_exchange_sort.
    by apply paginate_nil.
  - intros logs params st e Htr Hlt Hoff.
    assert (∀ log, matchesLogFilters log params = false) as Hnone.
    { intros log. rewrite matchesLogFilters_TimeRange, (Hrange _ _ _ _ Htr Hlt).
      apply andb_false_r. }
    split; [done|]. unfold FilterLogs, paginateLogs.
    rewrite filter_none by done. by apply paginate_nil.
  - intros metrics params st e Htr Hlt Hoff.
    assert (∀ metric, matchesMetricFilters metric params = false) as Hnone.
    { intros metric. rewrite matchesMetricFilters_TimeRange, (Hrange _ _ _ _ Htr Hlt).
      apply andb_false_r. }
    split; [done|]. unfold FilterMetrics, paginateMetrics.
    rewrite filter_none by done. by apply paginate_nil.
Qed.

(** ** The service query, millisecond parameters, header round trip *)

Lemma prefix_app s : ∀ q t,
  String.prefix q s = true → String.prefix q (s ++ t) = true.
Proof.
  induction s as [|d s IH]; intros q t.
  - destruct q; [|done]. intros _. by destruct t.
  - change (String d s ++ t)%string with (String d (s ++ t)).
    destruct q as [|c q]; [done|]. cbn.
    destruct (ascii_dec c d); [apply IH|done].
Qed.

Lemma Contains_app_l s t q :
  strings.Contains s q = true → strings.Contains (s ++ t) q = true.
Proof.
  induction s as [|c s IH]; cbn [strings.Contains].
  - rewrite orb_false_r. intros Hp. destruct q; [|done].
    destruct t; cbn; done.
  - intros [Hp|Hc]%orb_true_iff.
    + pose proof (prefix_app (String c s) q t Hp) as Hp'.
      change (String c s ++ t)%string with (String c (s ++ t)) in *.
      cbn [strings.Contains]. by rewrite Hp'.
    + change (String c s ++ t)%string with (String c (s ++ t)).
      cbn [strings.Contains]. rewrite (IH Hc). apply orb_true_r.
Qed.

Lemma Contains_app_r s t q :
  strings.Contains t q = true → strings.Contains (s ++ t) q = true.
Proof.
  intros Ht. induction s as [|c s IH]; [done|].
  change (String c s ++ t)%string with (String c (s ++ t)).
  cbn [strings.Contains]. rewrite IH. apply orb_true_r.
Qed.

Lemma matchesSpanFilters_Service (span : SpanData) (params : TraceFilterParams) :
  matchesSpanFilters span params =
  matchesSpanFilters span (TraceFilter_with_Service params "") &&
  (String.eqb (tf_Service params) "" ||
   strings.Contains
     (strings.ToLower (span_ServiceName span ++ " " ++ span_Name span))
     (strings.ToLower (tf_Service params))).
Proof.
  unfold matchesSpanFilters, TraceFilter_with_Service;
    cbn [tf_Service tf_Status tf_MinDuration tf_MaxDuration tf_TimeRange].
  change (negb (String.eqb "" "")) with false. cbn [andb].
  destruct (String.eqb (tf_Service params) ""); cbn [negb andb orb].
  { by rewrite andb_true_r. }
  destruct (strings.Contains _ _); cbn [negb]; [by rewrite andb_true_r|].
  by rewrite andb_false_r.
Qed.

Lemma eqb_empty_same_lower s t :
  same_lower s t → String.eqb s "" = String.eqb t "".
Proof.
  intros [_ Hempty].
  destruct (String.eqb_spec s "") as [Hs|Hs], (String.eqb_spec t "") as [Ht|Ht];
    try done; exfalso; tauto.
Qed.

Lemma same_lower_ascii s t :
  strings.isASCII s = true → strings.isASCII t = true →
  strings.lower_ascii s = strings.lower_ascii t → same_lower s t.
Proof.
  intros Hs Ht Hlower. split.
  - by rewrite !ToLower_ascii.
  - rewrite <- (lower_ascii_empty s), <- (lower_ascii_empty t). by rewrite Hlower.
Qed.

(** X11. The service criterion of [matchesSpanFilters] ignores letter
    case: two queries with the same lower-case form (both empty or
    neither) select the same spans, in particular two ASCII queries
    that differ in letter case only; and a span whose service name and
    span name are ASCII texts meets the criterion when its service name
    or its span name contains the query, letter case ignored. *)
Theorem service_filter_case_insensitive_over_service_and_name
    (span : SpanData) (params : TraceFilterParams) :
  (∀ query1 query2,
     same_lower query1 query2 →
     matchesSpanFilters span (TraceFilter_with_Service params query1) =
     matchesSpanFilters span (TraceFilter_with_Service params query2)) ∧
  (∀ query1 query2,
     strings.isASCII query1 = true → strings.isASCII query2 = true →
     strings.lower_ascii query1 = strings.lower_ascii query2 →
     matchesSpanFilters span (TraceFilter_with_Service params query1) =
     matchesSpanFilters span (TraceFilter_with_Service params query2)) ∧
  (∀ query,
     strings.isASCII (span_ServiceName span) = true →
     strings.isASCII (span_Name span) = true →
     strings.Contains (strings.lower_ascii (span_ServiceName span))
                      (strings.ToLower query) = true ∨
     strings.Contains (strings.lower_ascii (span_Name span))
                      (strings.ToLower query) = true →
     matchesSpanFilters span (TraceFilter_with_Service params query) =
     matchesSpanFilters span (TraceFilter_with_Service params "")).
Proof.
  assert (∀ query1 query2, same_lower query1 query2 →
            matchesSpanFilters span (TraceFilter_with_Service params query1) =
            matchesSpanFilters span (TraceFilter_with_Service params query2)) as Hsame.
  { intros query1 query2 Hq.
    rewrite (matchesSpanFilters_Service span (TraceFilter_with_Service params query1)).
    rewrite (matchesSpanFilters_Service span (TraceFilter_with_Service params query2)).
    cbn [tf_Service TraceFilter_with_Service].
    rewrite (eqb_empty_same_lower _ _ Hq). destruct Hq as [-> _]. done. }
  split; [exact Hsame|]. split.
  - intros query1 query2 H1 H2 Hlower. by apply Hsame, same_lower_ascii.
  - intros query Hservice Hname Hin.
    rewrite (matchesSpanFilters_Service span (TraceFilter_with_Service params query)).
    cbn [tf_Service TraceFilter_with_Service].
    assert (strings.Contains
              (strings.ToLower (span_ServiceName span ++ " " ++ span_Name span))
              (strings.ToLower query) = true) as ->.
    { rewrite ToLower_ascii by (by rewrite !isASCII_app, Hservice, Hname).
      rewrite !lower_ascii_app. destruct Hin as [Hs|Hn].
      - by apply Contains_app_l.
      - by apply Contains_app_r, Contains_app_r. }
    by rewrite orb_true_r, andb_true_r.
Qed.

Lemma parse_time_bound_cases parse (s : string) :
  (∀ t, s ≠ EmptyString → parse s = Some t → parse_time_bound parse s = Some t) ∧
  (∀ m, parse s = None → strconv.ParseInt s = Some m →
        - max_millis <= m <= max_millis →
        parse_time_bound parse s = Some (m * 1000000)) ∧
  (parse s = None → strconv.ParseInt s = None → parse_time_bound parse s = None) ∧
  (s = EmptyString → parse_time_bound parse s = None).
Proof.
  unfold parse_time_bound. repeat split.
  - intros t Hne ->. by destruct (String.eqb_spec s "").
  - intros m -> Hm Hrange.
    destruct (String.eqb_spec s "") as [->|_]; [done|]. cbn [negb].
    rewrite Hm, wrap64_id; [done|].
    unfold max_millis, min_int64, max_int64 in *. lia.
  - intros -> ->. by destruct (negb _).
  - by intros ->.
Qed.

(** X12. [ParseTimeRangeParams] and [ParseTraceFilterParams] convert
    a decimal millisecond count of magnitude at most [max_millis] to
    exactly that many nanoseconds times 10^6, for [start_time],
    [end_time], [min_duration_ms] and [max_duration_ms]; for each of
    the two time bounds RFC3339 text takes precedence, and a bound that
    is neither RFC3339 text nor an integer, or is empty, is absent. *)
Theorem millisecond_parameters_convert_exactly parse (q : gmap string (list string)) :
  (∀ m, parse (Values_Get q "start_time") = None →
        strconv.ParseInt (Values_Get q "start_time") = Some m →
        - max_millis <= m <= max_millis →
        StartTime (ParseTimeRangeParams parse q) = Some (m * 1000000)) ∧
  (∀ m, parse (Values_Get q "end_time") = None →
        strconv.ParseInt (Values_Get q "end_time") = Some m →
        - max_millis <= m <= max_millis →
        EndTime (ParseTimeRangeParams parse q) = Some (m * 1000000)) ∧
  (∀ t, Values_Get q "start_time" ≠ EmptyString →
        parse (Values_Get q "start_time") = Some t →
        StartTime (ParseTimeRangeParams parse q) = Some t) ∧
  (∀ t, Values_Get q "end_time" ≠ EmptyString →
        parse (Values_Get q "end_time") = Some t →
        EndTime (ParseTimeRangeParams parse q) = Some t) ∧
  (parse (Values_Get q "start_time") = None →
   strconv.ParseInt (Values_Get q "start_time") = None →
   StartTime (ParseTimeRangeParams parse q) = None) ∧
  (parse (Values_Get q "end_time") = None →
   strconv.ParseInt (Values_Get q "end_time") = None →
   EndTime (ParseTimeRangeParams parse q) = None) ∧
  (Values_Get q "start_time" = EmptyString →
   StartTime (ParseTimeRangeParams parse q) = None) ∧
  (Values_Get q "end_time" = EmptyString →
   EndTime (ParseTimeRangeParams parse q) = None) ∧
  (∀ m, strconv.ParseInt (Values_Get q "min_duration_ms") = Some m →
        - max_millis <= m <= max_millis →
        tf_MinDuration (ParseTraceFilterParams parse q) = Some (m * 1000000)) ∧
  (∀ m, strconv.ParseInt (Values_Get q "max_duration_ms") = Some m →
        - max_millis <= m <= max_millis →
        tf_MaxDuration (ParseTraceFilterParams parse q) = Some (m * 1000000)).
Proof.
  assert (∀ s m, strconv.ParseInt s = Some m → - max_millis <= m <= max_millis →
                 parse_duration_ms s = Some (m * 1000000)) as Hdur.
  { intros s m Hm Hrange. unfold parse_duration_ms.
    destruct (String.eqb_spec s "") as [->|_]; [done|]. cbn [negb].
    rewrite Hm, wrap64_id; [done|].
    unfold max_millis, min_int64, max_int64 in *. lia. }
  unfold ParseTimeRangeParams, ParseTraceFilterParams;
    cbn [StartTime EndTime tf_MinDuration tf_MaxDuration].
  repeat split.
  - intros m. apply parse_time_bound_cases.
  - intros m. apply parse_time_bound_cases.
  - intros t. apply parse_time_bound_cases.
  - intros t. apply parse_time_bound_cases.
  - apply parse_time_bound_cases.
  - apply parse_time_bound_cases.
  - apply parse_time_bound_cases.
  - apply parse_time_bound_cases.
  - intros m. apply Hdur.
  - intros m. apply Hdur.
Qed.

Lemma Itoa_nonempty i : strconv.Itoa i ≠ EmptyString.
Proof.
  unfold strconv.Itoa. destruct (Z.ltb_spec i 0) as [Hneg|Hpos]; [done|]. unfold strconv.format_uint.
  destruct (format_digits_head (S (Z.to_nat (Z.log2 i))) i EmptyString)
    as (d & rest & _ & ->); [done|lia|done].
Qed.

Lemma ParsePaginationParams_echo (pg : PaginationParams) :
  0 <= Offset pg <= max_int64 → 1 <= Limit pg <= 1000 →
  ParsePaginationParams
    {[ "offset"%string := [strconv.Itoa (Offset pg)]; "limit"%string := [strconv.Itoa (Limit pg)] ]} = pg.
Proof.
  destruct pg as [off lim]; cbn [Offset Limit]. intros Hoff Hlim.
  unfold ParsePaginationParams, Values_Get.
  rewrite lookup_insert_eq, lookup_insert_ne, lookup_singleton_eq by done.
  destruct (String.eqb_spec (strconv.Itoa off) "") as [He|_]; [by apply Itoa_nonempty in He|].
  destruct (String.eqb_spec (strconv.Itoa lim) "") as [He|_]; [by apply Itoa_nonempty in He|].
  cbn [negb]. rewrite !Atoi_Itoa by (unfold min_int64, max_int64 in *; lia).
  destruct (Z.geb_spec off 0); [|lia].
  destruct (Z.gtb_spec lim 0); [|lia].
  destruct (Z.gtb_spec lim 1000); [lia|]. done.
Qed.

(** X13. [strconv.Atoi] reads back what [strconv.Itoa] writes for every
    [int64]; hence the [X-Offset] and [X-Limit] header lines of a trace
    listing, sent back as the [offset] and [limit] of a query, parse
    to the pagination of the original query. *)
Theorem pagination_headers_round_trip :
  (∀ i, min_int64 <= i <= max_int64 → strconv.Atoi (strconv.Itoa i) = Some i) ∧
  (∀ parse (s : Store) (q : gmap string (list string)) headers body,
     handleGetTraces parse s q = Some (headers, body) →
     strconv.Itoa (X_Offset headers) ∈ (pagination_header_lines headers).*2 ∧
     strconv.Itoa (X_Limit headers) ∈ (pagination_header_lines headers).*2 ∧
     ParsePaginationParams
       {[ "offset"%string := [strconv.Itoa (X_Offset headers)];
          "limit"%string := [strconv.Itoa (X_Limit headers)] ]} =
     ParsePaginationParams q).
Proof.
  split; [apply Atoi_Itoa|].
  intros parse s q headers body Hh.
  split; [cbn; repeat constructor|]. split; [cbn; repeat constructor|].
  assert (X_Offset headers = Offset (ParsePaginationParams q) ∧
          X_Limit headers = Limit (ParsePaginationParams q)) as [-> ->].
  { unfold handleGetTraces in Hh.
    destruct (FilterSpans _ _); [|done]. by injection Hh as <- _. }
  destruct (ParsePaginationParams_range q).
  by apply ParsePaginationParams_echo.
Qed.

(** ** Letter case in the log and metric criteria *)

(** X21. The text criteria of [matchesLogFilters] (service, severity,
    body) and the service and name criteria of [matchesMetricFilters]
    ignore letter case: two descriptors whose text criteria have the
    same lower-case form, both empty or neither, and that agree
    elsewhere select the same records.  The metric type criterion, on
    ASCII texts, ignores letter case too and asks for the whole type
    text, not for a part of it.  A log whose service, severity and body
    are ASCII texts is matched through their lower-case form only. *)
Theorem log_and_metric_text_criteria_ignore_case :
  (∀ (log : LogData) (params1 params2 : LogFilterParams),
     same_lower (lf_Service params1) (lf_Service params2) →
     same_lower (lf_Severity params1) (lf_Severity params2) →
     same_lower (lf_Body params1) (lf_Body params2) →
     lf_MinSeverity params1 = lf_MinSeverity params2 →
     lf_TraceID params1 = lf_TraceID params2 →
     lf_TimeRange params1 = lf_TimeRange params2 →
     matchesLogFilters log params1 = matchesLogFilters log params2) ∧
  (∀ (metric : MetricData) (params1 params2 : MetricFilterParams),
     same_lower (mf_Service params1) (mf_Service params2) →
     same_lower (mf_MetricName params1) (mf_MetricName params2) →
     strings.isASCII (metric_MetricTypeText metric) = true →
     strings.isASCII (mf_MetricType params1) = true →
     strings.isASCII (mf_MetricType params2) = true →
     strings.lower_ascii (mf_MetricType params1) =
       strings.lower_ascii (mf_MetricType params2) →
     mf_TimeRange params1 = mf_TimeRange params2 →
     matchesMetricFilters metric params1 = matchesMetricFilters metric params2) ∧
  (∀ (metric : MetricData) (params : MetricFilterParams),
     strings.isASCII (metric_MetricTypeText metric) = true →
     strings.isASCII (mf_MetricType params) = true →
     mf_MetricType params ≠ EmptyString →
     matchesMetricFilters metric params = true →
     strings.lower_ascii (metric_MetricTypeText metric) =
       strings.lower_ascii (mf_MetricType params)) ∧
  (∀ (log : LogData) (params : LogFilterParams),
     strings.isASCII (log_ServiceName log) = true →
     strings.isASCII (log_Severity log) = true →
     strings.isASCII (log_ResolvedBody log) = true →
     matchesLogFilters log params =
     matchesLogFilters
       {| log_ServiceName := strings.ToLower (log_ServiceName log);
          log_Severity := strings.ToLower (log_Severity log);
          log_SeverityNumber := log_SeverityNumber log;
          log_ResolvedBody := strings.ToLower (log_ResolvedBody log);
          log_TraceID := log_TraceID log;
          log_Timestamp := log_Timestamp log;
          log_ReceivedAt := log_ReceivedAt log |} params).
Proof.
  split; [|split; [|split]].
  - intros log params1 params2 Hservice Hseverity Hbody Hmin Htrace Hrange.
    unfold matchesLogFilters.
    rewrite (eqb_empty_same_lower _ _ Hservice), (eqb_empty_same_lower _ _ Hseverity),
      (eqb_empty_same_lower _ _ Hbody).
    destruct Hservice as [-> _], Hseverity as [-> _], Hbody as [-> _].
    by rewrite Hmin, Htrace, Hrange.
  - intros metric params1 params2 Hservice Hname Hm H1 H2 Htype Hrange.
    assert (String.eqb (mf_MetricType params1) "" = String.eqb (mf_MetricType params2) "")
      as Hempty by (by apply eqb_empty_same_lower, same_lower_ascii).
    unfold matchesMetricFilters.
    rewrite (eqb_empty_same_lower _ _ Hservice), (eqb_empty_same_lower _ _ Hname), Hempty.
    rewrite !EqualFold_ascii by done.
    destruct Hservice as [-> _], Hname as [-> _].
    by rewrite Htype, Hrange.
  - intros metric params Hm Hq Hne. unfold matchesMetricFilters.
    destruct (negb (String.eqb (mf_Service params) "") && _); [done|].
    destruct (negb (String.eqb (mf_MetricName params) "") && _); [done|].
    rewrite EqualFold_ascii by done.
    destruct (String.eqb_spec (mf_MetricType params) "") as [?|_]; [done|].
    by destruct (String.eqb_spec (strings.lower_ascii (metric_MetricTypeText metric))
                   (strings.lower_ascii (mf_MetricType params))).
  - intros log params Hservice Hseverity Hbody. unfold matchesLogFilters.
    cbn [log_ServiceName log_Severity log_SeverityNumber log_ResolvedBody log_TraceID
         log_Timestamp log_ReceivedAt].
    by rewrite !ToLower_idemp_ascii.
Qed.

(** ** Service listings and statistics *)

Lemma serviceSet_add_lookup names : ∀ (serviceSet : gmap string bool) name,
  serviceSet_add serviceSet names !! name =
  if decide (name ∈ names) then Some true else serviceSet !! name.
Proof.
  unfold serviceSet_add.
  induction names as [|n names IH]; intros serviceSet name; cbn [foldl].
  - destruct (decide _) as [Hin|]; [by apply elem_of_nil in Hin|done].
  - rewrite IH.
    destruct (decide (name ∈ names)) as [Hin|Hnin].
    + destruct (decide _) as [|Hn]; [done|]. exfalso. apply Hn. by right.
    + destruct (decide (name = n)) as [->|Hne].
      * rewrite lookup_insert_eq.
        destruct (decide _) as [|Hn]; [done|]. exfalso. apply Hn. by left.
      * rewrite lookup_insert_ne by done.
        destruct (decide _) as [Hin|]; [|done].
        apply elem_of_cons in Hin as [?|?]; done.
Qed.

Lemma serviceSet_add_empty_elem names name :
  is_Some (serviceSet_add ∅ names !! name) ↔ name ∈ names.
Proof.
  rewrite serviceSet_add_lookup, lookup_empty.
  destruct (decide _); split; try done; by intros [? ?].
Qed.

Lemma map_range_keys {V : Type} (m : gmap string V) kvs name :
  map_range m kvs → name ∈ kvs.*1 ↔ is_Some (m !! name).
Proof.
  unfold map_range. intros ->. rewrite list_elem_of_fmap. split.
  - intros ([k v] & -> & Hin). apply elem_of_map_to_list in Hin. by exists v.
  - intros [v Hv]. exists (name, v). split; [done|]. by apply elem_of_map_to_list.
Qed.

Lemma map_range_length {V : Type} (m : gmap string V) kvs :
  map_range m kvs → length kvs = size m.
Proof. unfold map_range. intros ->. by rewrite length_map_to_list. Qed.

Lemma map_range_exists {V : Type} (m : gmap string V) : ∃ kvs, map_range m kvs.
Proof. exists (map_to_list m). by unfold map_range. Qed.

Lemma serviceSet_size_le names : (size (serviceSet_add ∅ names) ≤ length names)%nat.
Proof.
  assert (∀ (m : gmap string bool),
            (size (serviceSet_add m names) ≤ size m + length names)%nat) as Hgen.
  { unfold serviceSet_add. induction names as [|n names IH]; intros m; cbn; [lia|].
    etrans; [apply IH|].
    rewrite map_size_insert. destruct (m !! n); unfold id; lia. }
  specialize (Hgen ∅). by rewrite map_size_empty in Hgen.
Qed.

Lemma billing_is_all_services :
  getAllServices store_unknown_span_billing_log ["billing"%string].
Proof.
  unfold getAllServices, getServicesByMetrics, getServicesByLogs.
  exists [], ["billing"%string], [("unknown"%string, true); ("billing"%string, true)].
  split; [exists []; split; [unfold map_range; by vm_compute|done]|]. split.
  { exists [("billing"%string, true)]. split; [|done]. unfold map_range. reflexivity. }
  split; [|reflexivity].
  unfold map_range. vm_compute. apply Permutation_swap || reflexivity.
Qed.

(** X14. [getAllServices] returns, and every result lists without
    repetition exactly the service names of the spans, metrics and
    logs of the store that are not empty and do not contain
    ["unknown"]. *)
Theorem getAllServices_union_without_empty_and_unknown (s : Store) :
  (∃ services, getAllServices s services) ∧
  (∀ services, getAllServices s services →
     NoDup services ∧
     ∀ name, name ∈ services ↔
             (name ∈ span_ServiceName <$> GetSvcSpans s ∨
              name ∈ metric_ServiceName <$> GetFilteredMetrics_all s ∨
              name ∈ log_ServiceName <$> GetFilteredLogs_all s) ∧
             name ≠ EmptyString ∧
             strings.Contains name "unknown" = false).
Proof.
  split.
  - unfold getAllServices, getServicesByMetrics, getServicesByLogs.
    destruct (map_range_exists
                (serviceSet_add ∅ (metric_ServiceName <$> GetFilteredMetrics_all s)))
      as [mkvs Hm].
    destruct (map_range_exists
                (serviceSet_add ∅ (log_ServiceName <$> GetFilteredLogs_all s)))
      as [lkvs Hl].
    destruct (map_range_exists
                (serviceSet_add
                   (serviceSet_add
                      (serviceSet_add ∅ (span_ServiceName <$> GetSvcSpans s))
                      (mkvs.*1)) (lkvs.*1))) as [kvs Hk].
    eexists. exists (mkvs.*1), (lkvs.*1), kvs. eauto 10.
  - intros services
      (fromMetrics & fromLogs & kvs & (mkvs & Hm & ->) & (lkvs & Hl & ->) & Hk & ->).
    split.
    + apply NoDup_ListNoDup, List.NoDup_filter, NoDup_ListNoDup.
      by eapply map_range_keys_NoDup.
    + intros name. rewrite list_elem_of_In, List.filter_In, <- list_elem_of_In.
      rewrite (map_range_keys _ _ _ Hk).
      rewrite !serviceSet_add_lookup, lookup_empty.
      pose proof (map_range_keys _ _ name Hm) as Hmk.
      pose proof (map_range_keys _ _ name Hl) as Hlk.
      rewrite serviceSet_add_empty_elem in Hmk, Hlk.
      rewrite andb_true_iff, !negb_true_iff.
      destruct (String.eqb_spec name "") as [->|Hne].
      { split; [intros [_ [? _]]; done|intros [_ [? _]]; done]. }
      split.
      * intros [Hsome [_ Hunk]]. split; [|done].
        destruct (decide (name ∈ lkvs.*1)) as [Hin|_]; [right; right; by apply Hlk|].
        destruct (decide (name ∈ mkvs.*1)) as [Hin|_]; [right; left; by apply Hmk|].
        destruct (decide (name ∈ _)) as [Hin|_]; [by left|].
        by destruct Hsome.
      * intros [Hany [_ Hunk]]. split; [|done].
        destruct (decide (name ∈ lkvs.*1)) as [|Hnl]; [done|].
        destruct (decide (name ∈ mkvs.*1)) as [|Hnm]; [done|].
        destruct (decide (name ∈ _)) as [|Hns]; [done|].
        exfalso. destruct Hany as [?|[?|?]]; [done| |].
        -- apply Hnm. by apply Hmk.
        -- apply Hnl. by apply Hlk.
Qed.

(** X15. [handleGetServices] returns, and every response lists without
    repetition exactly the service names of the store's spans;
    [handleGetTraceByID] answers 404 for an unknown trace and
    otherwise lists exactly the service names of the trace's spans. *)
Theorem service_lists_enumerate_span_services (s : Store) :
  (∃ resp, handleGetServices s resp) ∧
  (∀ resp, handleGetServices s resp →
     ∃ services,
       resp = StatusOK services ∧ NoDup services ∧
       ∀ name, name ∈ services ↔ name ∈ span_ServiceName <$> GetSvcSpans s) ∧
  (∀ traceID resp,
     handleGetTraceByID s traceID resp →
     match GetSpansByTraceID (GetTraceCache s) traceID with
     | None => resp = StatusNotFound "Trace not found"
     | Some spans =>
         ∃ services,
           resp = StatusOK {| TraceID := traceID; Spans := spans; Services := services |} ∧
           NoDup services ∧
           ∀ name, name ∈ services ↔ name ∈ span_ServiceName <$> spans
     end).
Proof.
  split; [|split].
  - destruct (map_range_exists
                (serviceSet_add ∅ (span_ServiceName <$> GetSvcSpans s))) as [kvs Hk].
    exists (StatusOK (kvs.*1)), kvs. done.
  - intros resp (kvs & Hk & ->). exists (kvs.*1). split; [done|]. split.
    + by eapply map_range_keys_NoDup.
    + intros name. by rewrite (map_range_keys _ _ _ Hk), serviceSet_add_empty_elem.
  - intros traceID resp. unfold handleGetTraceByID.
    destruct (GetSpansByTraceID _ _) as [spans|]; [|done].
    intros (kvs & Hk & ->). exists (kvs.*1). split; [done|]. split.
    + by eapply map_range_keys_NoDup.
    + intros name. by rewrite (map_range_keys _ _ _ Hk), serviceSet_add_empty_elem.
Qed.

(** X16. The counts of [handleGetStats]: services and traces are at
    most the spans, all are zero together, the service count is the
    length of every [handleGetServices] listing, and the span count is
    the [X-Total-Count] of every trace listing. *)
Theorem stats_counts_agree_with_listings
    (TraceID_String : SpanData → string) (UpdatedAt : Store → Z) (s : Store) :
  ∃ stats,
    handleGetStats TraceID_String UpdatedAt s = StatusOK stats ∧
    0 <= ServiceCount stats <= SpanCount stats ∧
    0 <= TraceCount stats <= SpanCount stats ∧
    (SpanCount stats = 0 → ServiceCount stats = 0 ∧ TraceCount stats = 0) ∧
    (0 < SpanCount stats → 0 < ServiceCount stats ∧ 0 < TraceCount stats) ∧
    (∀ services, handleGetServices s (StatusOK services) →
                 Z.of_nat (length services) = ServiceCount stats) ∧
    (∀ parse q headers body,
       handleGetTraces parse s q = Some (headers, body) →
       X_Total_Count headers = SpanCount stats).
Proof.
  eexists. split; [reflexivity|].
  cbn [SpanCount ServiceCount TraceCount].
  pose proof (serviceSet_size_le (span_ServiceName <$> GetSvcSpans s)) as Hs.
  pose proof (serviceSet_size_le (TraceID_String <$> GetSvcSpans s)) as Ht.
  rewrite length_fmap in Hs, Ht.
  assert (∀ names : list string, names ≠ [] → (0 < size (serviceSet_add ∅ names))%nat)
    as Hpos.
  { intros [|n names] Hne; [done|].
    assert (is_Some (serviceSet_add ∅ (n :: names) !! n)) as [b Hb].
    { apply serviceSet_add_empty_elem. by left. }
    destruct (decide (size (serviceSet_add ∅ (n :: names)) = 0%nat)) as [Hz|]; [|lia].
    apply map_size_empty_inv in Hz. rewrite Hz in Hb. by rewrite lookup_empty in Hb. }
  split; [lia|]. split; [lia|]. split; [|split; [|split]].
  - intros Hz. assert (GetSvcSpans s = []) as -> by (apply nil_length_inv; lia). done.
  - intros Hp.
    assert (GetSvcSpans s ≠ []) as Hne by (intros He; rewrite He in Hp; cbn in Hp; lia).
    split; apply (inj_lt 0), Hpos; by destruct (GetSvcSpans s).
  - intros services (kvs & Hk & [= ->]).
    by rewrite length_fmap, (map_range_length _ _ Hk).
  - intros parse q headers body Hh. by apply handleGetTraces_headers in Hh as [-> _].
Qed.

(** ** The topology graph *)

Lemma witnessed_pair_Some cache span link :
  witnessed_pair cache span = Some link →
  link.1 ≠ link.2 ∧ link.2 = span_ServiceName span ∧
  SpanID_IsEmpty (span_ParentSpanID span) = false ∧
  ∃ parentSpan,
    GetSpanByID cache (SpanID_String (span_ParentSpanID span)) = Some parentSpan ∧
    link.1 = span_ServiceName parentSpan.
Proof.
  unfold witnessed_pair.
  destruct (SpanID_IsEmpty _); [done|].
  destruct (GetSpanByID _ _) as [parentSpan|]; [|done].
  destruct (String.eqb_spec (span_ServiceName parentSpan) (span_ServiceName span));
    [done|].
  intros [= <-]. cbn. repeat split; eauto.
Qed.

Lemma links_in_node_services cache spans link :
  link ∈ omap (witnessed_pair cache) spans →
  link.1 ≠ link.2 ∧
  link.1 ∈ node_services cache spans ∧ link.2 ∈ node_services cache spans.
Proof.
  intros (span & Hspan & Hlink)%list_elem_of_omap.
  pose proof (witnessed_pair_Some _ _ _ Hlink) as (Hne & Hchild & _).
  split; [done|]. unfold node_services.
  split; apply list_elem_of_bind; exists span; (split; [|done]); rewrite Hlink.
  - right. by left.
  - rewrite Hchild. by left.
Qed.

Lemma span_service_in_node_services cache spans span :
  span ∈ spans → span_ServiceName span ∈ node_services cache spans.
Proof.
  intros Hspan. unfold node_services. apply list_elem_of_bind.
  exists span. split; [by left|done].
Qed.

Lemma edge_under_key_Some key links edge :
  edge_under_key key links = Some edge →
  (edge_Source edge, edge_Target edge) ∈ links ∧
  edge_key (edge_Source edge, edge_Target edge) = key ∧
  1 <= edge_Count edge <= Z.of_nat (length links).
Proof.
  intros Hedge. pose proof (edge_under_key_count _ _ _ Hedge) as Hcount.
  split; [|split; [|lia]]; revert Hedge; unfold edge_under_key;
    destruct (List.filter _ links) as [|first rest] eqn:Hf; try done;
    intros [= <-]; cbn [edge_Source edge_Target];
    assert (In first (List.filter (fun l => String.eqb (edge_key l) key) links)) as Hin
      by (rewrite Hf; by left);
    apply List.filter_In in Hin as [Hin Hkey]; destruct first.
  - by apply list_elem_of_In.
  - by apply String.eqb_eq.
Qed.

Lemma buildTopology_returns (s : Store) (cache : TraceCache) :
  ∃ topology, buildTopology s cache topology.
Proof.
  destruct (map_range_exists (topology_maps s cache).1) as [nodeKVs Hn].
  destruct (map_range_exists (topology_maps s cache).2) as [edgeKVs He].
  eexists. exists nodeKVs, edgeKVs. eauto.
Qed.

(** X17. [buildTopology] returns, and in every result the nodes have
    distinct services and depth 0, every span's service is a node,
    and every edge joins two different services that are both nodes,
    with a count between 1 and the number of spans. *)
Theorem topology_graph_well_formed (s : Store) (cache : TraceCache) :
  Z.of_nat (length (GetSvcSpans s)) <= max_slice_len →
  (∃ topology, buildTopology s cache topology) ∧
  (∀ topology, buildTopology s cache topology →
     NoDup (node_Service <$> Nodes topology) ∧
     Forall (fun node => node_Depth node = 0) (Nodes topology) ∧
     (∀ span, span ∈ GetSvcSpans s →
              span_ServiceName span ∈ node_Service <$> Nodes topology) ∧
     Forall (fun edge =>
               edge_Source edge ≠ edge_Target edge ∧
               edge_Source edge ∈ node_Service <$> Nodes topology ∧
               edge_Target edge ∈ node_Service <$> Nodes topology ∧
               1 <= edge_Count edge <= Z.of_nat (length (GetSvcSpans s)))
            (Edges topology)).
Proof.
  intros Hlen. split; [apply buildTopology_returns|].
  intros topology (nodeKVs & edgeKVs & Hn & He & ->). cbn [Nodes Edges].
  assert (Forall (fun kv : string * TopologyNodeJSON =>
                    kv.2 = {| node_Service := kv.1; node_Depth := 0 |}) nodeKVs) as Hnodes.
  { apply Forall_forall. intros [k node] Hin. unfold map_range in Hn.
    rewrite Hn in Hin. apply elem_of_map_to_list in Hin.
    rewrite topology_nodes_by_service in Hin. by destruct (decide _); simplify_eq. }
  assert (node_Service <$> nodeKVs.*2 = nodeKVs.*1) as Hservices.
  { clear Hn. induction Hnodes as [|[k node] l Hkv _ IH]; [done|].
    cbn in Hkv. subst node. cbn. by f_equal. }
  assert (∀ name, name ∈ nodeKVs.*1 ↔ name ∈ node_services cache (GetSvcSpans s))
    as Hmem.
  { intros name. rewrite (map_range_keys _ _ _ Hn), topology_nodes_by_service.
    destruct (decide _); split; try done; by intros [? ?]. }
  rewrite Hservices. split; [by eapply map_range_keys_NoDup|]. split; [|split].
  - apply Forall_fmap, (Forall_impl _ _ _ Hnodes). intros [k node] Hkv.
    cbn in *. by subst node.
  - intros span Hspan. apply Hmem. by apply span_service_in_node_services.
  - apply Forall_fmap, Forall_forall. intros [k edge] Hin. unfold map_range in He.
    rewrite He in Hin. apply elem_of_map_to_list in Hin.
    rewrite topology_edges_by_key in Hin by done.
    apply edge_under_key_Some in Hin as (Hlink & _ & Hcount).
    apply links_in_node_services in Hlink as (Hne & Hsrc & Htgt). cbn in *.
    pose proof (omap_length_le (witnessed_pair cache) (GetSvcSpans s)).
    repeat split; [done|by apply Hmem|by apply Hmem|lia|lia].
Qed.

Lemma Contains_prefix s q : String.prefix q s = true → strings.Contains s q = true.
Proof. intros Hp. destruct s; cbn [strings.Contains]; by rewrite Hp. Qed.

Lemma Contains_tail c s q :
  strings.Contains (String c s) q = false → strings.Contains s q = false.
Proof. cbn [strings.Contains]. by intros [_ ?]%orb_false_iff. Qed.

(** The edge key determines the pair when the parent service has no
    arrow in its name. *)
Lemma edge_key_inj p : ∀ p' c c',
  strings.Contains p "->" = false → strings.Contains p' "->" = false →
  (p ++ "->" ++ c)%string = (p' ++ "->" ++ c')%string → p = p' ∧ c = c'.
Proof.
  assert (∀ p0 c0 c1, strings.Contains p0 "->" = false →
            ("->" ++ c0)%string = (p0 ++ "->" ++ c1)%string → p0 = EmptyString ∧ c0 = c1)
    as Hhead.
  { intros p0 c0 c1 Hp0 Heq. destruct p0 as [|a [|b p0]]; cbn in Heq.
    - split; [done|]. by simplify_eq.
    - by simplify_eq.
    - injection Heq as <- <- _.
      rewrite Contains_prefix in Hp0; [done|]. by destruct p0. }
  induction p as [|a p IH]; intros p' c c' Hp Hp' Heq.
  - destruct (Hhead p' c c' Hp' Heq) as [-> ->]. done.
  - destruct p' as [|a' p'].
    + symmetry in Heq. by destruct (Hhead _ _ _ Hp Heq) as [? _].
    + cbn in Heq. injection Heq as <- Heq.
      destruct (IH p' c c') as [-> ->]; [by eapply Contains_tail..|done|done].
Qed.

Lemma NoDup_fmap_snd_inj {K V} (l : list (K * V)) (key_of : V → K) :
  NoDup (l.*1) → Forall (fun kv => key_of kv.2 = kv.1) l → NoDup (l.*2).
Proof.
  intros Hnd Hkeys.
  assert (l.*1 = key_of <$> l.*2) as Heq.
  { clear Hnd. induction Hkeys as [|[k v] l Hkv _ IH]; [done|].
    cbn in Hkv. subst k. cbn. by f_equal. }
  rewrite Heq in Hnd. by eapply NoDup_fmap_1.
Qed.

(** X18. When no parent service of a witnessed pair has ["->"] in its
    name, the edges of [buildTopology] are, up to order, one edge per
    distinct witnessed pair, counted once per span that witnesses
    it. *)
Theorem topology_edges_one_per_pair (s : Store) (cache : TraceCache) :
  Z.of_nat (length (GetSvcSpans s)) <= max_slice_len →
  (∀ link, link ∈ omap (witnessed_pair cache) (GetSvcSpans s) →
           strings.Contains link.1 "->" = false) →
  ∀ topology, buildTopology s cache topology →
    Edges topology ≡ₚ
    edge_of_pair (omap (witnessed_pair cache) (GetSvcSpans s)) <$>
      remove_dups (omap (witnessed_pair cache) (GetSvcSpans s)).
Proof.
  intros Hlen Harrow topology (nodeKVs & edgeKVs & _ & He & ->). cbn [Edges].
  set (links := omap (witnessed_pair cache) (GetSvcSpans s)) in *.
  assert (∀ link1 link2, link1 ∈ links → link2 ∈ links →
                         edge_key link1 = edge_key link2 → link1 = link2) as Hinj.
  { intros [p c] [p' c'] H1 H2 Hkey. unfold edge_key in Hkey; cbn in Hkey.
    destruct (edge_key_inj p p' c c') as [-> ->]; [| |done|done].
    - exact (Harrow _ H1).
    - exact (Harrow _ H2). }
  destruct (topology_edges_when_keys_distinct s cache Hlen Hinj) as [Hfwd Hbwd].
  fold links in Hfwd, Hbwd. change (_ <$> remove_dups links) with
    (edge_of_pair links <$> remove_dups links).
  unfold map_range in He.
  assert (Forall (fun kv : string * TopologyEdgeJSON =>
                    edge_key (edge_Source kv.2, edge_Target kv.2) = kv.1) edgeKVs) as Hkeys.
  { apply Forall_forall. intros [k edge] Hin. rewrite He in Hin.
    apply elem_of_map_to_list in Hin. destruct (Hbwd _ _ Hin) as [_ Hk].
    cbn. by rewrite <- Hk. }
  apply NoDup_Permutation.
  - apply (NoDup_fmap_snd_inj edgeKVs
             (fun edge => edge_key (edge_Source edge, edge_Target edge)));
      [|done]. rewrite He. apply NoDup_fst_map_to_list.
  - apply NoDup_fmap_2_strong; [|apply NoDup_remove_dups].
    intros [p c] [p' c'] _ _ Heq. by injection Heq as -> ->.
  - intros edge. rewrite !list_elem_of_fmap. split.
    + intros ([k e] & -> & Hin). rewrite He in Hin.
      apply elem_of_map_to_list in Hin. cbn.
      destruct (Hbwd _ _ Hin) as [Hlink Hk].
      exists (edge_Source e, edge_Target e). split; [|by rewrite elem_of_remove_dups].
      rewrite Hk, (Hfwd _ Hlink) in Hin. unfold edge_of_pair. congruence.
    + intros (link & -> & Hlink). rewrite elem_of_remove_dups in Hlink.
      exists (edge_key link, edge_of_pair links link). split; [reflexivity|].
      rewrite He. apply elem_of_map_to_list. cbn [fst snd].
      rewrite (Hfwd _ Hlink). reflexivity.
Qed.

Lemma total_count_perm l1 l2 : l1 ≡ₚ l2 → total_count l1 = total_count l2.
Proof.
  unfold total_count. induction 1; cbn in *; lia.
Qed.

Lemma total_count_insert (edges : gmap string TopologyEdgeJSON) key edge :
  total_count (map_to_list (<[key:=edge]> edges)).*2 =
  edge_Count edge + total_count (map_to_list (delete key edges)).*2.
Proof.
  rewrite <- insert_delete_eq.
  rewrite (total_count_perm _ ((key, edge) :: map_to_list (delete key edges)).*2).
  - done.
  - apply fmap_Permutation, map_to_list_insert, lookup_delete_eq.
Qed.

Lemma total_count_lookup (edges : gmap string TopologyEdgeJSON) key edge :
  edges !! key = Some edge →
  total_count (map_to_list edges).*2 =
  edge_Count edge + total_count (map_to_list (delete key edges)).*2.
Proof.
  intros Hk. rewrite <- (insert_id edges key edge) at 1 by done.
  apply total_count_insert.
Qed.

Lemma topology_total_count (s : Store) (cache : TraceCache) :
  Z.of_nat (length (GetSvcSpans s)) <= max_slice_len →
  total_count (map_to_list (topology_maps s cache).2).*2 =
  Z.of_nat (length (omap (witnessed_pair cache) (GetSvcSpans s))).
Proof.
  destruct s as [spans metrics logs tc]. unfold GetSvcSpans; cbn [svcspans].
  induction spans as [|spanData spans IH] using rev_ind; intros Hlen.
  { unfold topology_maps; cbn. by rewrite map_to_list_empty. }
  rewrite length_app in Hlen. cbn [length] in Hlen.
  pose proof (topology_edges_by_key (mkStore spans metrics logs tc) cache) as Hkey.
  unfold GetSvcSpans in Hkey; cbn [svcspans] in Hkey.
  specialize (Hkey ltac:(lia)). specialize (IH ltac:(lia)).
  rewrite topology_maps_snoc.
  destruct (topology_maps _ cache) as [nodes edges] eqn:Hmaps. cbn [snd] in *.
  rewrite topology_step_edges, omap_app, length_app, Nat2Z.inj_add, <- IH.
  cbn [omap list_omap].
  destruct (witnessed_pair cache spanData) as [link|]; cbn [app length];
    [|lia].
  destruct (edges !! edge_key link) as [edge|] eqn:Hedge.
  - rewrite total_count_insert, (total_count_lookup _ _ _ Hedge).
    cbn [edge_Count]. rewrite wrap64_id; [lia|].
    rewrite Hkey in Hedge. apply edge_under_key_count in Hedge.
    pose proof (omap_length_le (witnessed_pair cache) spans).
    unfold min_int64, max_int64, max_slice_len in *. lia.
  - rewrite total_count_insert. cbn [edge_Count].
    rewrite delete_id by done. lia.
Qed.

(** X19. The edge counts of [buildTopology] add up to the number of
    spans that witness a pair, whatever the service names; there is no
    edge exactly when no span witnesses a pair. *)
Theorem topology_counts_every_link_once (s : Store) (cache : TraceCache) :
  Z.of_nat (length (GetSvcSpans s)) <= max_slice_len →
  ∀ topology, buildTopology s cache topology →
    total_count (Edges topology) =
      Z.of_nat (length (omap (witnessed_pair cache) (GetSvcSpans s))) ∧
    (Edges topology = [] ↔ omap (witnessed_pair cache) (GetSvcSpans s) = []).
Proof.
  intros Hlen topology (nodeKVs & edgeKVs & _ & He & ->). cbn [Edges].
  unfold map_range in He.
  assert (total_count edgeKVs.*2 =
          Z.of_nat (length (omap (witnessed_pair cache) (GetSvcSpans s)))) as Htotal.
  { rewrite <- (topology_total_count s cache Hlen).
    apply total_count_perm. by rewrite He. }
  split; [done|]. split.
  - intros Hnil. rewrite Hnil in Htotal. cbn in Htotal.
    apply nil_length_inv. lia.
  - intros Hnil.
    destruct edgeKVs as [|[k edge] rest]; [done|]. exfalso.
    assert ((k, edge) ∈ map_to_list (topology_maps s cache).2) as Hin
      by (rewrite <- He; by left).
    apply elem_of_map_to_list in Hin.
    rewrite topology_edges_by_key, Hnil in Hin by done. done.
Qed.

(** ** Attribute conversion *)

Lemma valueToInterface_Map entries :
  valueToInterface (ValueMap entries) = AnyMap (attributesToMap entries).
Proof. reflexivity. Qed.

Lemma attributesToMap_snoc attrs k v :
  attributesToMap (attrs ++ [(k, v)]) = <[k := valueToInterface v]> (attributesToMap attrs).
Proof. unfold attributesToMap. by rewrite foldl_app. Qed.

Lemma last_with_key_snoc attrs k v k' :
  last_with_key (attrs ++ [(k, v)]) k' =
  if decide (k = k') then Some v else last_with_key attrs k'.
Proof.
  unfold last_with_key. rewrite filter_app, filter_cons, filter_nil. cbn.
  destruct (decide (k = k')).
  - by rewrite last_snoc.
  - by rewrite app_nil_r.
Qed.

Lemma attributesToMap_lookup attrs k :
  attributesToMap attrs !! k = valueToInterface <$> last_with_key attrs k.
Proof.
  induction attrs as [|[k0 v0] attrs IH] using rev_ind; [done|].
  rewrite attributesToMap_snoc, last_with_key_snoc.
  destruct (decide (k0 = k)) as [->|Hne].
  - by rewrite lookup_insert_eq.
  - by rewrite lookup_insert_ne.
Qed.

Lemma attributesToMap_dom attrs k :
  is_Some (attributesToMap attrs !! k) ↔ k ∈ attrs.*1.
Proof.
  induction attrs as [|[k0 v0] attrs IH] using rev_ind.
  - cbn. rewrite lookup_empty. split; [by intros [? ?]|by intros ?%elem_of_nil].
  - rewrite attributesToMap_snoc, fmap_app, elem_of_app. cbn.
    rewrite list_elem_of_singleton.
    destruct (decide (k0 = k)) as [->|Hne].
    + rewrite lookup_insert_eq. split; [by right|by eexists].
    + rewrite lookup_insert_ne by done. rewrite IH. naive_solver.
Qed.

Lemma attributesToMap_size attrs :
  (size (attributesToMap attrs) ≤ length attrs)%nat.
Proof.
  induction attrs as [|[k0 v0] attrs IH] using rev_ind; [done|].
  rewrite attributesToMap_snoc, length_app. cbn.
  destruct (attributesToMap attrs !! k0) eqn:E.
  - rewrite map_size_insert_Some by done. lia.
  - rewrite map_size_insert_None by done. lia.
Qed.

Lemma attributesToMap_size_NoDup attrs :
  NoDup attrs.*1 → size (attributesToMap attrs) = length attrs.
Proof.
  induction attrs as [|[k0 v0] attrs IH] using rev_ind; [done|].
  rewrite fmap_app. cbn. intros Hnd.
  apply NoDup_app in Hnd as (Hnd & Hdisj & _).
  rewrite attributesToMap_snoc, length_app. cbn.
  rewrite map_size_insert_None.
  - rewrite IH by done. lia.
  - apply eq_None_not_Some. rewrite attributesToMap_dom. intros Hin.
    apply (Hdisj _ Hin). by apply list_elem_of_singleton.
Qed.

(** X20. [attributesToMap] keeps, for every key, the converted value of
    the last entry with that key: its keys are the keys of the
    attributes, it has at most as many entries as the attributes and
    exactly as many when no key repeats; [valueToInterface] converts a
    map value the same way. *)
Theorem attributesToMap_last_value_wins attrs :
  (∀ k, attributesToMap attrs !! k = valueToInterface <$> last_with_key attrs k) ∧
  (∀ k, is_Some (attributesToMap attrs !! k) ↔ k ∈ attrs.*1) ∧
  (size (attributesToMap attrs) ≤ length attrs)%nat ∧
  (NoDup attrs.*1 → size (attributesToMap attrs) = length attrs) ∧
  (∀ k v, attributesToMap (attrs ++ [(k, v)]) !! k = Some (valueToInterface v)) ∧
  valueToInterface (ValueMap attrs) = AnyMap (attributesToMap attrs).
Proof.
  split_and!.
  - apply attributesToMap_lookup.
  - apply attributesToMap_dom.
  - apply attributesToMap_size.
  - apply attributesToMap_size_NoDup.
  - intros. by rewrite attributesToMap_snoc, lookup_insert_eq.
  - done.
Qed.

(** ** Two runs on the same inputs *)





Section two_runs.
Context `{Caches}.
Variables Batch Clock : Type.
Variable ingest : Clock → list Batch → Store.
Variable TraceID_String : SpanData → string.
Variable UpdatedAt : Store → Z.


End two_runs.

End properties.

(** * The theorems at concrete inputs

    Each theorem above that has a hypothesis is applied here at a
    concrete input, and the claims of the specification that fail are
    refuted at one.  The inputs are ASCII texts. *)

Section concrete_inputs.
#[local] Existing Instance unicode_for_ascii_inputs.
#[local] Existing Instance caches_absent.

Lemma ParsePaginationParams_defaults_and_clamp_witness :
  Offset (ParsePaginationParams query_negative_offset_large_limit) = 0 ∧
  Limit (ParsePaginationParams query_negative_offset_large_limit) = 1000.
Proof.
  destruct (ParsePaginationParams_defaults_and_clamp query_negative_offset_large_limit)
    as (_ & _ & Hoff & _ & _ & Hlim).
  split.
  - exact (Hoff (-3) eq_refl).
  - exact (Hlim 5000 eq_refl).
Defined.

Lemma severityNameToNumber_threshold_witness :
  severityNameToNumber "WARN" = 13 ∧ severityNameToNumber "bogus" = 0 ∧
  ParseLogFilterParams parse_never query_min_severity_warn =
    log_filter_min_severity 13 0 100 ∧
  matchesLogFilters (log_of_severity 13) (log_filter_min_severity 13 0 100) = true ∧
  matchesLogFilters (log_of_severity 17) (log_filter_min_severity 13 0 100) = true ∧
  matchesLogFilters (log_of_severity 9) (log_filter_min_severity 13 0 100) = false ∧
  matchesLogFilters (log_of_severity 9) (log_filter_min_severity 0 0 100) = true.
Proof.
  destruct severityNameToNumber_threshold as (Htable & _ & _ & Hparse & _ & Honly).
  split; [|split; [|split; [|split; [|split; [|split]]]]].
  - destruct (Htable "WARN"%string) as (_ & _ & _ & Hwarn & _).
    exact (Hwarn eq_refl).
  - destruct (Htable "bogus"%string) as (_ & _ & _ & _ & _ & _ & Hother & _).
    apply Hother. vm_compute. intros Hin.
    repeat (apply elem_of_cons in Hin as [Hin|Hin]; [discriminate|]).
    by apply elem_of_nil in Hin.
  - destruct (Hparse parse_never "warn"%string) as [_ Hwarn].
    exact (Hwarn ltac:(discriminate)).
  - destruct (Honly (log_of_severity 13) 13 0 100) as [[_ Hpass] _].
    apply Hpass. right. cbn. lia.
  - destruct (Honly (log_of_severity 17) 13 0 100) as [[_ Hpass] _].
    apply Hpass. right. cbn. lia.
  - destruct (Honly (log_of_severity 9) 13 0 100) as [[Hfail _] _].
    destruct (matchesLogFilters (log_of_severity 9) (log_filter_min_severity 13 0 100));
      [|reflexivity].
    exfalso. destruct (Hfail eq_refl) as [Hle|Hle]; cbn in Hle; lia.
  - destruct (Honly (log_of_severity 9) 0 0 100) as [_ Hall]. exact Hall.
Defined.

Lemma time_range_boundary_inclusive_witness :
  matchesSpanFilters span_at_1000 filter_range_1000 = true ∧
  matchesLogFilters log_at_1000 (LogFilter_only_TimeRange range_1000) = true ∧
  matchesMetricFilters metric_at_1000 (MetricFilter_only_TimeRange range_1000) = true.
Proof.
  destruct time_range_boundary_inclusive as (Hspan & _ & _ & _ & Hbound).
  split; [|split].
  - destruct (Hspan span_at_1000 filter_range_1000) as [_ Hsame].
    rewrite (Hsame eq_refl). reflexivity.
  - destruct (Hbound 1000 1000 span_at_1000 log_at_1000 metric_at_1000)
      as (_ & Hlog & _).
    destruct (Hlog eq_refl) as [Hstart _]. apply Hstart. lia.
  - destruct (Hbound 1000 1000 span_at_1000 log_at_1000 metric_at_1000)
      as (_ & _ & Hmetric).
    destruct (Hmetric eq_refl) as [Hstart _]. apply Hstart. lia.
Defined.

Lemma pagination_pages_cover_witness :
  (∃ pages, pages_at paginateSpans [span_a; span_b; span_c] 2 2 = Some <$> pages ∧
            concat pages = [span_a; span_b; span_c]) ∧
  paginateSpans [span_a; span_b; span_c] {| Offset := 3; Limit := 2 |} = Some [].
Proof.
  destruct pagination_pages_cover as (Hcover & Hbeyond & _ & _).
  split.
  - apply Hcover; unfold max_int64, max_slice_len; cbn; lia.
  - apply Hbeyond. cbn. lia.
Defined.

Lemma sortSpans_sorted_by_requested_key_witness :
  StronglySorted (key_order ByDuration true) [span_a; span_b; span_c].
Proof.
  destruct sortSpans_sorted_by_requested_key as (_ & _ & _ & Hpage).
  exact (Hpage [span_c; span_a; span_b] (filter_sorted "duration" "asc" 0 100)
           [span_a; span_b; span_c] eq_refl).
Defined.

(** The claim C4 as stated fails: sorted by duration, two spans of equal
    duration stay in received-at ascending order. *)
Lemma sortSpans_tie_break_counterexample :
  FilterSpans [span_a; span_b] (filter_sorted "duration" "desc" 0 100) =
    Some [span_a; span_b] ∧
  ¬ ties_by_received_at_desc (requested_key "duration") [span_a; span_b].
Proof.
  split; [reflexivity|].
  intros Hties.
  specialize (Hties 0%nat 1%nat span_a span_b).
  assert (span_ReceivedAt span_b <= span_ReceivedAt span_a) as Hle.
  { apply Hties; [lia|done|done|]. by split; vm_compute. }
  vm_compute in Hle. by apply Hle.
Qed.

Lemma FilterSpans_fixed_point_at_offset_0_witness :
  ∃ page,
    FilterSpans [span_a; span_b; span_c] (filter_sorted "time" "desc" 0 2) = Some page ∧
    FilterSpans page (filter_sorted "time" "desc" 0 2) = Some page.
Proof.
  destruct FilterSpans_fixed_point_at_offset_0 as [_ Hfix].
  apply Hfix; [reflexivity|]. unfold max_int64. cbn. lia.
Defined.

(** The claim C5 as stated fails: with offset 1 the second application
    skips one more span. *)
Lemma FilterSpans_offset_counterexample :
  FilterSpans [span_a; span_b; span_c] (filter_sorted "time" "desc" 1 100) =
    Some [span_b; span_a] ∧
  FilterSpans [span_b; span_a] (filter_sorted "time" "desc" 1 100) =
    Some [span_a] ∧
  FilterSpans [span_b; span_a] (filter_sorted "time" "desc" 1 100) ≠
    FilterSpans [span_a; span_b; span_c] (filter_sorted "time" "desc" 1 100).
Proof. exact FilterSpans_offset_1_skips_again. Qed.

Lemma handleGetServices_spans_only_unfiltered_witness :
  handleGetServices store_unknown_span_billing_log (StatusOK ["unknown"%string]).
Proof.
  destruct handleGetServices_spans_only_unfiltered as [Hhandler _].
  apply Hhandler. reflexivity.
Defined.



Lemma buildTopology_edge_key_collision_witness :
  ∃ topology,
    buildTopology store_arrow_services (GetTraceCache store_arrow_services) topology ∧
    Edges topology =
      [ {| edge_Source := "a->b"; edge_Target := "c"; edge_Count := 2 |} ].
Proof.
  destruct buildTopology_edge_key_collision as (_ & [topology Hbuilt] & Hedges).
  exists topology. split; [exact Hbuilt|exact (Hedges topology Hbuilt)].
Defined.

Lemma paginate_window_and_length_witness :
  ∃ page,
    paginateSpans [span_a; span_b; span_c] {| Offset := 1; Limit := 5 |} = Some page ∧
    page = [span_b; span_c] ∧ Z.of_nat (length page) = 2.
Proof.
  destruct paginate_window_and_length as (Hspans & _ & _).
  destruct (Hspans [span_a; span_b; span_c] {| Offset := 1; Limit := 5 |})
    as (page & Hpage & Hwindow & Hlength).
  { unfold pagination_in_range, max_int64. cbn. lia. }
  exists page. split; [exact Hpage|]. split; [exact Hwindow|exact Hlength].
Defined.

Lemma FilterLogs_FilterMetrics_sound_ordered_complete_witness :
  ∃ page,
    FilterLogs (logs store_five_severities) (log_filter_min_severity 13 0 2) = Some page ∧
    page `sublist_of` logs store_five_severities ∧
    Z.of_nat (length page) <= 2.
Proof.
  destruct FilterLogs_FilterMetrics_sound_ordered_complete as [Hlogs _].
  destruct (Hlogs (logs store_five_severities) (log_filter_min_severity 13 0 2))
    as (page & Hpage & Hsub & _ & Hlen & _).
  { unfold pagination_in_range, max_int64. cbn. lia. }
  exists page. split; [exact Hpage|]. split; [exact Hsub|exact Hlen].
Defined.

Lemma paging_through_engine_covers_matches_witness :
  ∃ pages,
    (fun k : nat =>
       FilterLogs (logs store_five_severities)
         (LogFilter_with_Pagination (log_filter_min_severity 9 0 100)
            {| Offset := Z.of_nat k * 2; Limit := 2 |})) <$> seq 0 3 =
    Some <$> pages ∧
    concat pages =
      List.filter (fun log => matchesLogFilters log (log_filter_min_severity 9 0 100))
        (logs store_five_severities).
Proof.
  destruct (paging_through_engine_covers_matches 2 3) as (Hlogs & _ & _);
    [lia|unfold max_int64; lia|].
  apply Hlogs; [unfold max_slice_len; cbn; lia|cbn; lia].
Defined.

Lemma FilterLogs_FilterMetrics_fixed_point_at_offset_0_witness :
  FilterLogs [log_of_severity 13; log_of_severity 17] (log_filter_min_severity 13 0 2) =
  Some [log_of_severity 13; log_of_severity 17].
Proof.
  destruct FilterLogs_FilterMetrics_fixed_point_at_offset_0 as [Hlogs _].
  destruct (Hlogs (logs store_five_severities)
              [log_of_severity 13; log_of_severity 17]
              (log_filter_min_severity 13 0 2)) as [_ Hfixed].
  { reflexivity. }
  apply Hfixed. reflexivity.
Defined.

Lemma list_handlers_return_bounded_pages_witness :
  ∃ headers body,
    handleGetTraces parse_never store_three_spans query_limit_2 = Some (headers, body) ∧
    X_Total_Count headers = 3 ∧
    X_Filtered_Count headers = Z.of_nat (length body) ∧
    Z.of_nat (length body) <= X_Limit headers.
Proof.
  destruct (list_handlers_return_bounded_pages parse_never store_three_spans
              query_limit_2) as (Htraces & _ & _).
  destruct Htraces as (headers & body & Hh & Htotal & Hfiltered & _ & _ & Hlen & _).
  { unfold max_slice_len. cbn. lia. }
  exists headers, body.
  split; [exact Hh|]. split; [exact Htotal|]. split; [exact Hfiltered|exact Hlen].
Defined.

Lemma sortSpans_time_desc_reverses_insertion_order_witness :
  sortSpans [span_a; span_b; span_c] "time" "desc" = [span_c; span_b; span_a] ∧
  sortSpans [span_a; span_b; span_c] "time" "asc" = [span_a; span_b; span_c].
Proof.
  apply (sortSpans_time_desc_reverses_insertion_order [span_a; span_b; span_c]).
  unfold received_strictly_increasing. repeat constructor; cbn; lia.
Defined.

Lemma list_handlers_default_pages_witness :
  handleGetTraces parse_never store_three_spans ∅ =
  Some ({| X_Total_Count := 3; X_Filtered_Count := 3; X_Offset := 0; X_Limit := 100 |},
        [span_c; span_b; span_a]).
Proof.
  destruct (list_handlers_default_pages parse_never store_three_spans)
    as (_ & _ & Htraces).
  apply Htraces.
  - unfold max_slice_len. cbn. lia.
  - unfold received_strictly_increasing. repeat constructor; cbn; lia.
Defined.

Lemma status_filter_exact_and_unknown_ignored_witness :
  matchesSpanFilters (span_with_status 1 StatusCodeError)
    (TraceFilter_with_Status (filter_sorted "time" "desc" 0 100) "failed") =
  matchesSpanFilters (span_with_status 1 StatusCodeError)
    (TraceFilter_with_Status
       (TraceFilter_with_Status (filter_sorted "time" "desc" 0 100) "failed") "").
Proof.
  destruct (status_filter_exact_and_unknown_ignored
              (span_with_status 1 StatusCodeError)
              (TraceFilter_with_Status (filter_sorted "time" "desc" 0 100) "failed"))
    as [_ Hunknown].
  apply Hunknown. apply (bool_decide_unpack _). by vm_compute.
Defined.

Lemma inverted_ranges_match_nothing_witness :
  FilterSpans (svcspans store_five_durations)
    (filter_duration_window 500000000 100000000) = Some [].
Proof.
  destruct inverted_ranges_match_nothing as (Hdurations & _).
  destruct (Hdurations (svcspans store_five_durations)
              (filter_duration_window 500000000 100000000) 500000000 100000000)
    as [_ Hempty]; [reflexivity|reflexivity|lia|cbn; lia|exact Hempty].
Defined.

Lemma service_filter_case_insensitive_over_service_and_name_witness :
  matchesSpanFilters span_a
    (TraceFilter_with_Service (filter_sorted "time" "desc" 0 100) "FRONT") =
  matchesSpanFilters span_a
    (TraceFilter_with_Service (filter_sorted "time" "desc" 0 100) "front") ∧
  matchesSpanFilters span_a
    (TraceFilter_with_Service (filter_sorted "time" "desc" 0 100) "RON") =
  matchesSpanFilters span_a
    (TraceFilter_with_Service (filter_sorted "time" "desc" 0 100) "").
Proof.
  destruct (service_filter_case_insensitive_over_service_and_name span_a
              (filter_sorted "time" "desc" 0 100)) as (_ & Hcase & Hpart).
  split.
  - apply Hcase; reflexivity.
  - apply Hpart; [reflexivity|reflexivity|]. left. reflexivity.
Defined.

Lemma millisecond_parameters_convert_exactly_witness :
  tf_MinDuration (ParseTraceFilterParams parse_never query_duration_window) =
  Some 100000000.
Proof.
  destruct (millisecond_parameters_convert_exactly parse_never query_duration_window)
    as (_ & _ & _ & _ & _ & _ & _ & _ & Hmin & _).
  apply (Hmin 100); [by vm_compute|unfold max_millis; lia].
Defined.

Lemma pagination_headers_round_trip_witness :
  ParsePaginationParams
    {[ "offset"%string := [strconv.Itoa (X_Offset headers_two_of_three)];
       "limit"%string := [strconv.Itoa (X_Limit headers_two_of_three)] ]} =
  ParsePaginationParams query_limit_2.
Proof.
  destruct pagination_headers_round_trip as [_ Hecho].
  destruct (Hecho parse_never store_three_spans query_limit_2 headers_two_of_three
              [span_c; span_b]) as (_ & _ & Hparse).
  { by vm_compute. }
  exact Hparse.
Defined.

Lemma log_and_metric_text_criteria_ignore_case_witness :
  matchesLogFilters (log_of_service "Billing") (log_filter_service "BILL") =
  matchesLogFilters (log_of_service "Billing") (log_filter_service "bill") ∧
  matchesMetricFilters metric_at_1000 (metric_filter_type "SUM") =
  matchesMetricFilters metric_at_1000 (metric_filter_type "sum").
Proof.
  destruct log_and_metric_text_criteria_ignore_case as (Hlogs & Hmetrics & _ & _).
  split.
  - apply (Hlogs (log_of_service "Billing") (log_filter_service "BILL")
             (log_filter_service "bill"));
      try reflexivity; (split; [reflexivity|by split]).
  - apply (Hmetrics metric_at_1000 (metric_filter_type "SUM") (metric_filter_type "sum"));
      try reflexivity; (split; [reflexivity|by split]).
Defined.

Lemma getAllServices_union_without_empty_and_unknown_witness :
  NoDup ["billing"%string] ∧ strings.Contains "billing" "unknown" = false.
Proof.
  destruct (getAllServices_union_without_empty_and_unknown
              store_unknown_span_billing_log) as [_ Hall].
  destruct (Hall _ billing_is_all_services) as [Hnodup Hmem].
  split; [exact Hnodup|].
  destruct (proj1 (Hmem "billing"%string)) as (_ & _ & Hunknown);
    [by left|exact Hunknown].
Defined.

Lemma service_lists_enumerate_span_services_witness :
  NoDup ["front"; "back"]%string ∧
  "back"%string ∈ span_ServiceName <$> GetSvcSpans store_front_back.
Proof.
  destruct (service_lists_enumerate_span_services store_front_back)
    as (_ & Hservices & _).
  destruct (Hservices _ front_back_is_response)
    as (services & [= <-] & Hnodup & Hmem).
  split; [exact Hnodup|]. apply Hmem. right. by left.
Defined.

Lemma stats_counts_agree_with_listings_witness :
  ∃ stats,
    handleGetStats (fun _ => "T"%string) (fun _ => 0) store_front_back = StatusOK stats ∧
    ServiceCount stats = 2.
Proof.
  destruct (stats_counts_agree_with_listings (fun _ => "T"%string) (fun _ => 0)
              store_front_back) as (stats & Hstats & _ & _ & _ & _ & Hservices & _).
  exists stats. split; [exact Hstats|].
  symmetry. apply (Hservices _ front_back_is_response).
Defined.

Lemma topology_graph_well_formed_witness :
  ∃ topology,
    buildTopology store_front_back_db (GetTraceCache store_front_back_db) topology ∧
    NoDup (node_Service <$> Nodes topology).
Proof.
  destruct (topology_graph_well_formed store_front_back_db
              (GetTraceCache store_front_back_db)) as [[topology Hbuilt] Hall].
  { unfold max_slice_len. cbn. lia. }
  destruct (Hall topology Hbuilt) as (Hnodup & _).
  exists topology. split; [exact Hbuilt|exact Hnodup].
Defined.

Lemma topology_edges_one_per_pair_witness :
  ∃ topology,
    buildTopology store_front_back_db (GetTraceCache store_front_back_db) topology ∧
    Edges topology ≡ₚ
      [ {| edge_Source := "front"; edge_Target := "back"; edge_Count := 1 |};
        {| edge_Source := "back"; edge_Target := "db"; edge_Count := 1 |} ].
Proof.
  destruct (buildTopology_returns store_front_back_db
              (GetTraceCache store_front_back_db)) as [topology Hbuilt].
  exists topology. split; [exact Hbuilt|].
  etrans; [apply (topology_edges_one_per_pair store_front_back_db
                    (GetTraceCache store_front_back_db))|].
  - unfold max_slice_len. cbn. lia.
  - intros link Hin. vm_compute in Hin.
    repeat (apply elem_of_cons in Hin as [->|Hin]; [reflexivity|]).
    by apply elem_of_nil in Hin.
  - exact Hbuilt.
  - by vm_compute.
Defined.

Lemma topology_counts_every_link_once_witness :
  ∃ topology,
    buildTopology store_front_back_db (GetTraceCache store_front_back_db) topology ∧
    total_count (Edges topology) = 2.
Proof.
  destruct (buildTopology_returns store_front_back_db
              (GetTraceCache store_front_back_db)) as [topology Hbuilt].
  exists topology. split; [exact Hbuilt|].
  destruct (topology_counts_every_link_once store_front_back_db
              (GetTraceCache store_front_back_db)) with (topology := topology)
    as [Htotal _].
  - unfold max_slice_len. cbn. lia.
  - exact Hbuilt.
  - rewrite Htotal. by vm_compute.
Defined.

Lemma attributesToMap_last_value_wins_witness :
  size (attributesToMap attrs_two_keys) = 2%nat ∧
  attributesToMap attrs_repeated_key !! "http.method"%string = Some (AnyStr "POST").
Proof.
  split.
  - destruct (attributesToMap_last_value_wins attrs_two_keys)
      as (_ & _ & _ & Hsize & _).
    apply Hsize. apply (bool_decide_unpack _). by vm_compute.
  - destruct (attributesToMap_last_value_wins attrs_repeated_key) as (Hlast & _).
    rewrite Hlast. reflexivity.
Defined.

End concrete_inputs.
